(** * Email Outreach Pro: the campaign dispatch engine

    A shallow embedding of [app.py] (classes [Config], [Database],
    [EmailSender], [CampaignWorker]) and of the upsert statement shared with
    [add_tests.py], followed by the properties of the job store, of the
    worker controller and of the dispatch loop.

    Conventions.
    - The table [email_campaigns] is a list of rows in the scan order of the
      table; SQL statements are functions on that list.
    - [NOW()] and [time.sleep] read and advance a logical clock counted in
      seconds.
    - What the program cannot decide by itself (SMTP outcomes, store
      faults, random draws, the operator's clicks) is scripted in the world
      state and consumed in order. *)

From Stdlib Require Import ZArith List String Bool Lia Arith.
From Stdlib Require Import Sorting.Sorted Sorting.Permutation.
Import ListNotations.

Set Implicit Arguments.

Local Open Scope string_scope.
Local Open Scope list_scope.
Local Open Scope Z_scope.

(* ================================================================= *)
(** ** Configuration *)

Module Config.

Record t := mk {
  MIN_DELAY : Z;
  MAX_DELAY : Z;
  SENDER_NAME : string;
  SENDER_EMAIL : string;
  RESUME_PATH : string
}.

(** [int(os.getenv("MIN_DELAY", "600"))], [int(os.getenv("MAX_DELAY", "1800"))]
    when the environment sets neither. *)
Definition default : t :=
  {| MIN_DELAY := 600; MAX_DELAY := 1800;
     SENDER_NAME := ""; SENDER_EMAIL := ""; RESUME_PATH := "" |}.

End Config.

(* ================================================================= *)
(** ** The job store: table [email_campaigns] *)

Module Store.

(** One row of [email_campaigns].  [serial_number], [title], [company],
    [error_message] and [sent_at] are nullable; [status] and [sent] are
    written by every statement of the program (or take their defaults). *)
Record Row := mkRow {
  id : Z;
  serial_number : option Z;
  name : string;
  email : string;
  title : option string;
  company : option string;
  status : string;
  sent : bool;
  error_message : option string;
  sent_at : option Z;
  created_at : Z;
  updated_at : Z
}.

(** The table together with the sequence behind [id SERIAL]. *)
Record Db := mkDb {
  rows : list Row;
  id_seq : Z
}.

Definition empty : Db := {| rows := []; id_seq := 1 |}.

(** *** ORDER BY *)

(** Insertion of a row into an ordered list; a row goes before the first
    row it is not greater than, so rows with equal keys keep the order in
    which the scan delivered them. *)
Fixpoint insert_by (le : Row -> Row -> bool) (x : Row) (l : list Row) : list Row :=
  match l with
  | [] => [x]
  | y :: t => if le x y then x :: y :: t else y :: insert_by le x t
  end.

Definition order_by (le : Row -> Row -> bool) (l : list Row) : list Row :=
  fold_right (insert_by le) [] l.

(** [serial_number ASC]: PostgreSQL sorts NULL after every value. *)
Definition serial_le (a b : option Z) : bool :=
  match a, b with
  | Some x, Some y => x <=? y
  | Some _, None => true
  | None, Some _ => false
  | None, None => true
  end.

Definition serial_eq (a b : option Z) : bool :=
  match a, b with
  | Some x, Some y => x =? y
  | None, None => true
  | _, _ => false
  end.

(** [ORDER BY serial_number ASC] *)
Definition by_serial (r1 r2 : Row) : bool :=
  serial_le (serial_number r1) (serial_number r2).

(** [ORDER BY serial_number ASC, id ASC] *)
Definition by_serial_id (r1 r2 : Row) : bool :=
  if serial_eq (serial_number r1) (serial_number r2)
  then id r1 <=? id r2
  else serial_le (serial_number r1) (serial_number r2).

(** [ORDER BY updated_at DESC] *)
Definition by_updated_desc (r1 r2 : Row) : bool :=
  updated_at r2 <=? updated_at r1.

(** *** Queries *)

(** [WHERE status = 'pending' AND sent = FALSE] *)
Definition is_pending (r : Row) : bool :=
  (status r =? "pending")%string && negb (sent r).

(** [Database.get_pending_emails]:
    [SELECT * ... WHERE status = 'pending' AND sent = FALSE
     ORDER BY serial_number ASC LIMIT %s]. *)
Definition get_pending_emails (limit : nat) (d : Db) : list Row :=
  firstn limit (order_by by_serial (filter is_pending (rows d))).

(** [Database.get_pending_emails_paginated]:
    [... ORDER BY serial_number ASC, id ASC LIMIT %s OFFSET %s]. *)
Definition get_pending_emails_paginated (offset limit : nat) (d : Db) : list Row :=
  firstn limit (skipn offset (order_by by_serial_id (filter is_pending (rows d)))).

(** [Database.get_emails_by_status]:
    [SELECT * ... WHERE status = %s ORDER BY updated_at DESC]. *)
Definition get_emails_by_status (st : string) (d : Db) : list Row :=
  order_by by_updated_desc (filter (fun r => (status r =? st)%string) (rows d)).

(** [Database.get_email_by_id] *)
Definition get_email_by_id (email_id : Z) (d : Db) : option Row :=
  find (fun r => id r =? email_id) (rows d).

Record Stats := mkStats {
  total : nat;
  n_sent : nat;
  n_pending : nat;
  n_failed : nat
}.

Definition count (p : Row -> bool) (d : Db) : nat :=
  List.length (filter p (rows d)).

(** [Database.get_stats]: four [SELECT COUNT( * )] statements. *)
Definition get_stats (d : Db) : Stats :=
  {| total := List.length (rows d);
     n_sent := count (fun r => sent r) d;
     n_pending := count is_pending d;
     n_failed := count (fun r => (status r =? "failed")%string) d |}.

(** *** Updates *)

(** [UPDATE email_campaigns SET ... WHERE <cond>] *)
Definition update_where (cond : Row -> bool) (set : Row -> Row) (d : Db) : Db :=
  {| rows := map (fun r => if cond r then set r else r) (rows d);
     id_seq := id_seq d |}.

(** [SET status = %s, sent = TRUE, sent_at = NOW(), updated_at = NOW()] *)
Definition set_sent (st : string) (now : Z) (r : Row) : Row :=
  {| id := id r; serial_number := serial_number r; name := name r;
     email := email r; title := title r; company := company r;
     status := st; sent := true;
     error_message := error_message r;
     sent_at := Some now;
     created_at := created_at r; updated_at := now |}.

(** [SET status = %s, error_message = %s, updated_at = NOW()] *)
Definition set_outcome (st : string) (err : option string) (now : Z) (r : Row) : Row :=
  {| id := id r; serial_number := serial_number r; name := name r;
     email := email r; title := title r; company := company r;
     status := st; sent := sent r;
     error_message := err;
     sent_at := sent_at r;
     created_at := created_at r; updated_at := now |}.

(** [Database.update_email_status(email_id, status, error_message=None)] *)
Definition update_email_status
           (email_id : Z) (st : string) (err : option string) (now : Z) (d : Db) : Db :=
  if (st =? "sent")%string
  then update_where (fun r => id r =? email_id) (set_sent st now) d
  else update_where (fun r => id r =? email_id) (set_outcome st err now) d.

(** [SET status = 'pending', sent = FALSE, error_message = NULL,
    updated_at = NOW()] *)
Definition set_pending (now : Z) (r : Row) : Row :=
  {| id := id r; serial_number := serial_number r; name := name r;
     email := email r; title := title r; company := company r;
     status := "pending"; sent := false;
     error_message := None;
     sent_at := sent_at r;
     created_at := created_at r; updated_at := now |}.

(** [Database.reset_email_status(email_id)] *)
Definition reset_email_status (email_id : Z) (now : Z) (d : Db) : Db :=
  update_where (fun r => id r =? email_id) (set_pending now) d.

(** [Database.reset_all_failed()] *)
Definition reset_all_failed (now : Z) (d : Db) : Db :=
  update_where (fun r => (status r =? "failed")%string) (set_pending now) d.

(** *** Upsert *)

Record Contact := mkContact {
  c_serial_number : option Z;
  c_name : string;
  c_email : string;
  c_title : option string;
  c_company : option string
}.

(** The row built by [INSERT ... VALUES (%s, %s, %s, %s, %s, 'pending',
    FALSE)]; the columns left out take their defaults. *)
Definition new_row (fresh : Z) (c : Contact) (now : Z) : Row :=
  {| id := fresh; serial_number := c_serial_number c; name := c_name c;
     email := c_email c; title := c_title c; company := c_company c;
     status := "pending"; sent := false;
     error_message := None; sent_at := None;
     created_at := now; updated_at := now |}.

(** [ON CONFLICT (email) DO UPDATE SET status = 'pending', sent = FALSE,
    name = EXCLUDED.name, title = EXCLUDED.title,
    company = EXCLUDED.company, error_message = NULL, sent_at = NULL] *)
Definition set_conflict (c : Contact) (r : Row) : Row :=
  {| id := id r; serial_number := serial_number r; name := c_name c;
     email := email r; title := c_title c; company := c_company c;
     status := "pending"; sent := false;
     error_message := None; sent_at := None;
     created_at := created_at r; updated_at := updated_at r |}.

Definition has_email (e : string) (r : Row) : bool := (email r =? e)%string.

Definition pkey_violation : string :=
  "duplicate key value violates unique constraint email_campaigns_pkey".

(** The upsert statement of [Database.add_test_contacts] and of
    [add_tests.py].  The default of [id] draws from the sequence before
    the conflict on [email] is looked for, so the sequence advances in
    every case; a fresh [id] that is already taken violates the primary
    key and the statement raises. *)
Definition upsert (c : Contact) (now : Z) (d : Db) : Db * option string :=
  let fresh := id_seq d in
  if existsb (has_email (c_email c)) (rows d)
  then ({| rows := map (fun r => if has_email (c_email c) r
                                 then set_conflict c r else r) (rows d);
           id_seq := fresh + 1 |}, None)
  else if existsb (fun r => id r =? fresh) (rows d)
  then ({| rows := rows d; id_seq := fresh + 1 |}, Some pkey_violation)
  else ({| rows := rows d ++ [new_row fresh c now]; id_seq := fresh + 1 |}, None).

Definition test_contact (nm em ti co : string) : Contact :=
  {| c_serial_number := Some 0; c_name := nm; c_email := em;
     c_title := Some ti; c_company := Some co |}.

Definition test_contacts : list Contact :=
  [ test_contact "Priya Sharma" "chiragj2019+google@gmail.com" "HR Manager" "Google India";
    test_contact "Rahul Verma" "chiragj2019+microsoft@gmail.com" "Talent Acquisition Lead" "Microsoft";
    test_contact "Anjali Gupta" "chiragj2019+amazon@gmail.com" "Technical Recruiter" "Amazon";
    test_contact "Vikram Singh" "chiragj2019+infosys@gmail.com" "Senior HR Executive" "Infosys";
    test_contact "Neha Patel" "chiragj2019+tcs@gmail.com" "Campus Recruitment Head" "TCS";
    test_contact "Amit Kumar" "chiragj2019+wipro@gmail.com" "HR Business Partner" "Wipro";
    test_contact "Sneha Reddy" "chiragj2019+flipkart@gmail.com" "People Operations Manager" "Flipkart";
    test_contact "Rajesh Nair" "chiragj2019+paytm@gmail.com" "Talent Acquisition Specialist" "Paytm";
    test_contact "Kavita Joshi" "chiragj2019+zomato@gmail.com" "Recruitment Manager" "Zomato";
    test_contact "Sanjay Mehta" "chiragj2019+swiggy@gmail.com" "HR Director" "Swiggy" ].

(** [Database.add_test_contacts]: one upsert per contact; an exception
    is printed and the loop goes on with the next contact. *)
Definition add_test_contacts (now : Z) (d : Db) : Db :=
  fold_left (fun acc c => fst (upsert c now acc)) test_contacts d.

(** *** Sequences of store operations *)

Inductive op :=
| Upsert (c : Contact)
| UpdateStatus (email_id : Z) (st : string) (err : option string)
| ResetStatus (email_id : Z)
| ResetAllFailed.

Definition apply_op (now : Z) (o : op) (d : Db) : Db :=
  match o with
  | Upsert c => fst (upsert c now d)
  | UpdateStatus i st err => update_email_status i st err now d
  | ResetStatus i => reset_email_status i now d
  | ResetAllFailed => reset_all_failed now d
  end.

(** Operations run one after the other, each stamped with the time of
    its call. *)
Fixpoint run_ops (l : list (Z * op)) (d : Db) : Db :=
  match l with
  | [] => d
  | (now, o) :: t => run_ops t (apply_op now o d)
  end.

End Store.

(* ================================================================= *)
(** ** The worker object and its controls *)

Module CampaignWorker.

(** The fields set by [CampaignWorker.__new__]; [thread] holds the
    ordinal of the last thread started, if any. *)
Record t := mk {
  is_running : bool;
  is_paused : bool;
  current_email : option string;
  thread : option nat
}.

(** The singleton as [__new__] creates it. *)
Definition new : t :=
  {| is_running := false; is_paused := false;
     current_email := None; thread := None |}.

Definition next_thread (w : t) : nat :=
  match thread w with Some n => S n | None => 1%nat end.

(** [start]: guarded by [if not self.is_running]. *)
Definition start (w : t) : t :=
  if is_running w then w
  else {| is_running := true; is_paused := false;
          current_email := current_email w;
          thread := Some (next_thread w) |}.

(** [pause]: [self.is_paused = True]. *)
Definition pause (w : t) : t :=
  {| is_running := is_running w; is_paused := true;
     current_email := current_email w; thread := thread w |}.

(** [resume]: [self.is_paused = False]. *)
Definition resume (w : t) : t :=
  {| is_running := is_running w; is_paused := false;
     current_email := current_email w; thread := thread w |}.

(** [stop] *)
Definition stop (w : t) : t :=
  {| is_running := false; is_paused := false;
     current_email := None; thread := thread w |}.

Inductive command := Start | Pause | Resume | Stop.

Definition exec (c : command) (w : t) : t :=
  match c with
  | Start => start w
  | Pause => pause w
  | Resume => resume w
  | Stop => stop w
  end.

Definition exec_all (cs : list command) (w : t) : t :=
  fold_left (fun acc c => exec c acc) cs w.

(** The run mode as the status badge of [main] derives it from the
    flags: [if worker.is_running: (Paused if worker.is_paused else
    Running) else: Stopped]. *)
Inductive run_mode := Stopped | Running | Paused.

Definition mode (w : t) : run_mode :=
  if is_running w then (if is_paused w then Paused else Running) else Stopped.

(** What the sidebar reports: the badge and the "Currently Sending" box. *)
Definition status (w : t) : run_mode * option string :=
  (mode w, current_email w).

(** The test made before each sub-wait and before the delay is drawn:
    [not self.is_running or self.is_paused]. *)
Definition halted (w : t) : bool :=
  negb (is_running w) || is_paused w.

Definition with_running (b : bool) (w : t) : t :=
  {| is_running := b; is_paused := is_paused w;
     current_email := current_email w; thread := thread w |}.

Definition with_current (e : option string) (w : t) : t :=
  {| is_running := is_running w; is_paused := is_paused w;
     current_email := e; thread := thread w |}.

End CampaignWorker.

(* ================================================================= *)
(** ** The world the program runs in *)

Module Runtime.

(** Python exceptions met by the loop. [DbError] is [psycopg2.Error]. *)
Inductive exn :=
| DbError (msg : string)
| GenericException (msg : string)
| ValueError (msg : string).

(** [str(e)] *)
Definition str (e : exn) : string :=
  match e with
  | DbError m => m
  | GenericException m => m
  | ValueError m => m
  end.

Inductive result (A : Type) :=
| Ok (a : A)
| Raise (e : exn).
Arguments Ok {A} a.
Arguments Raise {A} e.

Record Mail := mkMail {
  to_email : string;
  subject : string;
  body : string;
  attachment : option string
}.

(** What an observer outside the process sees, oldest first. *)
Inductive event :=
| EvConnect (ok : bool)
| EvExecute (ok : bool)
| EvSend (m : Mail) (ok : bool)
| EvSleep (secs : Z)
| EvPrint (line : string).

(** State of [Database._connection]. *)
Inductive conn_state := NoConn | Open | Closed.

(** Outcome scripted for one round trip to the store: it works, the
    connection is lost (and marked closed), or the server refuses. *)
Inductive fault :=
| Healthy
| Broken (msg : string)
| Rejected (msg : string).

(** The state the thread runs against.  [faults], [smtp], [entropy] and
    [ctl] are scripts consumed from the head: the outcome of the next
    round trip to the store, the answer of the mail server to the next
    message ([Some reason] refuses it), the next draw of the random
    generator, the operator's commands issued during the next suspension.
    An exhausted script stands for a healthy store, a server that
    accepts, a draw of 0 and an idle operator.  [resume_storage] is the
    active row of table [resume_storage], [resume_file] the file at
    [RESUME_PATH] when it exists. *)
Record World := mkWorld {
  db : Store.Db;
  worker : CampaignWorker.t;
  clock : Z;
  conn : conn_state;
  faults : list fault;
  smtp : list (option string);
  entropy : list Z;
  ctl : list (list CampaignWorker.command);
  resume_storage : option string;
  resume_file : option string;
  trace : list event
}.

Definition with_db (d : Store.Db) (s : World) : World :=
  mkWorld d (worker s) (clock s) (conn s) (faults s) (smtp s) (entropy s)
          (ctl s) (resume_storage s) (resume_file s) (trace s).

Definition with_worker (w : CampaignWorker.t) (s : World) : World :=
  mkWorld (db s) w (clock s) (conn s) (faults s) (smtp s) (entropy s)
          (ctl s) (resume_storage s) (resume_file s) (trace s).

Definition with_clock (c : Z) (s : World) : World :=
  mkWorld (db s) (worker s) c (conn s) (faults s) (smtp s) (entropy s)
          (ctl s) (resume_storage s) (resume_file s) (trace s).

Definition with_conn (c : conn_state) (s : World) : World :=
  mkWorld (db s) (worker s) (clock s) c (faults s) (smtp s) (entropy s)
          (ctl s) (resume_storage s) (resume_file s) (trace s).

Definition with_faults (f : list fault) (s : World) : World :=
  mkWorld (db s) (worker s) (clock s) (conn s) f (smtp s) (entropy s)
          (ctl s) (resume_storage s) (resume_file s) (trace s).

Definition with_smtp (l : list (option string)) (s : World) : World :=
  mkWorld (db s) (worker s) (clock s) (conn s) (faults s) l (entropy s)
          (ctl s) (resume_storage s) (resume_file s) (trace s).

Definition with_entropy (l : list Z) (s : World) : World :=
  mkWorld (db s) (worker s) (clock s) (conn s) (faults s) (smtp s) l
          (ctl s) (resume_storage s) (resume_file s) (trace s).

Definition with_ctl (l : list (list CampaignWorker.command)) (s : World) : World :=
  mkWorld (db s) (worker s) (clock s) (conn s) (faults s) (smtp s) (entropy s)
          l (resume_storage s) (resume_file s) (trace s).

Definition emit (e : event) (s : World) : World :=
  mkWorld (db s) (worker s) (clock s) (conn s) (faults s) (smtp s) (entropy s)
          (ctl s) (resume_storage s) (resume_file s) (trace s ++ [e]).

(** Computations of the worker thread: they read and write the world and
    either return or raise. *)
Definition M (A : Type) : Type := World -> result A * World.

Definition ret {A} (a : A) : M A := fun s => (Ok a, s).

Definition bind {A B} (m : M A) (k : A -> M B) : M B :=
  fun s => match m s with
           | (Ok a, s') => k a s'
           | (Raise e, s') => (Raise e, s')
           end.

Definition raise {A} (e : exn) : M A := fun s => (Raise e, s).

(** [try: m except Exception as e: h e] *)
Definition try_except {A} (m : M A) (h : exn -> M A) : M A :=
  fun s => match m s with
           | (Ok a, s') => (Ok a, s')
           | (Raise e, s') => h e s'
           end.

(** [try: m except psycopg2.Error as e: h e] *)
Definition try_except_db {A} (m : M A) (h : exn -> M A) : M A :=
  fun s => match m s with
           | (Raise (DbError msg), s') => h (DbError msg) s'
           | other => other
           end.

Definition get_worker : M CampaignWorker.t := fun s => (Ok (worker s), s).

Definition modify_worker (f : CampaignWorker.t -> CampaignWorker.t) : M unit :=
  fun s => (Ok tt, with_worker (f (worker s)) s).

(** A point where the thread is suspended: the operator's commands
    scripted for it run against the worker object. *)
Definition suspend (s : World) : World :=
  match ctl s with
  | [] => s
  | cs :: rest => with_ctl rest (with_worker (CampaignWorker.exec_all cs (worker s)) s)
  end.

(** [time.sleep(secs)] *)
Definition sleep (secs : Z) : M unit :=
  fun s => (Ok tt, suspend (with_clock (clock s + secs) (emit (EvSleep secs) s))).

(** [print(line)] *)
Definition print (line : string) : M unit :=
  fun s => (Ok tt, emit (EvPrint line) s).

(** [random.randint(a, b)]: an integer of [a..b] picked by the next
    draw of the generator; an empty range raises [ValueError]. *)
Definition randint (a b : Z) : M Z :=
  fun s => if b <? a
           then (Raise (ValueError "empty range for randrange()"), s)
           else (Ok (a + (hd 0 (entropy s)) mod (b - a + 1)),
                 with_entropy (tl (entropy s)) s).

(** The [with smtplib.SMTP(...)] block of [send_email]: the next
    scripted outcome decides whether the message is accepted. *)
Definition smtp_send (m : Mail) : M unit :=
  fun s => match smtp s with
           | Some reason :: rest =>
               (Raise (GenericException reason),
                suspend (with_smtp rest (emit (EvSend m false) s)))
           | None :: rest =>
               (Ok tt, suspend (with_smtp rest (emit (EvSend m true) s)))
           | [] =>
               (Ok tt, suspend (emit (EvSend m true) s))
           end.

End Runtime.

Declare Scope dispatch_scope.
Delimit Scope dispatch_scope with dispatch.
Notation "x <- m ;; k" := (Runtime.bind m (fun x => k))
  (at level 61, m at next level, right associativity) : dispatch_scope.
Notation "m ;; k" := (Runtime.bind m (fun _ => k))
  (at level 61, right associativity) : dispatch_scope.

(* ================================================================= *)
(** ** [Database]: the statements as the worker thread runs them *)

Module Database.
Import Runtime.
Local Open Scope dispatch_scope.

Definition next_fault (s : World) : fault * list fault :=
  match faults s with
  | [] => (Healthy, [])
  | f :: rest => (f, rest)
  end.

(** [Database.get_connection]: connects when there is no connection or
    the connection is closed. *)
Definition get_connection : M unit :=
  fun s =>
    match conn s with
    | Open => (Ok tt, s)
    | _ =>
        match next_fault s with
        | (Healthy, rest) =>
            (Ok tt, with_conn Open (with_faults rest (emit (EvConnect true) s)))
        | (Broken m, rest) =>
            (Raise (DbError m), with_faults rest (emit (EvConnect false) s))
        | (Rejected m, rest) =>
            (Raise (DbError m), with_faults rest (emit (EvConnect false) s))
        end
    end.

(** [cur.execute(query, params)] followed by the fetch, for a statement
    whose meaning on the table is [q]; [NOW()] is the clock. *)
Definition cursor_execute {A} (q : Z -> Store.Db -> A * Store.Db) : M A :=
  fun s =>
    match next_fault s with
    | (Healthy, rest) =>
        let (a, d) := q (clock s) (db s) in
        (Ok a, with_db d (with_faults rest (emit (EvExecute true) s)))
    | (Broken m, rest) =>
        (Raise (DbError m),
         with_conn Closed (with_faults rest (emit (EvExecute false) s)))
    | (Rejected m, rest) =>
        (Raise (DbError m), with_faults rest (emit (EvExecute false) s))
    end.

Definition forget_connection : M unit :=
  fun s => (Ok tt, with_conn NoConn s).

(** [Database.execute_query]: the statement is tried; on a
    [psycopg2.Error] the connection is dropped, opened again and the
    statement is run a second time, outside any handler. *)
Definition execute_query {A} (q : Z -> Store.Db -> A * Store.Db) : M A :=
  try_except_db
    (get_connection ;; cursor_execute q)
    (fun _ => forget_connection ;; get_connection ;; cursor_execute q).

(** [Database.init_tables]: two [CREATE TABLE IF NOT EXISTS]; the tables
    of the model always exist. *)
Definition init_tables : M unit :=
  execute_query (fun _ d => (tt, d)) ;;
  execute_query (fun _ d => (tt, d)).

Definition get_pending_emails (limit : nat) : M (list Store.Row) :=
  get_connection ;;
  cursor_execute (fun _ d => (Store.get_pending_emails limit d, d)).

Definition get_emails_by_status (st : string) : M (list Store.Row) :=
  get_connection ;;
  cursor_execute (fun _ d => (Store.get_emails_by_status st d, d)).

Definition update_email_status
           (email_id : Z) (st : string) (err : option string) : M unit :=
  get_connection ;;
  cursor_execute (fun now d => (tt, Store.update_email_status email_id st err now d)).

Definition reset_email_status (email_id : Z) : M unit :=
  get_connection ;;
  cursor_execute (fun now d => (tt, Store.reset_email_status email_id now d)).

Definition reset_all_failed : M unit :=
  get_connection ;;
  cursor_execute (fun now d => (tt, Store.reset_all_failed now d)).

(** [Database.get_active_resume]: a read of [resume_storage]. *)
Definition get_active_resume : M (option string) :=
  get_connection ;;
  cursor_execute (fun _ d => (tt, d)) ;;
  (fun s => (Ok (resume_storage s), s)).

End Database.

(* ================================================================= *)
(** ** [EmailSender] *)

Module EmailSender.
Import Runtime.
Local Open Scope dispatch_scope.

(** [get_resume_attachment]: the stored resume, else the local file,
    else nothing.  [resume_storage] stands for an active row whose
    content [base64.b64decode] accepts, [resume_file] for a file at
    [RESUME_PATH] that [open] can read; the exceptions that these two
    calls raise in the source on other content or files are outside the
    model. *)
Definition get_resume_attachment : M (option string) :=
  resume_data <- Database.get_active_resume ;;
  match resume_data with
  | Some f => ret (Some f)
  | None => fun s => (Ok (resume_file s), s)
  end.

(** [send_email]: the attachment is looked up outside the [try]; an
    exception of the SMTP block is raised again as
    [Exception("SMTP Error: ...")]. *)
Definition send_email (to subj bdy : string) : M bool :=
  resume <- get_resume_attachment ;;
  try_except
    (smtp_send {| to_email := to; subject := subj; body := bdy;
                  attachment := resume |} ;;
     ret true)
    (fun e => raise (GenericException ("SMTP Error: " ++ str e)%string)).

End EmailSender.

(* ================================================================= *)
(** ** The dispatch loop: [CampaignWorker.process_emails] *)

Module DispatchLoop.
Import Runtime.
Local Open Scope dispatch_scope.

Inductive flow := Continue | Break.
Inductive loop_exit := Finished | OutOfFuel.

(** [x or dflt] on an optional string: [None] and the empty string are
    both falsy. *)
Definition or_default (o : option string) (dflt : string) : string :=
  match o with
  | Some s => if (s =? "")%string then dflt else s
  | None => dflt
  end.

Section WithCollaborators.

Variable cfg : Config.t.

(** [gemini_client.generate_email]: returns subject and body, and
    catches its own failures. *)
Variable generate_email : string -> string -> string -> string * string.

(** The [for _ in range(delay)] loop: the flags are tested, then one
    second is slept. *)
Fixpoint wait_loop (n : nat) : M unit :=
  match n with
  | O => ret tt
  | S k =>
      w <- get_worker ;;
      if CampaignWorker.halted w then ret tt
      else sleep 1 ;; wait_loop k
  end.

(** "Random delay between emails" *)
Definition pace : M unit :=
  w <- get_worker ;;
  if CampaignWorker.is_running w && negb (CampaignWorker.is_paused w)
  then delay <- randint (Config.MIN_DELAY cfg) (Config.MAX_DELAY cfg) ;;
       wait_loop (Z.to_nat delay)
  else ret tt.

(** Generation, sending and recording for one fetched row. *)
Definition send_and_record (email_record : Store.Row) : M unit :=
  let email_content :=
    generate_email (Store.name email_record)
                   (or_default (Store.title email_record) "HR Manager")
                   (or_default (Store.company email_record) "your company") in
  try_except
    (EmailSender.send_email (Store.email email_record)
                            (fst email_content) (snd email_content) ;;
     Database.update_email_status (Store.id email_record) "sent" None)
    (fun e =>
       Database.update_email_status (Store.id email_record) "failed" (Some (str e))).

(** The body of the outer [try] of one turn of the loop. *)
Definition attempt : M flow :=
  emails <- Database.get_pending_emails 1 ;;
  match emails with
  | [] =>
      modify_worker (CampaignWorker.with_running false) ;;
      modify_worker (CampaignWorker.with_current None) ;;
      ret Break
  | email_record :: _ =>
      modify_worker (CampaignWorker.with_current (Some (Store.email email_record))) ;;
      send_and_record email_record ;;
      modify_worker (CampaignWorker.with_current None) ;;
      pace ;;
      ret Continue
  end.

(** One turn of [while self.is_running]. *)
Definition iteration (s : World) : flow * World :=
  if CampaignWorker.is_paused (worker s)
  then (Continue, snd (sleep 1 s))
  else match attempt s with
       | (Ok f, s') => (f, s')
       | (Raise e, s') =>
           (Continue,
            snd ((print ("Worker error: " ++ str e)%string ;; sleep 5) s'))
       end.

Fixpoint run_loop (fuel : nat) (s : World) : loop_exit * World :=
  match fuel with
  | O => (OutOfFuel, s)
  | S f =>
      if CampaignWorker.is_running (worker s)
      then match iteration s with
           | (Break, s') => (Finished, s')
           | (Continue, s') => run_loop f s'
           end
      else (Finished, s)
  end.

(** [process_emails]: the loop, then [self.current_email = None]. *)
Definition process_emails (fuel : nat) (s : World) : loop_exit * World :=
  match run_loop fuel s with
  | (Finished, s') =>
      (Finished, with_worker (CampaignWorker.with_current None (worker s')) s')
  | (OutOfFuel, s') => (OutOfFuel, s')
  end.

(** The "Send" button of the Custom Send tab, for a row of the list
    the page has fetched with [get_emails_by_status("pending")]. *)
Definition manual_send (email : Store.Row) : M unit :=
  let email_content :=
    generate_email (Store.name email)
                   (or_default (Store.title email) "HR Manager")
                   (or_default (Store.company email) "your company") in
  try_except
    (EmailSender.send_email (Store.email email)
                            (fst email_content) (snd email_content) ;;
     Database.update_email_status (Store.id email) "sent" None ;;
     sleep 1)
    (fun e =>
       Database.update_email_status (Store.id email) "failed" (Some (str e))).

End WithCollaborators.

End DispatchLoop.

(* ================================================================= *)
(** ** Predicates used by the statements below *)

Module Props.
Import Store.

(** The status invariant of the job table, for one row. *)
Definition status_invariant (r : Row) : Prop :=
  (status r = "sent" -> sent_at r <> None /\ error_message r = None) /\
  (status r = "failed" -> error_message r <> None /\ sent_at r = None) /\
  (status r = "pending" -> sent_at r = None /\ error_message r = None).

Definition is_some {A} (o : option A) : bool :=
  match o with Some _ => true | None => false end.

(** The same, as a test. *)
Definition status_invariantb (r : Row) : bool :=
  (if (status r =? "sent")%string
   then is_some (sent_at r) && negb (is_some (error_message r)) else true) &&
  (if (status r =? "failed")%string
   then is_some (error_message r) && negb (is_some (sent_at r)) else true) &&
  (if (status r =? "pending")%string
   then negb (is_some (sent_at r)) && negb (is_some (error_message r)) else true).

(** What the schema grants: [id] is a primary key drawn from the
    sequence and [email] is unique. *)
Definition schema_ok (d : Db) : Prop :=
  NoDup (map id (rows d)) /\
  NoDup (map email (rows d)) /\
  Forall (fun r => id r < id_seq d) (rows d).

(** An operation called the way the loop and the dashboard call it: an
    outcome is recorded for a pending row, as [sent] or as [failed] with
    a message, and a retry is asked for a failed row. *)
Definition in_flow (d : Db) (o : op) : Prop :=
  match o with
  | Upsert _ => True
  | UpdateStatus i st err =>
      (forall r, In r (rows d) -> id r = i -> status r = "pending") /\
      (st = "sent" \/ (st = "failed" /\ err <> None))
  | ResetStatus i =>
      forall r, In r (rows d) -> id r = i -> status r = "failed"
  | ResetAllFailed => True
  end.

Fixpoint flows (l : list (Z * op)) (d : Db) : Prop :=
  match l with
  | [] => True
  | (now, o) :: t => in_flow d o /\ flows t (apply_op now o d)
  end.

(** Rows the statistics count in the [sent] and in the [failed] bucket. *)
Definition counted_sent (r : Row) : bool := sent r.
Definition counted_pending (r : Row) : bool := is_pending r.
Definition counted_failed (r : Row) : bool := (status r =? "failed")%string.

(** The messages handed to the SMTP server, in order. *)
Fixpoint sends (tr : list Runtime.event) : list string :=
  match tr with
  | [] => []
  | Runtime.EvSend m _ :: t => Runtime.to_email m :: sends t
  | _ :: t => sends t
  end.

(** The world after [k] sub-waits of one second. *)
Fixpoint slept (k : nat) (s : Runtime.World) : Runtime.World :=
  match k with
  | O => s
  | S k' => slept k' (snd (Runtime.sleep 1 s))
  end.

(** The effect of the statement on one row when the email is taken. *)
Definition on_conflict (c : Contact) (r : Row) : Row :=
  if has_email (c_email c) r then set_conflict c r else r.

(** Nothing disturbs the thread: the store answers and the operator
    does not click. *)
Definition calm (s : Runtime.World) : Prop :=
  Runtime.faults s = [] /\ Runtime.ctl s = [].

(** What a statement on a healthy store leaves as it was. *)
Definition calm_frame (s s' : Runtime.World) : Prop :=
  calm s' /\
  Runtime.worker s' = Runtime.worker s /\
  Runtime.clock s' = Runtime.clock s /\
  Runtime.smtp s' = Runtime.smtp s /\
  Runtime.entropy s' = Runtime.entropy s /\
  Runtime.resume_storage s' = Runtime.resume_storage s /\
  Runtime.resume_file s' = Runtime.resume_file s.

Definition fault_msg (f : Runtime.fault) : option string :=
  match f with
  | Runtime.Healthy => None
  | Runtime.Broken m => Some m
  | Runtime.Rejected m => Some m
  end.

Fixpoint executes (tr : list Runtime.event) : nat :=
  match tr with
  | [] => O
  | Runtime.EvExecute _ :: t => S (executes t)
  | _ :: t => executes t
  end.

(** The table after the loop has recorded the outcome of row [r], the
    mail server answering as scripted at the head of [script]. *)
Definition recorded (r : Store.Row) (script : list (option string)) (now : Z)
           (d : Store.Db) : Store.Db :=
  match script with
  | Some reason :: _ =>
      Store.update_email_status (Store.id r) "failed"
        (Some ("SMTP Error: " ++ reason)%string) now d
  | _ => Store.update_email_status (Store.id r) "sent" None now d
  end.

End Props.

(* ================================================================= *)
(** ** Sample data *)

Module Samples.
Import Store.

Definition contact_a : Contact :=
  {| c_serial_number := Some 1; c_name := "Asha Rao";
     c_email := "asha@example.org"; c_title := Some "Recruiter";
     c_company := Some "Initech" |}.

Definition flow_example : list (Z * op) :=
  [ (10, Upsert contact_a);
    (20, UpdateStatus 1 "failed" (Some "SMTP Error: boom"));
    (30, ResetStatus 1);
    (40, UpdateStatus 1 "sent" None);
    (50, ResetAllFailed) ].

Definition unguarded_example : list (Z * op) :=
  [ (10, Upsert contact_a);
    (20, UpdateStatus 1 "failed" (Some "SMTP Error: boom"));
    (30, UpdateStatus 1 "sent" None) ].

Definition retry_example : list (Z * op) :=
  [ (10, Upsert contact_a);
    (20, UpdateStatus 1 "sent" None);
    (30, UpdateStatus 1 "failed" (Some "SMTP Error: boom")) ].

Definition contact_a_renamed : Contact :=
  {| c_serial_number := Some 7; c_name := "Asha R. Rao";
     c_email := "asha@example.org"; c_title := None;
     c_company := Some "Initrode" |}.

(** A pending job as an import of contacts leaves it. *)
Definition job (i sn : Z) (e : string) : Row :=
  {| id := i; serial_number := Some sn; name := e; email := e;
     title := None; company := None;
     status := "pending"; sent := false;
     error_message := None; sent_at := None;
     created_at := 0; updated_at := 0 |}.

(** Two pending jobs with the same [serial_number]; the scan of the
    table meets the row with the greater [id] first. *)
Definition ties_db : Db :=
  {| rows := [job 2 5 "b@example.org"; job 1 5 "a@example.org"]; id_seq := 3 |}.

Definition contact (sn : Z) (e : string) : Contact :=
  {| c_serial_number := Some sn; c_name := e; c_email := e;
     c_title := None; c_company := None |}.

(** Contacts with priorities 2, 0, 1 inserted in that order. *)
Definition three_jobs : Db :=
  run_ops [ (1, Upsert (contact 2 "a@example.org"));
            (2, Upsert (contact 0 "b@example.org"));
            (3, Upsert (contact 1 "c@example.org")) ] empty.

Definition one_job : Db :=
  run_ops [ (1, Upsert (contact 1 "a@example.org")) ] empty.

Definition sample_generate (hr_name hr_title company : string) : string * string :=
  (("Application for Software Developer Role - " ++ company)%string,
   ("Hello " ++ hr_name)%string).

Definition no_delay : Config.t :=
  {| Config.MIN_DELAY := 0; Config.MAX_DELAY := 0;
     Config.SENDER_NAME := ""; Config.SENDER_EMAIL := "";
     Config.RESUME_PATH := "" |}.

Definition short_delay : Config.t :=
  {| Config.MIN_DELAY := 3; Config.MAX_DELAY := 5;
     Config.SENDER_NAME := ""; Config.SENDER_EMAIL := "";
     Config.RESUME_PATH := "" |}.

(** A started worker in front of table [d], at time 1000, with a
    healthy store and a mail server that accepts everything. *)
Definition world_of (d : Db) : Runtime.World :=
  {| Runtime.db := d;
     Runtime.worker := CampaignWorker.start CampaignWorker.new;
     Runtime.clock := 1000;
     Runtime.conn := Runtime.Open;
     Runtime.faults := [];
     Runtime.smtp := [];
     Runtime.entropy := [];
     Runtime.ctl := [];
     Runtime.resume_storage := None;
     Runtime.resume_file := None;
     Runtime.trace := [] |}.

(** The same with a mail server that refuses every message. *)
Definition world_boom (d : Db) : Runtime.World :=
  Runtime.with_smtp (repeat (Some "boom") 8) (world_of d).

(** The same in front of a store that has gone away. *)
Definition world_outage (d : Db) : Runtime.World :=
  Runtime.with_faults
    (repeat (Runtime.Broken "server closed the connection unexpectedly") 40)
    (world_of d).

(** The draw gives a delay of four seconds and a pause is clicked during
    the third sub-wait. *)
Definition world_pause_in_wait (d : Db) : Runtime.World :=
  Runtime.with_ctl [[]; []; [CampaignWorker.Pause]]
    (Runtime.with_entropy [1] (world_of d)).

End Samples.

(* ================================================================= *)
(** ** The maintenance scripts: [add_tests.py] and [check_test.py] *)

Module Scripts.
Import Store.

(** The upsert loop of [add_tests.py]: the statement of
    [add_test_contacts] without its [try]; the first exception ends the
    script. *)
Fixpoint upsert_loop (cs : list Contact) (now : Z) (d : Db) : Db * option string :=
  match cs with
  | [] => (d, None)
  | c :: t =>
      match upsert c now d with
      | (d', None) => upsert_loop t now d'
      | (d', Some e) => (d', Some e)
      end
  end.

Definition old_test_emails : list string :=
  ["chiragj2019@gmail.com"; "cjshorts14@gmail.com"].

(** [SET status = 'pending', sent = FALSE, error_message = NULL,
    sent_at = NULL] *)
Definition set_requeued (r : Row) : Row :=
  {| id := id r; serial_number := serial_number r; name := name r;
     email := email r; title := title r; company := company r;
     status := "pending"; sent := false;
     error_message := None; sent_at := None;
     created_at := created_at r; updated_at := updated_at r |}.

(** "Also reset old test contacts":
    [UPDATE ... WHERE email IN ('chiragj2019@gmail.com',
    'cjshorts14@gmail.com')]. *)
Definition reset_old_test_contacts (d : Db) : Db :=
  update_where (fun r => existsb (String.eqb (email r)) old_test_emails)
               set_requeued d.

(** [WHERE serial_number = 0], the filter of the listing that ends
    [add_tests.py]. *)
Definition serial_is_zero (r : Row) : bool :=
  match serial_number r with
  | Some n => n =? 0
  | None => false
  end.

(** The rows of that listing, before [ORDER BY name]. *)
Definition listed_test_contacts (d : Db) : list Row :=
  filter serial_is_zero (rows d).

(** [add_tests.py] up to its listing: the upserts, then the reset. *)
Definition add_tests (now : Z) (d : Db) : Db * option string :=
  match upsert_loop test_contacts now d with
  | (d', None) => (reset_old_test_contacts d', None)
  | (d', Some e) => (d', Some e)
  end.

(** [email LIKE '%chiragj2019%'] *)
Definition like_chiragj2019 (e : string) : bool :=
  match String.index 0 "chiragj2019" e with
  | Some _ => true
  | None => false
  end.

(** The first query of [check_test.py]:
    [WHERE serial_number = 0 OR email LIKE '%chiragj2019%']. *)
Definition check_test_rows (d : Db) : list Row :=
  filter (fun r => serial_is_zero r || like_chiragj2019 (email r)) (rows d).

Inductive report :=
| TestContacts (found : list Row)
| NoTestContacts (pending_count : nat) (first_pending : list Row).

(** [check_test.py]: the rows found, or else the number of rows whose
    status is pending and the first five of them. *)
Definition check_test (d : Db) : report :=
  match check_test_rows d with
  | [] =>
      NoTestContacts
        (List.length (filter (fun r => (status r =? "pending")%string) (rows d)))
        (firstn 5 (filter (fun r => (status r =? "pending")%string) (rows d)))
  | found => TestContacts found
  end.

End Scripts.

(* ================================================================= *)
(** ** The dashboard: what [main] computes around the store and the worker *)

Module Dashboard.
Import Store.

(** The sidebar buttons of "Campaign Controls". *)
Inductive button :=
| StartCampaign (disabled : bool)
| ResumeButton
| PauseButton
| StopCampaign.

(** Which buttons the sidebar draws: [Start] (disabled when
    [stats["pending"] == 0]) for a worker that is not running, else
    [Resume] or [Pause], then [Stop]. *)
Definition sidebar (w : CampaignWorker.t) (stats : Stats) : list button :=
  if negb (CampaignWorker.is_running w)
  then [StartCampaign (Nat.eqb (n_pending stats) 0)]
  else (if CampaignWorker.is_paused w then [ResumeButton] else [PauseButton])
         ++ [StopCampaign].

(** The effect of a click; a disabled button does nothing. *)
Definition click (b : button) (w : CampaignWorker.t) : CampaignWorker.t :=
  match b with
  | StartCampaign true => w
  | StartCampaign false => CampaignWorker.start w
  | ResumeButton => CampaignWorker.resume w
  | PauseButton => CampaignWorker.pause w
  | StopCampaign => CampaignWorker.stop w
  end.

(** [e['serial_number'] == 0] *)
Definition is_test (e : Row) : bool :=
  match serial_number e with
  | Some n => n =? 0
  | None => false
  end.

Inductive filter_option := AllPending | TestOnly | RegularOnly.

(** [key=lambda x: (0 if x['serial_number'] == 0 else 1,
    x['serial_number'])] *)
Definition sort_key (x : Row) : Z * option Z :=
  (if is_test x then 0 else 1, serial_number x).

(** [k1 < k2] on such keys, where it is defined: the first components
    decide when they differ, else the serial numbers; two equal second
    components are not compared further. *)
Definition key_lt (k1 k2 : Z * option Z) : bool :=
  if fst k1 =? fst k2
  then match snd k1, snd k2 with
       | Some a, Some b => a <? b
       | _, _ => false
       end
  else fst k1 <? fst k2.

(** The order [sorted] builds: a row goes before the first row that is
    not smaller than it, so equal keys keep their order. *)
Definition by_key (r1 r2 : Row) : bool :=
  negb (key_lt (sort_key r2) (sort_key r1)).

(** The keys of a row without serial number and of a row with a serial
    number other than 0 cannot be compared: [None < n] raises
    [TypeError]. *)
Definition key_clash (l : list Row) : bool :=
  existsb (fun r => match serial_number r with None => true | Some _ => false end) l
  && existsb (fun r => match serial_number r with
                       | Some n => negb (n =? 0)
                       | None => false
                       end) l.

(** "Apply filter" of the Custom Send tab, with an empty search box;
    [None] stands for the [TypeError] of [sorted]. *)
Definition filtered_emails (opt : filter_option) (all_pending : list Row)
  : option (list Row) :=
  match opt with
  | TestOnly => Some (filter is_test all_pending)
  | RegularOnly => Some (filter (fun e => negb (is_test e)) all_pending)
  | AllPending =>
      if key_clash all_pending then None
      else Some (order_by by_key all_pending)
  end.

Definition page_size : nat := 10.

(** [max(1, (total_filtered + page_size - 1) // page_size)] *)
Definition total_pages (total_filtered : nat) : nat :=
  Nat.max 1 ((total_filtered + page_size - 1) / page_size).

(** "Reset page if out of bounds" *)
Definition shown_page (custom_send_page total_filtered : nat) : nat :=
  if Nat.leb (total_pages total_filtered) custom_send_page
  then 0%nat else custom_send_page.

(** [filtered_emails[offset:offset + page_size]] *)
Definition emails_page (custom_send_page : nat) (filtered : list Row) : list Row :=
  let offset :=
    (shown_page custom_send_page (List.length filtered) * page_size)%nat in
  firstn page_size (skipn offset filtered).

(** The numbers of "Showing a-b of n | Test: t | Regular: r". *)
Definition showing (custom_send_page : nat) (filtered : list Row)
  : nat * nat * nat * nat * nat :=
  let total_filtered := List.length filtered in
  let offset := (shown_page custom_send_page total_filtered * page_size)%nat in
  let test_count := List.length (filter is_test filtered) in
  ((offset + 1)%nat,
   Nat.min (offset + List.length (emails_page custom_send_page filtered)) total_filtered,
   total_filtered, test_count, (total_filtered - test_count)%nat).

End Dashboard.

(* ================================================================= *)
(** ** Further predicates *)

Module Views.
Import Store.

(** The [sent] flag and the status say the same, and the status is one
    of the three the program writes. *)
Definition flag_agrees (r : Row) : Prop :=
  (status r = "pending" \/ status r = "sent" \/ status r = "failed") /\
  (sent r = true <-> status r = "sent").

(** The run mode after a command, as a function of the run mode before. *)
Definition next_mode (c : CampaignWorker.command) (m : CampaignWorker.run_mode)
  : CampaignWorker.run_mode :=
  match c, m with
  | CampaignWorker.Start, CampaignWorker.Stopped => CampaignWorker.Running
  | CampaignWorker.Start, m => m
  | CampaignWorker.Pause, CampaignWorker.Running => CampaignWorker.Paused
  | CampaignWorker.Pause, m => m
  | CampaignWorker.Resume, CampaignWorker.Paused => CampaignWorker.Running
  | CampaignWorker.Resume, m => m
  | CampaignWorker.Stop, _ => CampaignWorker.Stopped
  end.

(** The command behind a sidebar button that is enabled. *)
Definition command_of (b : Dashboard.button) : option CampaignWorker.command :=
  match b with
  | Dashboard.StartCampaign true => None
  | Dashboard.StartCampaign false => Some CampaignWorker.Start
  | Dashboard.ResumeButton => Some CampaignWorker.Resume
  | Dashboard.PauseButton => Some CampaignWorker.Pause
  | Dashboard.StopCampaign => Some CampaignWorker.Stop
  end.

(** A row carries what contact [c] submitted, as a fresh pending job. *)
Definition settled (c : Contact) (r : Row) : Prop :=
  email r = c_email c /\ name r = c_name c /\ title r = c_title c /\
  company r = c_company c /\ status r = "pending" /\ sent r = false /\
  error_message r = None /\ sent_at r = None.

(** The store answers every round trip of the thread. *)
Definition healthy (s : Runtime.World) : Prop := Runtime.faults s = [].

(** What a statement on a healthy store leaves as it was, the operator's
    script included. *)
Definition healthy_frame (s s' : Runtime.World) : Prop :=
  Runtime.faults s' = [] /\
  Runtime.ctl s' = Runtime.ctl s /\
  Runtime.worker s' = Runtime.worker s /\
  Runtime.clock s' = Runtime.clock s /\
  Runtime.smtp s' = Runtime.smtp s /\
  Runtime.entropy s' = Runtime.entropy s /\
  Runtime.resume_storage s' = Runtime.resume_storage s /\
  Runtime.resume_file s' = Runtime.resume_file s /\
  Props.sends (Runtime.trace s') = Props.sends (Runtime.trace s).

(** No string occurs twice in the list. *)
Fixpoint distinct_strings (l : list string) : bool :=
  match l with
  | [] => true
  | x :: t => negb (existsb (String.eqb x) t) && distinct_strings t
  end.

(** What [send_email] does to the world besides the table when the
    store is healthy: the message to [to] is handed to the mail server,
    whose script advances, and the operator's commands scripted for that
    moment are run. *)
Definition send_frame (to : string) (s s' : Runtime.World) : Prop :=
  Runtime.faults s' = [] /\
  Runtime.ctl s' = tl (Runtime.ctl s) /\
  Runtime.worker s'
  = CampaignWorker.exec_all (hd [] (Runtime.ctl s)) (Runtime.worker s) /\
  Runtime.clock s' = Runtime.clock s /\
  Runtime.smtp s' = tl (Runtime.smtp s) /\
  Runtime.entropy s' = Runtime.entropy s /\
  Props.sends (Runtime.trace s') = Props.sends (Runtime.trace s) ++ [to].

(** A row with its [updated_at] blanked, to compare tables up to the
    times at which the statements ran. *)
Definition without_updated_at (r : Store.Row) : Store.Row :=
  {| Store.id := Store.id r; Store.serial_number := Store.serial_number r;
     Store.name := Store.name r; Store.email := Store.email r;
     Store.title := Store.title r; Store.company := Store.company r;
     Store.status := Store.status r; Store.sent := Store.sent r;
     Store.error_message := Store.error_message r;
     Store.sent_at := Store.sent_at r;
     Store.created_at := Store.created_at r; Store.updated_at := 0 |}.

(** One click on a "Retry" button, seen on one row: [reset_email_status]
    for the id [fst c] at the time [snd c]. *)
Definition retry_click (x : Store.Row) (c : Z * Z) : Store.Row :=
  if Store.id x =? fst c then Store.set_pending (snd c) x else x.

End Views.

(** Symbolic execution of the state transformers on a world given by
    its fields: the setters and projections are computed by value, the
    statements on the table are left as they are. *)
Ltac run_world :=
  cbv beta iota zeta
      delta [Runtime.with_db Runtime.with_worker Runtime.with_clock
             Runtime.with_conn Runtime.with_faults Runtime.with_smtp
             Runtime.with_entropy Runtime.with_ctl Runtime.emit
             Runtime.db Runtime.worker Runtime.clock Runtime.conn
             Runtime.faults Runtime.smtp Runtime.entropy Runtime.ctl
             Runtime.resume_storage Runtime.resume_file Runtime.trace
             Runtime.to_email Runtime.str fst snd].

(* ================================================================= *)
(** * Properties of the job store *)

Unset Implicit Arguments.

Section OrderBy.
Import Store.

Variable le : Row -> Row -> bool.

Lemma insert_by_perm (x : Row) (l : list Row) :
  Permutation (insert_by le x l) (x :: l).
Proof.
  induction l as [|y t IH]; simpl; [reflexivity|].
  destruct (le x y); [reflexivity|].
  rewrite IH. apply perm_swap.
Qed.

Lemma order_by_perm (l : list Row) : Permutation (order_by le l) l.
Proof.
  induction l as [|x t IH]; simpl; [reflexivity|].
  unfold order_by in *. simpl. rewrite insert_by_perm. now constructor.
Qed.

Lemma order_by_In (l : list Row) (r : Row) : In r (order_by le l) <-> In r l.
Proof.
  split; apply Permutation_in; [|symmetry]; apply order_by_perm.
Qed.

Lemma order_by_nil_iff (l : list Row) : order_by le l = [] <-> l = [].
Proof.
  split; intros H.
  - apply Permutation_nil. rewrite <- H. apply order_by_perm.
  - subst. reflexivity.
Qed.

Lemma order_by_singleton (r : Row) : order_by le [r] = [r].
Proof. reflexivity. Qed.

Hypothesis le_total : forall a b, le a b = true \/ le b a = true.

Let R (a b : Row) : Prop := le a b = true.

Lemma insert_by_hdrel (a x : Row) (l : list Row) :
  R a x -> HdRel R a l -> HdRel R a (insert_by le x l).
Proof.
  intros Hax Hl. destruct l as [|y t]; simpl.
  - now constructor.
  - destruct (le x y); constructor; auto. now inversion Hl.
Qed.

Lemma insert_by_sorted (x : Row) (l : list Row) :
  Sorted R l -> Sorted R (insert_by le x l).
Proof.
  induction 1 as [|y t Hs IH Hhd]; simpl.
  - repeat constructor.
  - destruct (le x y) eqn:E.
    + constructor; [now constructor|]. now constructor.
    + constructor; [exact IH|].
      apply insert_by_hdrel; [|exact Hhd].
      destruct (le_total x y) as [H|H]; [congruence|exact H].
Qed.

Lemma order_by_sorted (l : list Row) : Sorted R (order_by le l).
Proof.
  induction l as [|x t IH]; simpl; [constructor|].
  now apply insert_by_sorted.
Qed.

End OrderBy.

Section StoreFacts.
Import Store Props.

Lemma by_serial_total (a b : Row) : by_serial a b = true \/ by_serial b a = true.
Proof.
  unfold by_serial, serial_le.
  destruct (serial_number a), (serial_number b); auto.
  rewrite !Z.leb_le. lia.
Qed.

Lemma by_serial_id_total (a b : Row) :
  by_serial_id a b = true \/ by_serial_id b a = true.
Proof.
  unfold by_serial_id, serial_eq, serial_le.
  destruct (serial_number a) as [x|], (serial_number b) as [y|]; auto.
  - rewrite (Z.eqb_sym y x).
    destruct (x =? y) eqn:E; rewrite !Z.leb_le; lia.
  - rewrite !Z.leb_le. lia.
Qed.

Lemma Sorted_firstn (R : Row -> Row -> Prop) (n : nat) (l : list Row) :
  Sorted R l -> Sorted R (firstn n l).
Proof.
  intros H. revert n. induction H as [|x t Hs IH Hhd]; intros [|n]; simpl;
    try constructor; auto.
  destruct n; destruct t; simpl; constructor. now inversion Hhd.
Qed.

Lemma Sorted_skipn (R : Row -> Row -> Prop) (n : nat) (l : list Row) :
  Sorted R l -> Sorted R (skipn n l).
Proof.
  revert l. induction n as [|n IH]; intros l H; simpl; [exact H|].
  destruct l; [constructor|]. apply IH. now inversion H.
Qed.

(** The worker's query delivers its rows by ascending [serial_number],
    NULL last. *)
Lemma get_pending_emails_sorted (limit : nat) (d : Db) :
  Sorted (fun a b => by_serial a b = true) (get_pending_emails limit d).
Proof.
  apply Sorted_firstn, order_by_sorted, by_serial_total.
Qed.

(** The paginated query delivers them by ascending
    [(serial_number, id)]. *)
Lemma get_pending_emails_paginated_sorted (offset limit : nat) (d : Db) :
  Sorted (fun a b => by_serial_id a b = true)
         (get_pending_emails_paginated offset limit d).
Proof.
  apply Sorted_firstn, Sorted_skipn, order_by_sorted, by_serial_id_total.
Qed.

Lemma In_firstn (n : nat) (l : list Row) (r : Row) :
  In r (firstn n l) -> In r l.
Proof.
  revert l. induction n as [|n IH]; intros [|x t]; simpl; try tauto.
  intros [H|H]; auto.
Qed.

Lemma get_pending_emails_In (limit : nat) (d : Db) (r : Row) :
  In r (get_pending_emails limit d) -> In r (rows d) /\ is_pending r = true.
Proof.
  unfold get_pending_emails. intros H.
  apply In_firstn, order_by_In in H. now apply filter_In in H.
Qed.

Lemma get_pending_emails_nil_iff (d : Db) :
  get_pending_emails 1 d = [] <-> filter is_pending (rows d) = [].
Proof.
  unfold get_pending_emails.
  rewrite <- (order_by_nil_iff by_serial (filter is_pending (rows d))).
  destruct (order_by by_serial (filter is_pending (rows d))); simpl;
    split; congruence.
Qed.

End StoreFacts.

Section StatusInvariant.
Import Store Props Samples.

Lemma status_invariantb_spec (r : Row) :
  status_invariantb r = true <-> status_invariant r.
Proof.
  unfold status_invariantb, status_invariant, is_some.
  destruct (String.eqb_spec (status r) "sent") as [E1|E1];
    destruct (String.eqb_spec (status r) "failed") as [E2|E2];
    destruct (String.eqb_spec (status r) "pending") as [E3|E3];
    destruct (sent_at r), (error_message r); simpl;
    split; intros H; try discriminate; try reflexivity;
    try (exfalso; congruence);
    try (repeat split; intros; try discriminate; try congruence; tauto);
    try (destruct H as (H1 & H2 & H3);
         first [ destruct (H1 E1) as [? ?] | destruct (H2 E2) as [? ?]
               | destruct (H3 E3) as [? ?] ]; congruence).
Qed.

Lemma update_where_Forall (P : Row -> Prop) cond set (d : Db) :
  Forall P (rows d) ->
  (forall r, In r (rows d) -> cond r = true -> P r -> P (set r)) ->
  Forall P (rows (update_where cond set d)).
Proof.
  intros HP Hset. unfold update_where; simpl.
  apply Forall_forall. intros x Hx. apply in_map_iff in Hx as (r & <- & Hr).
  rewrite Forall_forall in HP.
  destruct (cond r) eqn:E; auto.
Qed.

Lemma set_pending_invariant (now : Z) (r : Row) :
  sent_at r = None -> status_invariant (set_pending now r).
Proof.
  intros H. unfold status_invariant; simpl. repeat split; try discriminate; auto.
Qed.

Lemma upsert_invariant (c : Contact) (now : Z) (d : Db) :
  Forall status_invariant (rows d) ->
  Forall status_invariant (rows (fst (upsert c now d))).
Proof.
  intros H. unfold upsert.
  destruct (existsb (has_email (c_email c)) (rows d)); simpl.
  - apply Forall_forall. intros x Hx. apply in_map_iff in Hx as (r & <- & Hr).
    rewrite Forall_forall in H.
    destruct (has_email (c_email c) r); auto.
    unfold status_invariant; simpl. repeat split; discriminate.
  - destruct (existsb (fun r => id r =? id_seq d) (rows d)); simpl; auto.
    apply Forall_app; split; auto. constructor; [|constructor].
    unfold status_invariant; simpl. repeat split; discriminate.
Qed.

Lemma apply_op_invariant (now : Z) (o : op) (d : Db) :
  Forall status_invariant (rows d) -> in_flow d o ->
  Forall status_invariant (rows (apply_op now o d)).
Proof.
  intros H Hf. destruct o as [c|i st err| i |]; simpl in *.
  - now apply upsert_invariant.
  - destruct Hf as [Hp Hst]. unfold update_email_status.
    destruct Hst as [->|[-> Herr]]; simpl;
      apply update_where_Forall; auto; intros r Hr Hid Hinv;
      apply Z.eqb_eq in Hid; specialize (Hp r Hr Hid);
      destruct Hinv as (_ & _ & Hpend); destruct (Hpend Hp) as [Hs He];
      unfold status_invariant; simpl;
      repeat split; try discriminate; auto.
  - apply update_where_Forall; auto. intros r Hr Hid Hinv.
    apply Z.eqb_eq in Hid. specialize (Hf r Hr Hid).
    apply set_pending_invariant. destruct Hinv as (_ & Hfail & _).
    now destruct (Hfail Hf).
  - apply update_where_Forall; auto. intros r Hr Hst Hinv.
    apply String.eqb_eq in Hst.
    apply set_pending_invariant. destruct Hinv as (_ & Hfail & _).
    now destruct (Hfail Hst).
Qed.

(** C3, as amended: from a table where the status invariant holds,
    every sequence of upserts, of outcomes recorded for pending rows
    ([sent], or [failed] with a message), of retries of failed rows and
    of [reset_all_failed] leaves a table where every row satisfies the
    status invariant: [sent] rows have a send time and no error, [failed]
    rows an error and no send time, [pending] rows neither. *)
Theorem status_invariant_along_flows (l : list (Z * op)) (d : Db) :
  Forall status_invariant (rows d) ->
  flows l d ->
  Forall status_invariant (rows (run_ops l d)).
Proof.
  revert d. induction l as [|[now o] t IH]; intros d Hinv Hfl; simpl in *.
  - exact Hinv.
  - destruct Hfl as [Ho Ht]. apply IH; [|exact Ht].
    now apply apply_op_invariant.
Qed.

Lemma status_invariant_along_flows_witness :
  Forall status_invariant (rows (run_ops flow_example empty)).
Proof.
  apply (status_invariant_along_flows flow_example empty).
  - constructor.
  - simpl. repeat split; auto;
      try (intros r [<-|[]] _; reflexivity);
      try (right; split; [reflexivity|discriminate]).
Defined.

(** C3, counterexample: an outcome [failed] followed by an outcome
    [sent] for the same row leaves a [sent] row that still carries the
    error message. *)
Lemma status_invariant_broken_by_second_outcome :
  map (fun r => (status r, sent_at r, error_message r))
      (rows (run_ops unguarded_example empty))
  = [("sent", Some 30, Some "SMTP Error: boom")] /\
  ~ Forall status_invariant (rows (run_ops unguarded_example empty)).
Proof.
  split; [reflexivity|].
  intros H. apply Forall_inv in H. destruct H as (Hsent & _).
  destruct (Hsent eq_refl) as [_ He]. discriminate He.
Qed.

Lemma reset_email_status_sent_at (i now : Z) (d : Db) :
  map sent_at (rows (reset_email_status i now d)) = map sent_at (rows d).
Proof.
  unfold reset_email_status, update_where; simpl. rewrite map_map.
  apply map_ext. intros r. now destruct (id r =? i).
Qed.

Lemma reset_all_failed_sent_at (now : Z) (d : Db) :
  map sent_at (rows (reset_all_failed now d)) = map sent_at (rows d).
Proof.
  unfold reset_all_failed, update_where; simpl. rewrite map_map.
  apply map_ext. intros r. now destruct (status r =? "failed")%string.
Qed.

(** C4, at the failing input: a row recorded [sent] at time 20 and then
    [failed] is a failed row with a send time; [reset_email_status] and
    [reset_all_failed] make it [pending] with no error message, and the
    send time is still there. *)
Theorem reset_keeps_sent_at :
  let d := run_ops retry_example empty in
  map (fun r => (status r, sent_at r, error_message r)) (rows d)
  = [("failed", Some 20, Some "SMTP Error: boom")] /\
  map (fun r => (status r, sent_at r, error_message r))
      (rows (reset_email_status 1 40 d))
  = [("pending", Some 20, None)] /\
  map (fun r => (status r, sent_at r, error_message r))
      (rows (reset_all_failed 40 d))
  = [("pending", Some 20, None)].
Proof. repeat split. Qed.

End StatusInvariant.

Section Upsert.
Import Store Props Samples.

Lemma existsb_false (f : Row -> bool) (l : list Row) :
  existsb f l = false -> forall r, In r l -> f r = false.
Proof.
  induction l as [|x t IH]; simpl; intros H r Hr; [contradiction|].
  apply orb_false_iff in H as [Hx Ht]. destruct Hr as [<-|Hr]; auto.
Qed.

Lemma upsert_conflict (c : Contact) (now : Z) (d : Db) :
  existsb (has_email (c_email c)) (rows d) = true ->
  upsert c now d =
  ({| rows := map (on_conflict c) (rows d); id_seq := id_seq d + 1 |}, None).
Proof. intros H. unfold upsert. now rewrite H. Qed.

Lemma upsert_insert (c : Contact) (now : Z) (d : Db) :
  existsb (has_email (c_email c)) (rows d) = false ->
  existsb (fun r => id r =? id_seq d) (rows d) = false ->
  upsert c now d =
  ({| rows := rows d ++ [new_row (id_seq d) c now]; id_seq := id_seq d + 1 |}, None).
Proof. intros H1 H2. unfold upsert. now rewrite H1, H2. Qed.

Lemma fresh_id_unused (d : Db) :
  Forall (fun r => id r < id_seq d) (rows d) ->
  existsb (fun r => id r =? id_seq d) (rows d) = false.
Proof.
  induction 1 as [|x t Hx _ IH]; simpl; [reflexivity|].
  rewrite IH, orb_false_r. apply Z.eqb_neq. lia.
Qed.

Lemma on_conflict_email (c : Contact) (r : Row) : email (on_conflict c r) = email r.
Proof. unfold on_conflict. now destruct (has_email (c_email c) r). Qed.

Lemma on_conflict_id (c : Contact) (r : Row) : id (on_conflict c r) = id r.
Proof. unfold on_conflict. now destruct (has_email (c_email c) r). Qed.

Lemma on_conflict_idem (c : Contact) (r : Row) :
  on_conflict c (on_conflict c r) = on_conflict c r.
Proof.
  unfold on_conflict. destruct (has_email (c_email c) r) eqn:E.
  - unfold has_email in *. simpl. now rewrite E.
  - now rewrite E.
Qed.

Lemma existsb_has_email (e : string) (l : list Row) :
  existsb (has_email e) l = true <-> In e (map email l).
Proof.
  rewrite existsb_exists, in_map_iff. unfold has_email.
  split; intros (r & H1 & H2).
  - exists r. split; auto. now apply String.eqb_eq.
  - exists r. split; auto. now apply String.eqb_eq.
Qed.

Lemma filter_has_email_none (e : string) (l : list Row) :
  ~ In e (map email l) -> filter (has_email e) l = [].
Proof.
  induction l as [|x t IH]; simpl; intros H; [reflexivity|].
  destruct (has_email e x) eqn:E.
  - exfalso. apply H. left. now apply String.eqb_eq.
  - apply IH. tauto.
Qed.

Lemma unique_email_filter (e : string) (l : list Row) :
  NoDup (map email l) -> In e (map email l) ->
  exists r, filter (has_email e) l = [r].
Proof.
  induction l as [|x t IH]; simpl; intros Hnd Hin; [contradiction|].
  inversion Hnd as [|? ? Hx Ht]; subst.
  destruct (has_email e x) eqn:E.
  - exists x. f_equal. apply filter_has_email_none.
    apply String.eqb_eq in E. now rewrite <- E.
  - apply IH; auto. destruct Hin as [Hin|Hin]; auto.
    unfold has_email in E. apply String.eqb_neq in E. congruence.
Qed.

Lemma filter_map_on_conflict (c : Contact) (e : string) (l : list Row) :
  filter (has_email e) (map (on_conflict c) l)
  = map (on_conflict c) (filter (has_email e) l).
Proof.
  induction l as [|x t IH]; simpl; [reflexivity|].
  unfold has_email at 1. rewrite on_conflict_email. fold (has_email e x).
  destruct (has_email e x); simpl; now rewrite IH.
Qed.

(** The schema constraints survive an upsert, the statement does not
    raise, and afterwards the email is in the table. *)
Lemma upsert_schema_ok (c : Contact) (now : Z) (d : Db) :
  schema_ok d ->
  schema_ok (fst (upsert c now d)) /\
  snd (upsert c now d) = None /\
  In (c_email c) (map email (rows (fst (upsert c now d)))).
Proof.
  intros (Hid & Hem & Hlt).
  destruct (existsb (has_email (c_email c)) (rows d)) eqn:E.
  - rewrite (upsert_conflict c now d E); simpl.
    assert (Hm : map email (map (on_conflict c) (rows d)) = map email (rows d)).
    { rewrite map_map. apply map_ext, on_conflict_email. }
    assert (Hi : map id (map (on_conflict c) (rows d)) = map id (rows d)).
    { rewrite map_map. apply map_ext, on_conflict_id. }
    repeat split; unfold schema_ok; simpl.
    + now rewrite Hi.
    + now rewrite Hm.
    + apply Forall_forall. intros x Hx.
      apply in_map_iff in Hx as (r & <- & Hr).
      rewrite on_conflict_id. rewrite Forall_forall in Hlt.
      specialize (Hlt r Hr). simpl in Hlt. lia.
    + rewrite Hm. now apply existsb_has_email.
  - rewrite (upsert_insert c now d E (fresh_id_unused d Hlt)); simpl.
    repeat split; unfold schema_ok; simpl.
    + rewrite map_app; simpl. apply NoDup_app_remove_l with (l := []).
      simpl. apply Permutation_NoDup with (l := id_seq d :: map id (rows d)).
      * apply Permutation_cons_append.
      * constructor; auto. intros Hin. apply in_map_iff in Hin as (r & Hr & Hin).
        rewrite Forall_forall in Hlt. specialize (Hlt r Hin). simpl in Hlt. lia.
    + rewrite map_app; simpl.
      apply Permutation_NoDup with (l := c_email c :: map email (rows d)).
      * apply Permutation_cons_append.
      * constructor; auto. intros Hin. apply existsb_has_email in Hin. congruence.
    + apply Forall_app; split.
      * eapply Forall_impl; [|exact Hlt]. simpl. intros; lia.
      * constructor; [simpl; lia|constructor].
    + rewrite map_app. apply in_or_app. right. now left.
Qed.

(** C5: on a table that meets its schema, two upserts with the same
    email both succeed and leave exactly one row for that email; the row
    is pending, not sent, without error and send time, and carries the
    name, title and company submitted last; the second upsert adds no
    row, and with an identical contact it changes no row at all. *)
Theorem upsert_twice_one_row (d : Db) (c1 c2 : Contact) (t1 t2 : Z) :
  schema_ok d ->
  c_email c1 = c_email c2 ->
  let d1 := fst (upsert c1 t1 d) in
  let d2 := fst (upsert c2 t2 d1) in
  snd (upsert c1 t1 d) = None /\
  snd (upsert c2 t2 d1) = None /\
  (exists r,
      filter (has_email (c_email c2)) (rows d2) = [r] /\
      status r = "pending" /\ sent r = false /\
      error_message r = None /\ sent_at r = None /\
      name r = c_name c2 /\ title r = c_title c2 /\ company r = c_company c2) /\
  List.length (rows d2) = List.length (rows d1) /\
  (c1 = c2 -> rows d2 = rows d1).
Proof.
  intros Hok Heq d1 d2.
  destruct (upsert_schema_ok c1 t1 d Hok) as (Hok1 & Hnone1 & Hin1).
  fold d1 in Hok1, Hin1. rewrite Heq in Hin1.
  assert (E1 : existsb (has_email (c_email c2)) (rows d1) = true)
    by now apply existsb_has_email.
  assert (Hd2 : upsert c2 t2 d1 =
                ({| rows := map (on_conflict c2) (rows d1);
                    id_seq := id_seq d1 + 1 |}, None))
    by now apply upsert_conflict.
  destruct Hok1 as (_ & Hem1 & _).
  destruct (unique_email_filter _ _ Hem1 Hin1) as (r0 & Hr0).
  assert (Hmatch : has_email (c_email c2) r0 = true).
  { assert (Hi : In r0 (filter (has_email (c_email c2)) (rows d1)))
      by (rewrite Hr0; now left).
    now apply filter_In in Hi. }
  split; [exact Hnone1|]. split; [now rewrite Hd2|].
  subst d2. rewrite Hd2; simpl. split; [|split].
  - exists (set_conflict c2 r0).
    rewrite filter_map_on_conflict, Hr0; simpl.
    unfold on_conflict. rewrite Hmatch. repeat split.
  - now rewrite length_map.
  - intros <-. subst d1.
    destruct (existsb (has_email (c_email c1)) (rows d)) eqn:E.
    + rewrite (upsert_conflict c1 t1 d E); simpl.
      rewrite map_map. apply map_ext, on_conflict_idem.
    + destruct Hok as (_ & _ & Hlt).
      rewrite (upsert_insert c1 t1 d E (fresh_id_unused d Hlt)); simpl.
      rewrite map_app; simpl. f_equal.
      * rewrite <- (map_id (rows d)) at 2. apply map_ext_in.
        intros r Hr. unfold on_conflict.
        now rewrite (existsb_false _ _ E r Hr).
      * unfold on_conflict, has_email; simpl. now rewrite String.eqb_refl.
Qed.

Lemma schema_ok_empty : schema_ok empty.
Proof. repeat split; constructor. Qed.

Lemma upsert_twice_one_row_witness :
  let d1 := fst (upsert contact_a 10 empty) in
  let d2 := fst (upsert contact_a_renamed 20 d1) in
  snd (upsert contact_a 10 empty) = None /\
  snd (upsert contact_a_renamed 20 d1) = None /\
  (exists r,
      filter (has_email "asha@example.org") (rows d2) = [r] /\
      status r = "pending" /\ sent r = false /\
      error_message r = None /\ sent_at r = None /\
      name r = "Asha R. Rao" /\ title r = None /\ company r = Some "Initrode") /\
  List.length (rows d2) = List.length (rows d1) /\
  (contact_a = contact_a_renamed -> rows d2 = rows d1).
Proof.
  exact (upsert_twice_one_row empty contact_a contact_a_renamed 10 20
           schema_ok_empty eq_refl).
Defined.

(** Running [add_test_contacts] a second time changes no row. *)
Example add_test_contacts_twice :
  rows (add_test_contacts 20 (add_test_contacts 10 empty))
  = rows (add_test_contacts 10 empty) /\
  List.length (rows (add_test_contacts 10 empty)) = 10%nat.
Proof. split; vm_compute; reflexivity. Qed.

End Upsert.

Section Statistics.
Import Store Props Samples.
Local Open Scope nat_scope.

Lemma get_stats_cons (r : Row) (d : Db) :
  get_stats {| rows := r :: rows d; id_seq := id_seq d |} =
  {| total := S (total (get_stats d));
     n_sent := (if sent r then 1 else 0) + n_sent (get_stats d);
     n_pending := (if (status r =? "pending")%string && negb (sent r)
                   then 1 else 0) + n_pending (get_stats d);
     n_failed := (if (status r =? "failed")%string then 1 else 0)
                 + n_failed (get_stats d) |}.
Proof.
  unfold get_stats, count, is_pending; simpl.
  destruct (sent r), (status r =? "pending")%string,
    (status r =? "failed")%string; reflexivity.
Qed.

(** C10: each row adds to [sent] when its [sent] flag is set whatever
    its status, to [pending] when its status is pending and the flag is
    clear, to [failed] when its status is failed; a row recorded [sent]
    and then [failed] is counted both as sent and as failed, and for that
    table the total differs from sent + pending + failed. *)
Theorem get_stats_not_a_partition :
  (forall r d,
      get_stats {| rows := r :: rows d; id_seq := id_seq d |} =
      {| total := S (total (get_stats d));
         n_sent := (if sent r then 1 else 0) + n_sent (get_stats d);
         n_pending := (if (status r =? "pending")%string && negb (sent r)
                       then 1 else 0) + n_pending (get_stats d);
         n_failed := (if (status r =? "failed")%string then 1 else 0)
                     + n_failed (get_stats d) |}) /\
  (let d := run_ops retry_example empty in
   let st := get_stats d in
   st = {| total := 1; n_sent := 1; n_pending := 0; n_failed := 1 |} /\
   total st <> n_sent st + n_pending st + n_failed st /\
   exists r, In r (rows d) /\ status r = "failed" /\ sent r = true /\
             counted_sent r = true /\ counted_failed r = true).
Proof.
  split; [exact get_stats_cons|].
  simpl. split; [reflexivity|]. split; [discriminate|].
  eexists. split; [left; reflexivity|]. repeat split.
Qed.

End Statistics.

(* ================================================================= *)
(** * Properties of the worker controls *)

Section Controls.
Import CampaignWorker.

(** C9: the state of the worker is its run mode together with the
    current job, as the status badge and the "Currently Sending" box
    report them.  [pause] changes the run mode only when the worker is
    running, and then to [Paused], with the current job kept; in every
    other state it leaves the state as it was: on a paused worker it
    changes no field at all, and on a stopped worker only the flag
    [is_paused] is set, which nothing reads while the worker is stopped:
    whatever control comes next gives the same worker as without the
    pause, and the loop of a stopped worker ends at its first test with
    or without it. *)
Theorem pause_only_from_running (w : t) :
  (mode w = Running ->
   mode (pause w) = Paused /\ current_email (pause w) = current_email w) /\
  (mode (pause w) <> mode w <-> mode w = Running) /\
  (mode w <> Running -> status (pause w) = status w) /\
  (mode w = Paused -> pause w = w) /\
  (mode w = Stopped ->
   status (pause w) = (Stopped, current_email w) /\
   (forall c, exec c (pause w) = exec c w) /\
   (forall cfg generate_email fuel s,
       Runtime.worker s = w ->
       DispatchLoop.run_loop cfg generate_email (S fuel) s
       = (DispatchLoop.Finished, s) /\
       DispatchLoop.run_loop cfg generate_email (S fuel)
         (Runtime.with_worker (pause w) s)
       = (DispatchLoop.Finished, Runtime.with_worker (pause w) s))) /\
  (is_paused (pause w) = true /\
   is_running (pause w) = is_running w /\
   current_email (pause w) = current_email w /\
   thread (pause w) = thread w).
Proof.
  destruct w as [r p ce th].
  unfold status, mode, pause; cbn [is_running is_paused current_email thread].
  split; [|split; [|split; [|split; [|split]]]].
  - destruct r, p; intros H; try discriminate H; now split.
  - destruct r, p; split; intros H; try reflexivity; try discriminate H;
      try discriminate; try (exfalso; apply H; reflexivity).
  - destruct r, p; intros H; try reflexivity. exfalso. now apply H.
  - destruct r, p; intros H; try discriminate H. reflexivity.
  - destruct r; [destruct p; intros H; discriminate H|]. intros _.
    split; [reflexivity|]. split.
    + intros []; reflexivity.
    + intros cfg generate_email fuel s Hw.
      cbn [DispatchLoop.run_loop]. rewrite Hw.
      cbn [is_running Runtime.worker Runtime.with_worker]. now split.
  - repeat split.
Qed.

End Controls.

(* ================================================================= *)
(** * Properties of the runtime and of the statements *)

Section StatementFacts.
Import Runtime Props.
Local Open Scope dispatch_scope.

Lemma calm_frame_refl (s : World) : calm s -> calm_frame s s.
Proof. intros H. unfold calm_frame. tauto. Qed.

Lemma calm_frame_trans (s1 s2 s3 : World) :
  calm_frame s1 s2 -> calm_frame s2 s3 -> calm_frame s1 s3.
Proof.
  unfold calm_frame. intros (_ & A1 & A2 & A3 & A4 & A5 & A6)
                            (C & B1 & B2 & B3 & B4 & B5 & B6).
  repeat split; try apply C; congruence.
Qed.

(** A statement on a healthy store returns what its meaning on the
    table says and touches nothing but the table and the connection. *)
Lemma statement_calm {A} (q : Z -> Store.Db -> A * Store.Db) (s : World) :
  calm s ->
  exists s',
    (Database.get_connection ;; Database.cursor_execute q) s
    = (Ok (fst (q (clock s) (db s))), s') /\
    db s' = snd (q (clock s) (db s)) /\
    conn s' = Open /\
    calm_frame s s'.
Proof.
  intros [Hf Hc]. destruct s as [d w c cn f sm en ct rs rf tr].
  simpl in *. subst f ct.
  unfold bind, Database.get_connection, Database.cursor_execute,
    Database.next_fault; simpl.
  destruct cn; simpl; destruct (q c d) as [a d']; simpl;
    eexists; repeat split.
Qed.

Lemma get_pending_emails_calm (n : nat) (s : World) :
  calm s ->
  exists s',
    Database.get_pending_emails n s = (Ok (Store.get_pending_emails n (db s)), s') /\
    db s' = db s /\ conn s' = Open /\ calm_frame s s'.
Proof. intros H. exact (statement_calm _ s H). Qed.

Lemma get_emails_by_status_calm (st : string) (s : World) :
  calm s ->
  exists s',
    Database.get_emails_by_status st s
    = (Ok (Store.get_emails_by_status st (db s)), s') /\
    db s' = db s /\ conn s' = Open /\ calm_frame s s'.
Proof. intros H. exact (statement_calm _ s H). Qed.

Lemma update_email_status_calm (i : Z) (st : string) (err : option string)
      (s : World) :
  calm s ->
  exists s',
    Database.update_email_status i st err s = (Ok tt, s') /\
    db s' = Store.update_email_status i st err (clock s) (db s) /\
    conn s' = Open /\ calm_frame s s'.
Proof. intros H. exact (statement_calm _ s H). Qed.

Lemma get_active_resume_calm (s : World) :
  calm s ->
  exists s',
    Database.get_active_resume s = (Ok (resume_storage s), s') /\
    db s' = db s /\ calm_frame s s'.
Proof.
  intros [Hf Hc]. destruct s as [d w c cn f sm en ct rs rf tr].
  simpl in *. subst f ct.
  unfold Database.get_active_resume, bind, Database.get_connection,
    Database.cursor_execute, Database.next_fault; simpl.
  destruct cn; simpl; eexists; repeat split.
Qed.

Lemma suspend_calm (s : World) : ctl s = [] -> suspend s = s.
Proof. intros H. unfold suspend. now rewrite H. Qed.

(** [send_email] in front of a healthy store: the scripted answer of
    the mail server decides. *)
Lemma send_email_calm (to subj bdy : string) (s : World) :
  calm s ->
  exists s',
    EmailSender.send_email to subj bdy s =
    (match smtp s with
     | Some reason :: _ =>
         Raise (GenericException ("SMTP Error: " ++ reason)%string)
     | _ => Ok true
     end, s') /\
    db s' = db s /\ calm s' /\ worker s' = worker s /\ clock s' = clock s /\
    entropy s' = entropy s /\ smtp s' = tl (smtp s).
Proof.
  intros [Hf Hc]. destruct s as [d w c cn f sm en ct rs rf tr].
  simpl in *. subst f ct.
  unfold EmailSender.send_email, EmailSender.get_resume_attachment,
    Database.get_active_resume, bind, try_except, ret, raise,
    Database.get_connection, Database.cursor_execute, Database.next_fault,
    smtp_send, suspend; simpl.
  destruct cn, rs, sm as [|[reason|] rest]; simpl;
    (eexists; split; [reflexivity|]); repeat split.
Qed.

End StatementFacts.

(* ================================================================= *)
(** * Properties of the paced wait *)

Section Pacing.
Import Runtime Props.
Local Open Scope dispatch_scope.

Variable cfg : Config.t.

Lemma slept_succ (k : nat) (s : World) :
  slept (S k) s = snd (sleep 1 (slept k s)).
Proof.
  revert s. induction k as [|k IH]; intros s; [reflexivity|].
  change (slept (S (S k)) s) with (slept (S k) (snd (sleep 1 s))).
  now rewrite IH.
Qed.

Lemma suspend_clock (s : World) : clock (suspend s) = clock s.
Proof. unfold suspend. now destruct (ctl s). Qed.

Lemma suspend_trace (s : World) : trace (suspend s) = trace s.
Proof. unfold suspend. now destruct (ctl s). Qed.

Lemma suspend_db (s : World) : db (suspend s) = db s.
Proof. unfold suspend. now destruct (ctl s). Qed.

Lemma suspend_faults (s : World) : faults (suspend s) = faults s.
Proof. unfold suspend. now destruct (ctl s). Qed.

Lemma slept_clock (k : nat) (s : World) :
  clock (slept k s) = clock s + Z.of_nat k.
Proof.
  induction k as [|k IH]; [simpl; lia|].
  rewrite slept_succ. unfold sleep; simpl snd.
  rewrite suspend_clock; simpl. rewrite IH. lia.
Qed.

Lemma slept_trace (k : nat) (s : World) :
  trace (slept k s) = trace s ++ repeat (EvSleep 1) k.
Proof.
  induction k as [|k IH]; [simpl; now rewrite app_nil_r|].
  rewrite slept_succ. unfold sleep; simpl snd.
  rewrite suspend_trace. cbn [trace emit with_clock].
  rewrite IH, <- app_assoc. f_equal.
  change (repeat (EvSleep 1) (S k)) with (EvSleep 1 :: repeat (EvSleep 1) k).
  symmetry. apply repeat_cons.
Qed.

Lemma slept_db (k : nat) (s : World) : db (slept k s) = db s.
Proof.
  induction k as [|k IH]; [reflexivity|].
  rewrite slept_succ. unfold sleep; simpl snd. now rewrite suspend_db.
Qed.

Lemma sleep_calm (secs : Z) (s : World) :
  calm s ->
  calm (snd (sleep secs s)) /\
  worker (snd (sleep secs s)) = worker s /\
  db (snd (sleep secs s)) = db s.
Proof.
  intros [Hf Hc]. unfold sleep; simpl snd.
  rewrite suspend_calm by exact Hc. repeat split; assumption.
Qed.

Lemma slept_calm (k : nat) (s : World) :
  calm s -> calm (slept k s) /\ worker (slept k s) = worker s.
Proof.
  revert s. induction k as [|k IH]; intros s H; [now split|].
  change (slept (S k) s) with (slept k (snd (sleep 1 s))).
  destruct (sleep_calm 1 s H) as (Hc & Hw & _).
  destruct (IH _ Hc) as [Hc' Hw']. split; [exact Hc'|now rewrite Hw'].
Qed.

(** The wait ends at the first test that finds the worker stopped or
    paused, after exactly the sub-waits that came before it; if no test
    does, it ends after [n] sub-waits. *)
Lemma wait_loop_first_halt (n : nat) :
  forall (s : World) (k : nat),
    (k <= n)%nat ->
    (forall j, (j < k)%nat -> CampaignWorker.halted (worker (slept j s)) = false) ->
    ((k < n)%nat -> CampaignWorker.halted (worker (slept k s)) = true) ->
    DispatchLoop.wait_loop n s = (Ok tt, slept k s).
Proof.
  induction n as [|n IH]; intros s k Hk Hrun Hhalt.
  - assert (k = 0%nat) by lia. subst k. reflexivity.
  - cbn [DispatchLoop.wait_loop]. unfold bind, get_worker.
    destruct k as [|k].
    + pose proof (Hhalt ltac:(lia)) as Hh. cbn [slept] in Hh.
      rewrite Hh. reflexivity.
    + pose proof (Hrun 0%nat ltac:(lia)) as Hr. cbn [slept] in Hr.
      rewrite Hr. cbn [slept]. unfold sleep at 1 2. cbn [snd].
      apply IH.
      * lia.
      * intros j Hj. apply (Hrun (S j)). lia.
      * intros Hlt. apply Hhalt. lia.
Qed.

Lemma randint_in_range (a b : Z) (s : World) :
  a <= b ->
  exists d, randint a b s = (Ok d, with_entropy (tl (entropy s)) s) /\ a <= d <= b.
Proof.
  intros Hab. unfold randint.
  destruct (b <? a) eqn:E; [apply Z.ltb_lt in E; lia|].
  eexists; split; [reflexivity|].
  pose proof (Z.mod_pos_bound (hd 0 (entropy s)) (b - a + 1)). lia.
Qed.

Lemma randint_draw (a b e : Z) (rest : list Z) (s : World) :
  0 <= e <= b - a ->
  randint a b (with_entropy (e :: rest) s) = (Ok (a + e), with_entropy rest s).
Proof.
  intros He. unfold randint.
  destruct (b <? a) eqn:E; [apply Z.ltb_lt in E; lia|].
  simpl. rewrite Z.mod_small by lia. reflexivity.
Qed.

Lemma halted_false (w : CampaignWorker.t) :
  CampaignWorker.halted w = false <->
  CampaignWorker.is_running w = true /\ CampaignWorker.is_paused w = false.
Proof.
  unfold CampaignWorker.halted.
  destruct (CampaignWorker.is_running w), (CampaignWorker.is_paused w);
    simpl; intuition congruence.
Qed.

(** C6: with the default configuration the window is 600 to 1800; once
    the outcome of the fetched row is recorded the turn goes on with the
    paced wait; when the worker is still running and not paused there,
    the delay drawn lies in [[MIN_DELAY, MAX_DELAY]] and every value of
    the window is drawn by exactly one residue of the generator; the wait
    is a run of one-second sleeps, each preceded by a test of the flags,
    and it ends at the first test that sees a stop or a pause, so the
    request costs at most the sub-wait during which it arrived. *)
Theorem pacing_window_and_interruptible_wait (s : World) (k : nat) :
  Config.MIN_DELAY cfg <= Config.MAX_DELAY cfg ->
  CampaignWorker.halted (worker s) = false ->
  (Config.MIN_DELAY Config.default = 600 /\
   Config.MAX_DELAY Config.default = 1800) /\
  (forall generate_email s1 r rest s2 s3,
      Database.get_pending_emails 1 s1 = (Ok (r :: rest), s2) ->
      DispatchLoop.send_and_record generate_email r
        (with_worker
           (CampaignWorker.with_current (Some (Store.email r)) (worker s2)) s2)
      = (Ok tt, s3) ->
      DispatchLoop.attempt cfg generate_email s1
      = (DispatchLoop.pace cfg ;; ret DispatchLoop.Continue)
          (with_worker (CampaignWorker.with_current None (worker s3)) s3)) /\
  (forall e rest x,
      0 <= e <= Config.MAX_DELAY cfg - Config.MIN_DELAY cfg ->
      randint (Config.MIN_DELAY cfg) (Config.MAX_DELAY cfg)
              (with_entropy (e :: rest) x)
      = (Ok (Config.MIN_DELAY cfg + e), with_entropy rest x)) /\
  exists d s0,
    randint (Config.MIN_DELAY cfg) (Config.MAX_DELAY cfg) s = (Ok d, s0) /\
    Config.MIN_DELAY cfg <= d <= Config.MAX_DELAY cfg /\
    DispatchLoop.pace cfg s = DispatchLoop.wait_loop (Z.to_nat d) s0 /\
    ((k <= Z.to_nat d)%nat ->
     (forall j, (j < k)%nat ->
                CampaignWorker.halted (worker (slept j s0)) = false) ->
     ((k < Z.to_nat d)%nat ->
      CampaignWorker.halted (worker (slept k s0)) = true) ->
     DispatchLoop.pace cfg s = (Ok tt, slept k s0) /\
     clock (slept k s0) = clock s + Z.of_nat k /\
     trace (slept k s0) = trace s ++ repeat (EvSleep 1) k).
Proof.
  intros Hwin Hrun.
  split; [split; reflexivity|].
  split.
  { intros gen s1 r rest s2 s3 Hfetch Hrec.
    unfold DispatchLoop.attempt. unfold bind at 1. rewrite Hfetch.
    unfold bind at 1. unfold modify_worker at 1.
    unfold bind at 1. rewrite Hrec.
    unfold bind at 1. unfold modify_worker at 1. reflexivity. }
  split; [intros e rest x He; now apply randint_draw|].
  destruct (randint_in_range _ _ s Hwin) as (d & Ed & Hd).
  exists d, (with_entropy (tl (entropy s)) s).
  split; [exact Ed|]. split; [exact Hd|].
  assert (Hpace : DispatchLoop.pace cfg s
                  = DispatchLoop.wait_loop (Z.to_nat d)
                      (with_entropy (tl (entropy s)) s)).
  { unfold DispatchLoop.pace, bind, get_worker.
    apply halted_false in Hrun as [Hr Hp]. rewrite Hr, Hp; simpl.
    now rewrite Ed. }
  split; [exact Hpace|].
  intros Hk Hbefore Hat. rewrite Hpace.
  split; [now apply wait_loop_first_halt|].
  split; [now rewrite slept_clock|now rewrite slept_trace].
Qed.

End Pacing.

Lemma pacing_window_and_interruptible_wait_witness :
  DispatchLoop.pace Samples.short_delay (Samples.world_pause_in_wait Samples.one_job)
  = (Runtime.Ok tt,
     Props.slept 3 (Runtime.with_entropy []
                      (Samples.world_pause_in_wait Samples.one_job))) /\
  CampaignWorker.mode
    (Runtime.worker
       (snd (DispatchLoop.pace Samples.short_delay
               (Samples.world_pause_in_wait Samples.one_job))))
  = CampaignWorker.Paused /\
  Runtime.clock
    (snd (DispatchLoop.pace Samples.short_delay
            (Samples.world_pause_in_wait Samples.one_job)))
  = 1003.
Proof.
  destruct (pacing_window_and_interruptible_wait
              Samples.short_delay
              (Samples.world_pause_in_wait Samples.one_job) 3)
    as (_ & _ & _ & d & s0 & Ed & _ & _ & Hwait).
  - simpl; lia.
  - reflexivity.
  - injection Ed as <- <-.
    destruct Hwait as (Hp & _ & _).
    + simpl; lia.
    + intros j Hj.
      destruct j as [|[|[|j]]]; [reflexivity|reflexivity|reflexivity|lia].
    + intros _. reflexivity.
    + rewrite Hp. repeat split.
Defined.

(* ================================================================= *)
(** * Properties of the dispatch loop *)

Section PendingCount.
Import Store.

Lemma filter_map_le (p : Row -> bool) (g : Row -> Row) (l : list Row) :
  (forall x, p (g x) = true -> p x = true) ->
  (List.length (filter p (map g l)) <= List.length (filter p l))%nat.
Proof.
  intros Hg. induction l as [|x t IH]; simpl; [lia|].
  destruct (p (g x)) eqn:E.
  - rewrite (Hg x E). simpl. lia.
  - destruct (p x); simpl; lia.
Qed.

Lemma filter_map_lt (p : Row -> bool) (g : Row -> Row) (l : list Row) (r : Row) :
  (forall x, p (g x) = true -> p x = true) ->
  In r l -> p r = true -> p (g r) = false ->
  (List.length (filter p (map g l)) < List.length (filter p l))%nat.
Proof.
  intros Hg Hin Hr Hgr. induction l as [|x t IH]; simpl; [contradiction|].
  destruct Hin as [->|Hin].
  - rewrite Hgr, Hr. simpl.
    pose proof (filter_map_le p g t Hg). lia.
  - specialize (IH Hin). destruct (p (g x)) eqn:E.
    + rewrite (Hg x E). simpl. lia.
    + destruct (p x); simpl; lia.
Qed.

(** Recording an outcome for a pending row takes it, and no other row,
    out of the pending set. *)
Lemma update_email_status_count (r : Row) (st : string) (err : option string)
      (now : Z) (d : Db) :
  In r (rows d) -> is_pending r = true ->
  st = "sent" \/ st = "failed" ->
  (count is_pending (update_email_status (id r) st err now d)
   < count is_pending d)%nat.
Proof.
  intros Hin Hp Hst. unfold count, update_email_status.
  destruct Hst as [->| ->]; simpl; unfold update_where; simpl;
    apply filter_map_lt with (r := r); auto.
  - intros x. destruct (id x =? id r); [discriminate|auto].
  - now rewrite Z.eqb_refl.
  - intros x. destruct (id x =? id r); [discriminate|auto].
  - now rewrite Z.eqb_refl.
Qed.

Lemma get_pending_emails_head (d : Db) (r : Row) (rest : list Row) :
  get_pending_emails 1 d = r :: rest ->
  rest = [] /\ In r (rows d) /\ is_pending r = true.
Proof.
  intros H. split.
  - unfold get_pending_emails in H.
    destruct (order_by by_serial (filter is_pending (rows d))); simpl in H;
      congruence.
  - apply (get_pending_emails_In 1 d r). rewrite H. now left.
Qed.

Lemma count_zero_iff (d : Db) :
  count is_pending d = 0%nat <-> get_pending_emails 1 d = [].
Proof.
  rewrite get_pending_emails_nil_iff. unfold count.
  destruct (filter is_pending (rows d)); simpl; split; congruence.
Qed.

End PendingCount.

Section LoopFacts.
Import Runtime Props.
Local Open Scope dispatch_scope.

Variable cfg : Config.t.
Variable generate_email : string -> string -> string -> string * string.

Local Abbreviation send_and_record := (DispatchLoop.send_and_record generate_email).
Local Abbreviation attempt := (DispatchLoop.attempt cfg generate_email).
Local Abbreviation iteration := (DispatchLoop.iteration cfg generate_email).
Local Abbreviation run_loop := (DispatchLoop.run_loop cfg generate_email).
Local Abbreviation process_emails := (DispatchLoop.process_emails cfg generate_email).

(** The failure reason raised by [send_email] is what gets written. *)
Lemma send_and_record_on_failure (r : Store.Row) (s s1 : World) (e : exn) :
  EmailSender.send_email
    (Store.email r)
    (fst (generate_email (Store.name r)
            (DispatchLoop.or_default (Store.title r) "HR Manager")
            (DispatchLoop.or_default (Store.company r) "your company")))
    (snd (generate_email (Store.name r)
            (DispatchLoop.or_default (Store.title r) "HR Manager")
            (DispatchLoop.or_default (Store.company r) "your company")))
    s = (Raise e, s1) ->
  send_and_record r s
  = Database.update_email_status (Store.id r) "failed" (Some (str e)) s1.
Proof.
  intros H. unfold DispatchLoop.send_and_record, try_except, bind.
  now rewrite H.
Qed.

Lemma send_and_record_calm (r : Store.Row) (s : World) :
  calm s ->
  exists s',
    send_and_record r s = (Ok tt, s') /\
    calm s' /\ worker s' = worker s /\
    db s' = recorded r (smtp s) (clock s) (db s).
Proof.
  intros H. unfold DispatchLoop.send_and_record.
  set (content := generate_email _ _ _).
  destruct (send_email_calm (Store.email r) (fst content) (snd content) s H)
    as (s1 & E1 & Hd1 & Hc1 & Hw1 & Hk1 & _ & _).
  unfold try_except, bind. rewrite E1. unfold recorded.
  destruct (smtp s) as [|[reason|] rest]; cbv beta iota; cbn [str].
  - destruct (update_email_status_calm (Store.id r) "sent" None s1 Hc1)
      as (s2 & E2 & Hd2 & _ & Hc2 & Hw2 & _).
    rewrite E2. exists s2. repeat split; try apply Hc2; congruence.
  - destruct (update_email_status_calm (Store.id r) "failed"
                (Some ("SMTP Error: " ++ reason)%string) s1 Hc1)
      as (s2 & E2 & Hd2 & _ & Hc2 & Hw2 & _).
    rewrite E2. exists s2. repeat split; try apply Hc2; congruence.
  - destruct (update_email_status_calm (Store.id r) "sent" None s1 Hc1)
      as (s2 & E2 & Hd2 & _ & Hc2 & Hw2 & _).
    rewrite E2. exists s2. repeat split; try apply Hc2; congruence.
Qed.

(** The paced wait of an undisturbed, running worker runs to its end,
    or the draw fails because the window is empty. *)
Lemma pace_calm (s : World) :
  calm s -> CampaignWorker.halted (worker s) = false ->
  (exists s', DispatchLoop.pace cfg s = (Ok tt, s') /\
              calm s' /\ worker s' = worker s /\ db s' = db s) \/
  (exists e, DispatchLoop.pace cfg s = (Raise (ValueError e), s)).
Proof.
  intros Hc Hrun.
  destruct (Z_le_gt_dec (Config.MIN_DELAY cfg) (Config.MAX_DELAY cfg)) as [Hwin|Hwin].
  - left.
    destruct (randint_in_range _ _ s Hwin) as (d & Ed & _).
    set (s0 := with_entropy (tl (entropy s)) s) in *.
    assert (Hc0 : calm s0) by exact Hc.
    exists (slept (Z.to_nat d) s0).
    destruct (slept_calm (Z.to_nat d) s0 Hc0) as [Hc1 Hw1].
    split; [|split; [exact Hc1|split; [exact Hw1|now rewrite slept_db]]].
    unfold DispatchLoop.pace, bind, get_worker.
    apply halted_false in Hrun as Hfl. destruct Hfl as [Hr Hp].
    rewrite Hr, Hp; simpl. rewrite Ed.
    apply wait_loop_first_halt; [lia| |lia].
    intros j _. destruct (slept_calm j s0 Hc0) as [_ Hwj].
    now rewrite Hwj.
  - right. eexists.
    unfold DispatchLoop.pace, bind, get_worker, randint.
    apply halted_false in Hrun as [Hr Hp]. rewrite Hr, Hp; simpl.
    assert (E : (Config.MAX_DELAY cfg <? Config.MIN_DELAY cfg) = true)
      by (apply Z.ltb_lt; lia).
    rewrite E. reflexivity.
Qed.

(** One turn of the loop for an undisturbed, running worker: on an empty
    queue it stops the worker and breaks; otherwise it records the
    outcome of the head of the queue and goes on. *)
Lemma iteration_calm (s : World) :
  calm s -> CampaignWorker.halted (worker s) = false ->
  match Store.get_pending_emails 1 (db s) with
  | [] =>
      exists s',
        iteration s = (DispatchLoop.Break, s') /\ calm s' /\ db s' = db s /\
        worker s' = CampaignWorker.with_current None
                      (CampaignWorker.with_running false (worker s))
  | r :: _ =>
      exists s',
        iteration s = (DispatchLoop.Continue, s') /\ calm s' /\
        worker s' = CampaignWorker.with_current None (worker s) /\
        db s' = recorded r (smtp s) (clock s) (db s)
  end.
Proof.
  intros Hc Hrun.
  apply halted_false in Hrun as Hfl. destruct Hfl as [Hr Hp].
  unfold DispatchLoop.iteration. rewrite Hp.
  unfold DispatchLoop.attempt.
  destruct (get_pending_emails_calm 1 s Hc)
    as (s1 & E1 & Hd1 & _ & Hc1 & Hw1 & Hk1 & Hs1 & _).
  destruct (Store.get_pending_emails 1 (db s)) as [|r rest].
  - unfold bind at 1. rewrite E1.
    unfold bind, modify_worker, ret; simpl.
    eexists. split; [reflexivity|]. simpl. rewrite Hw1.
    repeat split; try apply Hc1. exact Hd1.
  - unfold bind at 1. rewrite E1.
    unfold bind at 1. unfold modify_worker at 1.
    set (s2 := with_worker _ s1).
    assert (Hc2 : calm s2) by exact Hc1.
    destruct (send_and_record_calm r s2 Hc2) as (s3 & E3 & Hc3 & Hw3 & Hd3).
    unfold bind at 1. rewrite E3.
    unfold bind at 1. unfold modify_worker at 1.
    set (s4 := with_worker _ s3).
    assert (Hc4 : calm s4) by exact Hc3.
    assert (Hw4 : worker s4 = CampaignWorker.with_current None (worker s)).
    { subst s4 s2. simpl. rewrite Hw3. simpl. now rewrite Hw1. }
    assert (Hd4 : db s4 = recorded r (smtp s) (clock s) (db s)).
    { subst s4 s2. simpl. rewrite Hd3. simpl. now rewrite Hs1, Hk1, Hd1. }
    assert (Hrun4 : CampaignWorker.halted (worker s4) = false).
    { rewrite Hw4. apply halted_false. now split. }
    unfold bind at 1.
    destruct (pace_calm s4 Hc4 Hrun4) as [(s5 & E5 & Hc5 & Hw5 & Hd5)|(e & E5)];
      rewrite E5.
    + unfold ret. exists s5. split; [reflexivity|].
      split; [exact Hc5|]. split; congruence.
    + unfold bind, print. cbn [snd fst].
      destruct (sleep_calm 5 (emit (EvPrint ("Worker error: " ++ str (ValueError e))%string) s4))
        as (Hc6 & Hw6 & Hd6); [exact Hc4|].
      eexists. split; [reflexivity|].
      split; [exact Hc6|]. split.
      * rewrite Hw6. exact Hw4.
      * rewrite Hd6. exact Hd4.
Qed.

End LoopFacts.

Section LoopTheorems.
Import Runtime Props.
Local Open Scope dispatch_scope.

Variable cfg : Config.t.
Variable generate_email : string -> string -> string -> string * string.

Local Abbreviation send_and_record := (DispatchLoop.send_and_record generate_email).
Local Abbreviation iteration := (DispatchLoop.iteration cfg generate_email).
Local Abbreviation run_loop := (DispatchLoop.run_loop cfg generate_email).
Local Abbreviation process_emails := (DispatchLoop.process_emails cfg generate_email).

Lemma recorded_count (r : Store.Row) (script : list (option string)) (now : Z)
      (d : Store.Db) :
  In r (Store.rows d) -> Store.is_pending r = true ->
  (Store.count Store.is_pending (recorded r script now d)
   < Store.count Store.is_pending d)%nat.
Proof.
  intros Hin Hp. unfold recorded.
  destruct script as [|[reason|] rest];
    apply update_email_status_count; auto.
Qed.

(** What [update_email_status] writes, column by column: afterwards
    every row with the id carries the new status and the time of the
    update, the send flag and send time for "sent", the error message
    otherwise; and a row that was there is still there, with its other
    columns as they were. *)
Lemma update_email_status_columns (i : Z) (st : string) (err : option string)
      (now : Z) (d : Store.Db) :
  (forall x, In x (Store.rows (Store.update_email_status i st err now d)) ->
             Store.id x = i ->
             Store.status x = st /\ Store.updated_at x = now /\
             (st = "sent"%string ->
              Store.sent x = true /\ Store.sent_at x = Some now) /\
             (st <> "sent"%string -> Store.error_message x = err)) /\
  (forall r, In r (Store.rows d) -> Store.id r = i ->
             exists x,
               In x (Store.rows (Store.update_email_status i st err now d)) /\
               Store.id x = i /\
               Store.email x = Store.email r /\
               Store.name x = Store.name r /\
               Store.serial_number x = Store.serial_number r /\
               Store.title x = Store.title r /\
               Store.company x = Store.company r /\
               Store.created_at x = Store.created_at r /\
               (st = "sent"%string ->
                Store.error_message x = Store.error_message r) /\
               (st <> "sent"%string ->
                Store.sent x = Store.sent r /\
                Store.sent_at x = Store.sent_at r)).
Proof.
  unfold Store.update_email_status, Store.update_where.
  destruct (String.eqb_spec st "sent") as [E|E]; cbn [Store.rows]; split.
  - intros x Hin Hid. apply in_map_iff in Hin as (y & Hy & _).
    destruct (Store.id y =? i) eqn:Ei.
    + subst x. cbn. repeat split; intros; congruence.
    + subst x. apply Z.eqb_neq in Ei. contradiction.
  - intros r Hin Hid. exists (Store.set_sent st now r). split.
    + apply in_map_iff. exists r. split; [|exact Hin].
      now rewrite Hid, Z.eqb_refl.
    + cbn. repeat split; intros; congruence.
  - intros x Hin Hid. apply in_map_iff in Hin as (y & Hy & _).
    destruct (Store.id y =? i) eqn:Ei.
    + subst x. cbn. repeat split; intros; congruence.
    + subst x. apply Z.eqb_neq in Ei. contradiction.
  - intros r Hin Hid. exists (Store.set_outcome st err now r). split.
    + apply in_map_iff. exists r. split; [|exact Hin].
      now rewrite Hid, Z.eqb_refl.
    + cbn. repeat split; intros; congruence.
Qed.

Lemma recorded_not_pending (r : Store.Row) (script : list (option string))
      (now : Z) (d : Store.Db) (x : Store.Row) :
  In x (Store.rows (recorded r script now d)) ->
  Store.is_pending x = true -> Store.id x <> Store.id r.
Proof.
  unfold recorded, Store.update_email_status.
  intros Hin Hp Heq.
  destruct script as [|[reason|] rest]; simpl in Hin;
    apply in_map_iff in Hin as (y & Hy & _);
    destruct (Store.id y =? Store.id r) eqn:E; subst x;
    try discriminate Hp;
    apply Z.eqb_neq in E; contradiction.
Qed.

(** With enough fuel the loop of an undisturbed worker empties the
    queue and stops by itself. *)
Lemma run_loop_drains (n : nat) :
  forall s,
    calm s -> CampaignWorker.halted (worker s) = false ->
    (Store.count Store.is_pending (db s) <= n)%nat ->
    exists s',
      run_loop (S n) s = (DispatchLoop.Finished, s') /\
      CampaignWorker.status (worker s') = (CampaignWorker.Stopped, None) /\
      Store.count Store.is_pending (db s') = 0%nat.
Proof.
  induction n as [|n IH]; intros s Hc Hrun Hn;
    apply halted_false in Hrun as Hfl; destruct Hfl as [Hr Hp];
    pose proof (iteration_calm cfg generate_email s Hc Hrun) as Hit;
    destruct (Store.get_pending_emails 1 (db s)) as [|r rest] eqn:E.
  - destruct Hit as (s' & Ei & _ & Hd & Hw).
    exists s'. cbn [DispatchLoop.run_loop]. rewrite Hr, Ei.
    split; [reflexivity|]. split.
    + rewrite Hw. reflexivity.
    + rewrite Hd. now apply count_zero_iff.
  - exfalso. assert (H0 : Store.count Store.is_pending (db s) = 0%nat) by lia.
    apply count_zero_iff in H0. congruence.
  - destruct Hit as (s' & Ei & _ & Hd & Hw).
    exists s'. cbn [DispatchLoop.run_loop]. rewrite Hr, Ei.
    split; [reflexivity|]. split.
    + rewrite Hw. reflexivity.
    + rewrite Hd. now apply count_zero_iff.
  - destruct Hit as (s' & Ei & Hc' & Hw & Hd).
    destruct (get_pending_emails_head _ _ _ E) as (_ & Hin & Hpend).
    destruct (IH s') as (s'' & El & Hst & Hcnt).
    + exact Hc'.
    + rewrite Hw. apply halted_false. now split.
    + rewrite Hd.
      pose proof (recorded_count r (smtp s) (clock s) (db s) Hin Hpend). lia.
    + exists s''. split; [|now split].
      change (run_loop (S (S n)) s)
        with (if CampaignWorker.is_running (worker s)
              then match iteration s with
                   | (DispatchLoop.Break, s') => (DispatchLoop.Finished, s')
                   | (DispatchLoop.Continue, s') => run_loop (S n) s'
                   end
              else (DispatchLoop.Finished, s)).
      now rewrite Hr, Ei.
Qed.

(** C7: for a running worker nobody disturbs, one turn of the loop
    breaks, and leaves the worker stopped with no current job, exactly
    when the fetch returns no pending row; when the mail server refuses
    the message of the fetched row the turn records [failed] with the
    text of the exception raised by [send_email]: afterwards the row of
    the job, and every row with its id, has status [failed] and that
    text as error message, with its send flag and send time as before;
    the worker stays running, the loop goes on with the next turn, whose
    fetch no longer returns that job; and with enough fuel the loop ends
    stopped on an empty queue. *)
Theorem loop_stops_on_empty_queue_only (s : World) :
  calm s ->
  CampaignWorker.halted (worker s) = false ->
  (fst (iteration s) = DispatchLoop.Break
   <-> Store.get_pending_emails 1 (db s) = []) /\
  (CampaignWorker.mode (worker (snd (iteration s))) = CampaignWorker.Stopped
   <-> Store.get_pending_emails 1 (db s) = []) /\
  (Store.get_pending_emails 1 (db s) = [] ->
   CampaignWorker.status (worker (snd (iteration s)))
   = (CampaignWorker.Stopped, None)) /\
  (forall r reason rest,
      Store.get_pending_emails 1 (db s) = [r] ->
      smtp s = Some reason :: rest ->
      fst (iteration s) = DispatchLoop.Continue /\
      CampaignWorker.mode (worker (snd (iteration s))) = CampaignWorker.Running /\
      db (snd (iteration s))
      = Store.update_email_status (Store.id r) "failed"
          (Some ("SMTP Error: " ++ reason)%string) (clock s) (db s) /\
      (exists x, In x (Store.rows (db (snd (iteration s)))) /\
                 Store.id x = Store.id r /\
                 Store.email x = Store.email r /\
                 Store.status x = "failed"%string /\
                 Store.error_message x
                 = Some ("SMTP Error: " ++ reason)%string /\
                 Store.sent x = Store.sent r /\
                 Store.sent_at x = Store.sent_at r /\
                 Store.updated_at x = clock s) /\
      (forall x, In x (Store.rows (db (snd (iteration s)))) ->
                 Store.id x = Store.id r ->
                 Store.status x = "failed"%string /\
                 Store.error_message x
                 = Some ("SMTP Error: " ++ reason)%string) /\
      (forall fuel, run_loop (S fuel) s = run_loop fuel (snd (iteration s))) /\
      (forall x, In x (Store.get_pending_emails 1 (db (snd (iteration s)))) ->
                 Store.id x <> Store.id r)) /\
  (forall r s0 s1 e,
      EmailSender.send_email
        (Store.email r)
        (fst (generate_email (Store.name r)
                (DispatchLoop.or_default (Store.title r) "HR Manager")
                (DispatchLoop.or_default (Store.company r) "your company")))
        (snd (generate_email (Store.name r)
                (DispatchLoop.or_default (Store.title r) "HR Manager")
                (DispatchLoop.or_default (Store.company r) "your company")))
        s0 = (Raise e, s1) ->
      send_and_record r s0
      = Database.update_email_status (Store.id r) "failed" (Some (str e)) s1) /\
  (exists s',
      process_emails (S (Store.count Store.is_pending (db s))) s
      = (DispatchLoop.Finished, s') /\
      CampaignWorker.status (worker s') = (CampaignWorker.Stopped, None) /\
      Store.count Store.is_pending (db s') = 0%nat).
Proof.
  intros Hc Hrun.
  apply halted_false in Hrun as Hfl. destruct Hfl as [Hr Hp].
  pose proof (iteration_calm cfg generate_email s Hc Hrun) as Hit.
  assert (Hmode : CampaignWorker.mode
                    (CampaignWorker.with_current None (worker s))
                  = CampaignWorker.Running).
  { unfold CampaignWorker.mode; simpl. now rewrite Hr, Hp. }
  split; [|split; [|split; [|split; [|split]]]].
  - destruct (Store.get_pending_emails 1 (db s)) as [|r rest];
      destruct Hit as (s' & Ei & _); rewrite Ei; simpl;
      split; congruence.
  - destruct (Store.get_pending_emails 1 (db s)) as [|r rest].
    + destruct Hit as (s' & Ei & _ & _ & Hw). rewrite Ei; simpl.
      rewrite Hw. split; reflexivity.
    + destruct Hit as (s' & Ei & _ & Hw & _). rewrite Ei; simpl.
      rewrite Hw, Hmode. split; discriminate.
  - intros E. rewrite E in Hit.
    destruct Hit as (s' & Ei & _ & _ & Hw). rewrite Ei; simpl.
    now rewrite Hw.
  - intros r reason rest E Hsmtp. rewrite E in Hit.
    destruct Hit as (s' & Ei & _ & Hw & Hd). rewrite Ei; simpl.
    rewrite Hsmtp in Hd. simpl in Hd.
    split; [reflexivity|]. split; [now rewrite Hw|]. split; [exact Hd|].
    assert (Hin : In r (Store.rows (db s))).
    { assert (Hr' : In r (Store.get_pending_emails 1 (db s)))
        by (rewrite E; now left).
      now apply get_pending_emails_In in Hr'. }
    assert (Hne : "failed"%string <> "sent"%string) by discriminate.
    destruct (update_email_status_columns
                (Store.id r) "failed" (Some ("SMTP Error: " ++ reason)%string)
                (clock s) (db s)) as [Hall Hex].
    split.
    { destruct (Hex r Hin eq_refl)
        as (x & Hx & Hid & Hem & _ & _ & _ & _ & _ & _ & Hkeep).
      destruct (Hall x Hx Hid) as (Hst & Hup & _ & Herr).
      destruct (Hkeep Hne) as [Hsent Hsat].
      exists x. rewrite Hd. repeat split; auto. }
    split.
    { intros x Hx Hid. rewrite Hd in Hx.
      destruct (Hall x Hx Hid) as (Hst & _ & _ & Herr). split; auto. }
    split.
    + intros fuel. cbn [DispatchLoop.run_loop]. now rewrite Hr, Ei.
    + intros x Hx. apply get_pending_emails_In in Hx as [Hx1 Hx2].
      rewrite Hd in Hx1.
      exact (recorded_not_pending r (Some reason :: rest) (clock s) (db s) x Hx1 Hx2).
  - intros r s0 s1 e H.
    now apply send_and_record_on_failure.
  - destruct (run_loop_drains (Store.count Store.is_pending (db s)) s Hc Hrun)
      as (s' & El & Hst & Hcnt); [lia|].
    unfold DispatchLoop.process_emails. rewrite El.
    eexists. split; [reflexivity|]. split; [|exact Hcnt].
    unfold CampaignWorker.status in *. simpl.
    injection Hst as Hm _. unfold CampaignWorker.mode in *. simpl.
    now rewrite Hm.
Qed.

End LoopTheorems.

Lemma loop_stops_on_empty_queue_only_witness :
  exists s',
    DispatchLoop.process_emails Samples.no_delay Samples.sample_generate 4
      (Samples.world_boom Samples.three_jobs)
    = (DispatchLoop.Finished, s') /\
    CampaignWorker.status (Runtime.worker s') = (CampaignWorker.Stopped, None) /\
    Store.count Store.is_pending (Runtime.db s') = 0%nat.
Proof.
  destruct (loop_stops_on_empty_queue_only
              Samples.no_delay Samples.sample_generate
              (Samples.world_boom Samples.three_jobs))
    as (_ & _ & _ & _ & _ & H).
  - split; reflexivity.
  - reflexivity.
  - exact H.
Defined.

(** The failure scenario: the mail server answers "boom" to everything;
    the three jobs are tried one after the other, each ends [failed] with
    the text [send_email] raised, and the loop stops on the empty queue. *)
Example failure_scenario :
  let s' := snd (DispatchLoop.process_emails Samples.no_delay Samples.sample_generate 4
                   (Samples.world_boom Samples.three_jobs)) in
  map (fun r => (Store.status r, Store.error_message r)) (Store.rows (Runtime.db s'))
  = [("failed", Some "SMTP Error: boom");
     ("failed", Some "SMTP Error: boom");
     ("failed", Some "SMTP Error: boom")] /\
  Props.sends (Runtime.trace s')
  = ["b@example.org"; "c@example.org"; "a@example.org"] /\
  CampaignWorker.mode (Runtime.worker s') = CampaignWorker.Stopped.
Proof. vm_compute. repeat split. Qed.

(** The end-to-end scenario: priorities 2, 0, 1 are served in the order
    0, 1, 2 and all three jobs end [sent]. *)
Example end_to_end_scenario :
  let s' := snd (DispatchLoop.process_emails Samples.no_delay Samples.sample_generate 4
                   (Samples.world_of Samples.three_jobs)) in
  Props.sends (Runtime.trace s')
  = ["b@example.org"; "c@example.org"; "a@example.org"] /\
  Store.get_stats (Runtime.db s')
  = {| Store.total := 3; Store.n_sent := 3; Store.n_pending := 0; Store.n_failed := 0 |} /\
  CampaignWorker.mode (Runtime.worker s') = CampaignWorker.Stopped.
Proof. vm_compute. repeat split. Qed.

Section FetchOrder.
Import Store Samples.

(** C2, at the failing input: two pending jobs share [serial_number] 5
    and the table delivers the one with [id] 2 first; the worker's
    query returns [id] 2, the paginated query returns [id] 1, and the
    loop sends to job 2 before job 1. *)
Theorem worker_fetch_ignores_id_on_ties :
  map id (get_pending_emails 1 ties_db) = [2] /\
  map id (get_pending_emails 2 ties_db) = [2; 1] /\
  map id (get_pending_emails_paginated 0 2 ties_db) = [1; 2] /\
  Props.sends
    (Runtime.trace
       (snd (DispatchLoop.process_emails no_delay sample_generate 3
               (world_of ties_db))))
  = ["b@example.org"; "a@example.org"].
Proof. vm_compute. repeat split. Qed.

(** Between two pending rows with the same [serial_number] the worker's
    query returns the one the table delivers first, whatever their ids. *)
Lemma get_pending_emails_follows_scan_order (a b : Row) (n : Z) :
  is_pending a = true -> is_pending b = true ->
  serial_number a = serial_number b ->
  get_pending_emails 1 {| rows := [a; b]; id_seq := n |} = [a].
Proof.
  intros Ha Hb Hsn. unfold get_pending_emails; simpl.
  rewrite Ha, Hb; simpl.
  unfold by_serial, serial_le. rewrite Hsn.
  destruct (serial_number b); [now rewrite Z.leb_refl|reflexivity].
Qed.

(** Whatever the table, the rows the worker's query returns are in
    ascending [serial_number], and the first of them is not above any
    pending row. *)
Lemma get_pending_emails_least (d : Db) (r x : Row) :
  get_pending_emails 1 d = [r] ->
  In x (rows d) -> is_pending x = true ->
  by_serial r x = true.
Proof.
  unfold get_pending_emails. intros H Hx Hp.
  assert (Hin : In x (order_by by_serial (filter is_pending (rows d)))).
  { apply order_by_In. apply filter_In. now split. }
  pose proof (order_by_sorted by_serial by_serial_total
                (filter is_pending (rows d))) as Hs.
  destruct (order_by by_serial (filter is_pending (rows d))) as [|y t];
    [contradiction|].
  simpl in H. injection H as ->.
  apply Sorted_StronglySorted in Hs.
  - destruct Hin as [<-|Hin].
    + unfold by_serial, serial_le. destruct (serial_number r); auto.
      apply Z.leb_refl.
    + apply StronglySorted_inv in Hs as [_ Hall].
      rewrite Forall_forall in Hall. now apply Hall.
  - intros a b c. unfold by_serial, serial_le.
    destruct (serial_number a), (serial_number b), (serial_number c);
      try discriminate; auto.
    rewrite !Z.leb_le. lia.
Qed.

End FetchOrder.

(* ================================================================= *)
(** * Store failures *)

Section StoreFailure.
Import Runtime Props.
Local Open Scope dispatch_scope.

Variable cfg : Config.t.
Variable generate_email : string -> string -> string -> string * string.

Local Abbreviation iteration := (DispatchLoop.iteration cfg generate_email).

Lemma executes_app (l1 l2 : list event) :
  executes (l1 ++ l2) = (executes l1 + executes l2)%nat.
Proof.
  induction l1 as [|e t IH]; simpl; [reflexivity|].
  destruct e; simpl; now rewrite IH.
Qed.

Lemma get_connection_executes (s : World) :
  executes (trace (snd (Database.get_connection s))) = executes (trace s).
Proof.
  unfold Database.get_connection, Database.next_fault.
  destruct (conn s), (faults s) as [|[|m|m] t]; simpl;
    rewrite ?executes_app; simpl; lia.
Qed.

Lemma cursor_execute_executes {A} (q : Z -> Store.Db -> A * Store.Db)
      (s : World) :
  executes (trace (snd (Database.cursor_execute q s))) = S (executes (trace s)).
Proof.
  unfold Database.cursor_execute, Database.next_fault.
  destruct (faults s) as [|[|m|m] t]; simpl;
    try destruct (q (clock s) (db s)); simpl;
    rewrite ?executes_app; simpl; lia.
Qed.

Lemma statement_executes {A} (q : Z -> Store.Db -> A * Store.Db) (s : World) :
  (executes (trace (snd ((Database.get_connection ;; Database.cursor_execute q) s)))
   <= executes (trace s) + 1)%nat.
Proof.
  unfold bind. pose proof (get_connection_executes s) as H.
  destruct (Database.get_connection s) as [[[]|e] s1]; simpl in *.
  - rewrite cursor_execute_executes. lia.
  - lia.
Qed.

(** [execute_query] runs the statement at most twice. *)
Lemma execute_query_at_most_twice {A} (q : Z -> Store.Db -> A * Store.Db)
      (s : World) :
  (executes (trace (snd (Database.execute_query q s)))
   <= executes (trace s) + 2)%nat.
Proof.
  unfold Database.execute_query, try_except_db.
  pose proof (statement_executes q s) as H.
  destruct ((Database.get_connection ;; Database.cursor_execute q) s)
    as [[a|[m|m|m]] s1]; simpl in *; try lia.
  unfold bind at 1. unfold Database.forget_connection at 1.
  pose proof (statement_executes q (with_conn NoConn s1)) as H1.
  simpl in H1. lia.
Qed.

(** C8, as amended: when the first round trip of a connected store
    fails, [execute_query] drops the connection, connects again and runs
    the statement once more, and the outcome of that second attempt,
    value or exception, is its outcome; it never runs a statement more
    than twice.  The fetch of the dispatch loop does not go through
    [execute_query]: it is tried once, the failure is printed after
    "Worker error: ", five seconds are slept, and the turn ends with the
    worker still running and its reported status unchanged. *)
Theorem store_failure_is_retried_once_or_swallowed
        (s : World) (f : fault) (rest : list fault) (m : string) :
  conn s = Open ->
  faults s = f :: rest ->
  fault_msg f = Some m ->
  ctl s = [] ->
  CampaignWorker.halted (worker s) = false ->
  (forall (q : Z -> Store.Db -> unit * Store.Db),
      fst (Database.cursor_execute q s) = Raise (DbError m) /\
      Database.execute_query q s
      = (Database.get_connection ;; Database.cursor_execute q)
          (with_conn NoConn (snd (Database.cursor_execute q s))) /\
      (executes (trace (snd (Database.execute_query q s)))
       <= executes (trace s) + 2)%nat /\
      (forall m2 rest', rest = Healthy :: Rejected m2 :: rest' ->
         fst (Database.execute_query q s) = Raise (DbError m2) /\
         trace (snd (Database.execute_query q s))
         = trace s ++ [EvExecute false; EvConnect true; EvExecute false])) /\
  fst (iteration s) = DispatchLoop.Continue /\
  CampaignWorker.mode (worker (snd (iteration s))) = CampaignWorker.Running /\
  CampaignWorker.status (worker (snd (iteration s)))
  = CampaignWorker.status (worker s) /\
  db (snd (iteration s)) = db s /\
  faults (snd (iteration s)) = rest /\
  trace (snd (iteration s))
  = trace s ++ [EvExecute false;
                EvPrint ("Worker error: " ++ m)%string;
                EvSleep 5].
Proof.
  intros Hconn Hf Hm Hctl Hrun.
  apply halted_false in Hrun as [Hr Hp].
  destruct s as [d w c cn fl sm en ct rs rf tr]. simpl in *.
  subst cn fl ct.
  split.
  - intros q. split; [|split; [|split]].
    + unfold Database.cursor_execute, Database.next_fault; simpl.
      destruct f; simpl in *; congruence.
    + unfold Database.execute_query, try_except_db, bind,
        Database.forget_connection, Database.get_connection,
        Database.cursor_execute, Database.next_fault; simpl.
      destruct f; simpl in *; try discriminate; reflexivity.
    + apply execute_query_at_most_twice.
    + intros m2 rest' ->.
      unfold Database.execute_query, try_except_db, bind,
        Database.forget_connection, Database.get_connection,
        Database.cursor_execute, Database.next_fault; simpl.
      destruct f; simpl in *; try discriminate;
        rewrite <- !app_assoc; split; reflexivity.
  - unfold DispatchLoop.iteration, DispatchLoop.attempt,
      Database.get_pending_emails, bind, Database.get_connection,
      Database.cursor_execute, Database.next_fault, print, sleep, suspend,
      CampaignWorker.status, CampaignWorker.mode;
      simpl.
    rewrite Hp, Hr.
    destruct f; simpl in *; try discriminate;
      injection Hm as <-; cbn [str];
      rewrite <- !app_assoc, ?Hr, ?Hp; repeat split.
Qed.

End StoreFailure.

Lemma store_failure_is_retried_once_or_swallowed_witness :
  fst (DispatchLoop.iteration Samples.no_delay Samples.sample_generate
         (Samples.world_outage Samples.one_job)) = DispatchLoop.Continue /\
  CampaignWorker.mode
    (Runtime.worker
       (snd (DispatchLoop.iteration Samples.no_delay Samples.sample_generate
               (Samples.world_outage Samples.one_job))))
  = CampaignWorker.Running.
Proof.
  destruct (store_failure_is_retried_once_or_swallowed
              Samples.no_delay Samples.sample_generate
              (Samples.world_outage Samples.one_job)
              (Runtime.Broken "server closed the connection unexpectedly")
              (repeat (Runtime.Broken "server closed the connection unexpectedly") 39)
              "server closed the connection unexpectedly")
    as (_ & H1 & H2 & _); try reflexivity.
  now split.
Defined.

(** C8, counterexample: in front of a store that is gone the fetch is
    tried once, with no reconnect-and-retry; the error is printed and the
    worker is still running after that turn and after ten turns, the loop
    not having ended. *)
Lemma store_outage_does_not_stop_the_worker :
  let s := Samples.world_outage Samples.one_job in
  let s1 := snd (DispatchLoop.iteration Samples.no_delay Samples.sample_generate s) in
  let out := DispatchLoop.run_loop Samples.no_delay Samples.sample_generate 10 s in
  Runtime.trace s1
  = [Runtime.EvExecute false;
     Runtime.EvPrint "Worker error: server closed the connection unexpectedly";
     Runtime.EvSleep 5] /\
  CampaignWorker.mode (Runtime.worker s1) = CampaignWorker.Running /\
  CampaignWorker.status (Runtime.worker s1)
  = CampaignWorker.status (Runtime.worker s) /\
  fst out = DispatchLoop.OutOfFuel /\
  CampaignWorker.mode (Runtime.worker (snd out)) = CampaignWorker.Running /\
  Props.executes (Runtime.trace (snd out)) = 1%nat.
Proof. vm_compute. repeat split. Qed.

(* ================================================================= *)
(** * Two callers and one pending job *)

Section Claim.
Import Runtime Props.
Local Open Scope dispatch_scope.

Lemma single_pending_fetch (d : Store.Db) (r : Store.Row) :
  filter Store.is_pending (Store.rows d) = [r] ->
  Store.get_pending_emails 1 d = [r] /\
  In r (Store.rows d) /\ Store.is_pending r = true /\
  In r (Store.get_emails_by_status "pending" d).
Proof.
  intros H. unfold Store.get_pending_emails. rewrite H.
  assert (Hin : In r (filter Store.is_pending (Store.rows d)))
    by (rewrite H; now left).
  apply filter_In in Hin as [Hin Hp].
  repeat split; auto.
  unfold Store.get_emails_by_status. apply order_by_In, filter_In.
  split; [exact Hin|].
  unfold Store.is_pending in Hp. now apply andb_true_iff in Hp as [Hp _].
Qed.

(** C1, as amended: [get_pending_emails] is a read.  On a healthy store
    with exactly one pending job, the fetch of the loop returns that
    job and leaves the table as it was, so a second fetch, and the list
    the Custom Send tab loads with [get_emails_by_status], return the
    same job again; the job leaves the pending set only when a caller
    records an outcome with [update_email_status], after which a fetch
    returns nothing. *)
Theorem fetch_does_not_claim (s : World) (r : Store.Row) :
  calm s ->
  filter Store.is_pending (Store.rows (db s)) = [r] ->
  exists s1 s2 s3 l,
    Database.get_pending_emails 1 s = (Ok [r], s1) /\ db s1 = db s /\
    Database.get_pending_emails 1 s1 = (Ok [r], s2) /\ db s2 = db s /\
    Database.get_emails_by_status "pending" s1 = (Ok l, s3) /\
    In r l /\ db s3 = db s /\
    (forall st err,
        st = "sent" \/ st = "failed" ->
        exists s4 s5,
          Database.update_email_status (Store.id r) st err s1 = (Ok tt, s4) /\
          Database.get_pending_emails 1 s4 = (Ok [], s5)).
Proof.
  intros Hc Hone.
  destruct (single_pending_fetch _ _ Hone) as (Hfetch & Hin & Hp & Hlist).
  destruct (get_pending_emails_calm 1 s Hc) as (s1 & E1 & Hd1 & _ & Hc1 & _).
  destruct (get_pending_emails_calm 1 s1 Hc1) as (s2 & E2 & Hd2 & _ & Hc2 & _).
  destruct (get_emails_by_status_calm "pending" s1 Hc1)
    as (s3 & E3 & Hd3 & _ & Hc3 & _).
  exists s1, s2, s3, (Store.get_emails_by_status "pending" (db s)).
  rewrite Hd1, Hfetch in *.
  split; [exact E1|]. split; [reflexivity|]. split; [exact E2|].
  split; [congruence|]. split; [exact E3|]. split; [exact Hlist|].
  split; [congruence|].
  intros st err Hst.
  destruct (update_email_status_calm (Store.id r) st err s1 Hc1)
    as (s4 & E4 & Hd4 & _ & Hc4 & _).
  destruct (get_pending_emails_calm 1 s4 Hc4) as (s5 & E5 & _).
  exists s4, s5. split; [exact E4|]. rewrite E5. do 2 f_equal.
  apply count_zero_iff. rewrite Hd4, Hd1.
  pose proof (update_email_status_count r st err (clock s1) (db s) Hin Hp Hst) as Hlt.
  unfold Store.count in Hlt at 2. rewrite Hone in Hlt. simpl in Hlt. lia.
Qed.

End Claim.

Lemma fetch_does_not_claim_witness :
  exists s1 s2,
    Database.get_pending_emails 1 (Samples.world_of Samples.one_job)
    = (Runtime.Ok (Store.rows Samples.one_job), s1) /\
    Database.get_pending_emails 1 s1
    = (Runtime.Ok (Store.rows Samples.one_job), s2).
Proof.
  destruct (fetch_does_not_claim (Samples.world_of Samples.one_job)
              (Store.new_row 1 (Samples.contact 1 "a@example.org") 1))
    as (s1 & s2 & _ & _ & E1 & _ & E2 & _).
  - split; reflexivity.
  - reflexivity.
  - exists s1, s2. split; [exact E1|exact E2].
Defined.

(** C1, counterexample: one pending job; the loop fetches it, the Custom
    Send tab lists it, and both callers have the job: neither is told
    that none is available.  Each then sends and records, and the
    contact receives the message twice. *)
Lemma both_callers_get_the_same_job :
  let s0 := Samples.world_of Samples.one_job in
  let job := Store.new_row 1 (Samples.contact 1 "a@example.org") 1 in
  let loop_fetch := Database.get_pending_emails 1 s0 in
  let tab_fetch := Database.get_emails_by_status "pending" (snd loop_fetch) in
  let second_fetch := Database.get_pending_emails 1 (snd loop_fetch) in
  let s3 := snd (DispatchLoop.send_and_record Samples.sample_generate job
                   (snd tab_fetch)) in
  let s4 := snd (DispatchLoop.manual_send Samples.sample_generate job s3) in
  filter Store.is_pending (Store.rows Samples.one_job) = [job] /\
  fst loop_fetch = Runtime.Ok [job] /\
  fst tab_fetch = Runtime.Ok [job] /\
  fst second_fetch = Runtime.Ok [job] /\
  Props.sends (Runtime.trace s4) = ["a@example.org"; "a@example.org"].
Proof. vm_compute. repeat split. Qed.

(* ================================================================= *)
(** * Further properties of the queries *)

Section Queries.
Import Store Props.

Lemma firstn_add_skipn (a b : nat) (l : list Row) :
  firstn (a + b) l = firstn a l ++ firstn b (skipn a l).
Proof.
  revert l. induction a as [|a IH]; intros l; [reflexivity|].
  destruct l as [|x t]; simpl.
  - now rewrite firstn_nil.
  - now rewrite IH.
Qed.

(** Consecutive slices of [n] rows, [m] of them, make up the first
    [m * n] rows. *)
Lemma concat_pages (n m : nat) (l : list Row) :
  List.concat (map (fun k => firstn n (skipn (k * n) l)) (seq 0 m))
  = firstn (m * n) l.
Proof.
  induction m as [|m IH]; [reflexivity|].
  rewrite seq_S, map_app, concat_app, IH; simpl.
  rewrite app_nil_r, <- firstn_add_skipn. f_equal. lia.
Qed.

Lemma skipn_beyond (n : nat) (l : list Row) :
  (List.length l <= n)%nat -> skipn n l = [].
Proof.
  revert l. induction n as [|n IH]; intros [|x t] H; simpl in *;
    try reflexivity; try lia.
  apply IH. lia.
Qed.

Lemma order_by_length (le : Row -> Row -> bool) (l : list Row) :
  List.length (order_by le l) = List.length l.
Proof. apply Permutation_length, order_by_perm. Qed.

Lemma by_updated_desc_total (a b : Row) :
  by_updated_desc a b = true \/ by_updated_desc b a = true.
Proof. unfold by_updated_desc. rewrite !Z.leb_le. lia. Qed.

(** X1: the worker's query returns at most [limit] rows, all of them
    pending rows of the table, in ascending [serial_number]; when the
    limit is not below the number of pending rows it returns every
    pending row exactly once. *)
Theorem get_pending_emails_bounded (limit : nat) (d : Db) :
  (List.length (get_pending_emails limit d) <= limit)%nat /\
  (forall r, In r (get_pending_emails limit d) ->
             In r (rows d) /\ is_pending r = true) /\
  Sorted (fun a b => by_serial a b = true) (get_pending_emails limit d) /\
  ((count is_pending d <= limit)%nat ->
   Permutation (get_pending_emails limit d) (filter is_pending (rows d))).
Proof.
  split; [apply firstn_le_length|].
  split; [intros r; apply get_pending_emails_In|].
  split; [apply get_pending_emails_sorted|].
  intros H. unfold get_pending_emails.
  rewrite firstn_all2; [apply order_by_perm|].
  now rewrite order_by_length.
Qed.

(** X2: read page after page with offsets [0, n, 2n, ...], the paginated
    query delivers the pending rows in ascending [(serial_number, id)],
    each exactly once, as soon as the pages reach the number of pending
    rows; past the end a page is empty. *)
Theorem paginated_pages_cover (n m : nat) (d : Db) :
  (count is_pending d <= m * n)%nat ->
  let pages := List.concat (map (fun k => get_pending_emails_paginated (k * n) n d)
                           (seq 0 m)) in
  pages = order_by by_serial_id (filter is_pending (rows d)) /\
  Sorted (fun a b => by_serial_id a b = true) pages /\
  Permutation pages (filter is_pending (rows d)) /\
  (forall offset, (m * n <= offset)%nat ->
                  get_pending_emails_paginated offset n d = []).
Proof.
  intros H pages.
  assert (E : pages = order_by by_serial_id (filter is_pending (rows d))).
  { unfold pages, get_pending_emails_paginated.
    rewrite (concat_pages n m). apply firstn_all2.
    now rewrite order_by_length. }
  split; [exact E|]. rewrite E.
  split; [apply order_by_sorted, by_serial_id_total|].
  split; [apply order_by_perm|].
  intros offset Ho. unfold get_pending_emails_paginated.
  rewrite skipn_beyond; [now rewrite firstn_nil|].
  rewrite order_by_length. unfold count in H. lia.
Qed.

Lemma paginated_pages_cover_witness :
  List.concat (map (fun k => get_pending_emails_paginated (k * 2) 2 Samples.three_jobs)
              (seq 0 2))
  = order_by by_serial_id (filter is_pending (rows Samples.three_jobs)).
Proof.
  apply (paginated_pages_cover 2 2 Samples.three_jobs).
  vm_compute. lia.
Defined.

(** X3: [get_emails_by_status] returns exactly the rows that have the
    status asked for, each once, most recently updated first; it returns
    nothing when no row has that status. *)
Theorem get_emails_by_status_complete (st : string) (d : Db) :
  Permutation (get_emails_by_status st d)
              (filter (fun r => (status r =? st)%string) (rows d)) /\
  (forall r, In r (get_emails_by_status st d) <-> In r (rows d) /\ status r = st) /\
  Sorted (fun a b => updated_at b <= updated_at a) (get_emails_by_status st d) /\
  ((forall r, In r (rows d) -> status r <> st) -> get_emails_by_status st d = []).
Proof.
  unfold get_emails_by_status.
  split; [apply order_by_perm|].
  split.
  { intros r. rewrite order_by_In, filter_In.
    now rewrite String.eqb_eq. }
  split.
  { pose proof (order_by_sorted by_updated_desc by_updated_desc_total
                  (filter (fun r => (status r =? st)%string) (rows d))) as Hs.
    induction Hs as [|x t Hs IH Hhd]; constructor; auto.
    destruct Hhd as [|y t' Hxy]; constructor.
    unfold by_updated_desc in Hxy. now apply Z.leb_le. }
  intros Hnone. apply order_by_nil_iff.
  induction (rows d) as [|x t IH]; [reflexivity|]. simpl.
  destruct (String.eqb_spec (status x) st) as [E|E].
  - exfalso. apply (Hnone x); [now left|exact E].
  - apply IH. intros r Hr. apply Hnone. now right.
Qed.

End Queries.

(* ================================================================= *)
(** * Further properties of the updates *)

Section Lookups.
Import Store Props.

Lemma find_map_id (g : Row -> Row) (i : Z) (l : list Row) :
  (forall r, id (g r) = id r) ->
  find (fun r => id r =? i) (map g l)
  = option_map g (find (fun r => id r =? i) l).
Proof.
  intros Hg. induction l as [|x t IH]; simpl; [reflexivity|].
  rewrite Hg. destruct (id x =? i); [reflexivity|exact IH].
Qed.

Lemma find_none_id (i : Z) (l : list Row) :
  (forall r, In r l -> id r <> i) -> find (fun r => id r =? i) l = None.
Proof.
  induction l as [|x t IH]; simpl; intros H; [reflexivity|].
  destruct (Z.eqb_spec (id x) i) as [E|E].
  - exfalso. apply (H x); [now left|exact E].
  - apply IH. intros r Hr. apply H. now right.
Qed.

Lemma find_unique_id (l : list Row) (r : Row) :
  NoDup (map id l) -> In r l -> find (fun x => id x =? id r) l = Some r.
Proof.
  induction l as [|x t IH]; simpl; intros Hnd Hin; [contradiction|].
  inversion Hnd as [|? ? Hx Ht]; subst.
  destruct Hin as [->|Hin].
  - now rewrite Z.eqb_refl.
  - destruct (Z.eqb_spec (id x) (id r)) as [E|E].
    + exfalso. apply Hx. rewrite E. now apply in_map.
    + now apply IH.
Qed.

Lemma find_app_id (i : Z) (l1 l2 : list Row) :
  find (fun r => id r =? i) (l1 ++ l2)
  = match find (fun r => id r =? i) l1 with
    | Some r => Some r
    | None => find (fun r => id r =? i) l2
    end.
Proof.
  induction l1 as [|x t IH]; simpl; [reflexivity|].
  destruct (id x =? i); [reflexivity|exact IH].
Qed.

Lemma update_email_status_rows (i : Z) (st : string) (err : option string)
      (now : Z) (d : Db) :
  rows (update_email_status i st err now d)
  = map (fun r => if id r =? i
                  then (if (st =? "sent")%string
                        then set_sent st now r else set_outcome st err now r)
                  else r) (rows d).
Proof.
  unfold update_email_status.
  destruct (st =? "sent")%string; reflexivity.
Qed.

(** X4: after [update_email_status(i, st, err)] a lookup of [i] returns
    the row found before with the update written into it: its status is
    [st] and its [updated_at] the time of the update; for the status
    "sent" its [sent] flag is set, its [sent_at] is that time and its
    error message is left as it was (the argument [err] is not written);
    for any other status its error message is [err] and [sent] and
    [sent_at] are left as they were; the other columns never change.  The
    lookup returns nothing if there was no such row, and the lookup of
    any other id returns what it returned before. *)
Theorem lookup_after_update (i : Z) (st : string) (err : option string)
        (now : Z) (d : Db) :
  get_email_by_id i (update_email_status i st err now d)
  = option_map (fun r => if (st =? "sent")%string
                         then set_sent st now r else set_outcome st err now r)
               (get_email_by_id i d) /\
  (forall r,
      get_email_by_id i d = Some r ->
      exists x,
        get_email_by_id i (update_email_status i st err now d) = Some x /\
        id x = id r /\ serial_number x = serial_number r /\
        name x = name r /\ email x = email r /\
        title x = title r /\ company x = company r /\
        created_at x = created_at r /\
        status x = st /\ updated_at x = now /\
        (st = "sent"%string ->
         sent x = true /\ sent_at x = Some now /\
         error_message x = error_message r) /\
        (st <> "sent"%string ->
         error_message x = err /\ sent x = sent r /\ sent_at x = sent_at r)) /\
  (get_email_by_id i d = None ->
   get_email_by_id i (update_email_status i st err now d) = None) /\
  (forall j, j <> i ->
             get_email_by_id j (update_email_status i st err now d)
             = get_email_by_id j d).
Proof.
  assert (H1 : get_email_by_id i (update_email_status i st err now d)
               = option_map (fun r => if (st =? "sent")%string
                                      then set_sent st now r
                                      else set_outcome st err now r)
                            (get_email_by_id i d)).
  { unfold get_email_by_id. rewrite update_email_status_rows.
    induction (rows d) as [|x t IH]; simpl; [reflexivity|].
    destruct (id x =? i) eqn:E.
    - destruct (st =? "sent")%string; simpl; now rewrite E.
    - now rewrite E. }
  split; [exact H1|]. split; [|split].
  - intros r Hr. rewrite H1, Hr. cbn [option_map].
    destruct (String.eqb_spec st "sent") as [E|E];
      (eexists; split; [reflexivity|]); cbn;
      repeat split; intros; congruence.
  - intros Hnone. now rewrite H1, Hnone.
  - unfold get_email_by_id. rewrite update_email_status_rows.
    intros j Hj. induction (rows d) as [|x t IH]; simpl; [reflexivity|].
    destruct (Z.eqb_spec (id x) i) as [E|E].
    + assert (Hx : (id x =? j) = false) by (apply Z.eqb_neq; congruence).
      destruct (st =? "sent")%string; simpl; now rewrite Hx.
    + destruct (id x =? j); [reflexivity|exact IH].
Qed.

(** X5: on a table that meets its schema, the row inserted by an upsert
    of a new email is found under the id drawn from the sequence, every
    row that was there is still found under its id, and an id that no row
    carries is not found. *)
Theorem lookup_after_insert (c : Contact) (now : Z) (d : Db) :
  schema_ok d ->
  ~ In (c_email c) (map email (rows d)) ->
  get_email_by_id (id_seq d) (fst (upsert c now d))
  = Some (new_row (id_seq d) c now) /\
  (forall r, In r (rows d) ->
             get_email_by_id (id r) (fst (upsert c now d)) = Some r) /\
  (forall i, (forall r, In r (rows d) -> id r <> i) -> i <> id_seq d ->
             get_email_by_id i (fst (upsert c now d)) = None).
Proof.
  intros (Hid & Hem & Hlt) Hnew.
  assert (E : existsb (has_email (c_email c)) (rows d) = false).
  { destruct (existsb (has_email (c_email c)) (rows d)) eqn:E; [|reflexivity].
    apply existsb_has_email in E. contradiction. }
  rewrite (upsert_insert c now d E (fresh_id_unused d Hlt)).
  unfold get_email_by_id; simpl.
  rewrite Forall_forall in Hlt.
  split; [|split].
  - rewrite find_app_id, find_none_id.
    + simpl. now rewrite Z.eqb_refl.
    + intros r Hr. specialize (Hlt r Hr). simpl in Hlt. lia.
  - intros r Hr. rewrite find_app_id. now rewrite (find_unique_id _ _ Hid Hr).
  - intros i Hi Hseq. rewrite find_app_id, (find_none_id i _ Hi). simpl.
    destruct (Z.eqb_spec (id_seq d) i); [congruence|reflexivity].
Qed.

Lemma lookup_after_insert_witness :
  get_email_by_id 2 (fst (upsert Samples.contact_a 10 Samples.one_job))
  = Some (new_row 2 Samples.contact_a 10).
Proof.
  apply (lookup_after_insert Samples.contact_a 10 Samples.one_job).
  - repeat split; simpl; repeat constructor; simpl; try tauto; lia.
  - simpl. intros [H|[]]. discriminate H.
Defined.

Lemma update_where_missing (cond : Row -> bool) (set : Row -> Row) (d : Db) :
  (forall r, In r (rows d) -> cond r = false) -> update_where cond set d = d.
Proof.
  intros H. unfold update_where. destruct d as [l n]; simpl in *. f_equal.
  rewrite <- (map_id l) at 2. apply map_ext_in.
  intros r Hr. now rewrite (H r Hr).
Qed.

(** X6: recording an outcome or asking a retry for an id that no row
    carries changes nothing in the table, and [reset_all_failed] on a
    table without failed rows changes nothing either; none of them
    reports the miss. *)
Theorem updates_on_missing_rows (i : Z) (d : Db) :
  (forall r, In r (rows d) -> id r <> i) ->
  (forall st err now, update_email_status i st err now d = d) /\
  (forall now, reset_email_status i now d = d) /\
  (forall now, (forall r, In r (rows d) -> status r <> "failed") ->
               reset_all_failed now d = d).
Proof.
  intros H.
  assert (Hc : forall r, In r (rows d) -> (id r =? i) = false).
  { intros r Hr. apply Z.eqb_neq. now apply H. }
  split; [|split].
  - intros st err now. unfold update_email_status.
    destruct (st =? "sent")%string; now apply update_where_missing.
  - intros now. now apply update_where_missing.
  - intros now Hf. apply update_where_missing.
    intros r Hr. apply String.eqb_neq. now apply Hf.
Qed.

Lemma updates_on_missing_rows_witness :
  update_email_status 7 "sent" None 50 Samples.one_job = Samples.one_job.
Proof.
  apply (updates_on_missing_rows 7 Samples.one_job).
  simpl. intros r [<-|[]]. discriminate.
Defined.

End Lookups.

Section SchemaAndStats.
Import Store Props Views.

Lemma update_where_schema (cond : Row -> bool) (set : Row -> Row) (d : Db) :
  (forall r, id (set r) = id r) -> (forall r, email (set r) = email r) ->
  schema_ok d -> schema_ok (update_where cond set d).
Proof.
  intros Hid Hem (H1 & H2 & H3). unfold schema_ok, update_where; simpl.
  assert (Ei : map id (map (fun r => if cond r then set r else r) (rows d))
               = map id (rows d)).
  { rewrite map_map. apply map_ext. intros r. now destruct (cond r). }
  assert (Ee : map email (map (fun r => if cond r then set r else r) (rows d))
               = map email (rows d)).
  { rewrite map_map. apply map_ext. intros r. now destruct (cond r). }
  rewrite Ei, Ee. repeat split; auto.
  apply Forall_forall. intros x Hx. apply in_map_iff in Hx as (r & <- & Hr).
  rewrite Forall_forall in H3. specialize (H3 r Hr).
  destruct (cond r); [rewrite Hid|]; exact H3.
Qed.

Lemma update_where_emails (cond : Row -> bool) (set : Row -> Row) (d : Db) :
  (forall r, email (set r) = email r) ->
  map email (rows (update_where cond set d)) = map email (rows d).
Proof.
  intros Hem. unfold update_where; simpl. rewrite map_map.
  apply map_ext. intros r. now destruct (cond r).
Qed.

Lemma apply_op_schema (now : Z) (o : op) (d : Db) :
  schema_ok d -> schema_ok (apply_op now o d).
Proof.
  intros H. destruct o as [c|i st err|i|]; simpl.
  - now apply upsert_schema_ok.
  - unfold update_email_status.
    destruct (st =? "sent")%string; now apply update_where_schema.
  - now apply update_where_schema.
  - now apply update_where_schema.
Qed.

Lemma update_where_length (cond : Row -> bool) (set : Row -> Row) (d : Db) :
  List.length (rows (update_where cond set d)) = List.length (rows d).
Proof. unfold update_where; simpl. apply length_map. Qed.

Lemma apply_op_keeps_rows (now : Z) (o : op) (d : Db) :
  (List.length (rows d) <= List.length (rows (apply_op now o d)))%nat /\
  incl (map email (rows d)) (map email (rows (apply_op now o d))).
Proof.
  destruct o as [c|i st err|i|]; cbn [apply_op].
  - unfold upsert.
    destruct (existsb (has_email (c_email c)) (rows d)); simpl.
    + rewrite length_map. split; [lia|].
      rewrite map_map.
      rewrite (map_ext (fun x => email (if has_email (c_email c) x
                                        then set_conflict c x else x)) email).
      * apply incl_refl.
      * intros r. now destruct (has_email (c_email c) r).
    + destruct (existsb (fun r => id r =? id_seq d) (rows d)); simpl.
      * split; [lia|apply incl_refl].
      * rewrite length_app, map_app. split; [lia|]. now apply incl_appl, incl_refl.
  - unfold update_email_status.
    destruct (st =? "sent")%string;
      rewrite update_where_length, update_where_emails by reflexivity;
      (split; [lia|apply incl_refl]).
  - unfold reset_email_status.
    rewrite update_where_length, update_where_emails by reflexivity.
    split; [lia|apply incl_refl].
  - unfold reset_all_failed.
    rewrite update_where_length, update_where_emails by reflexivity.
    split; [lia|apply incl_refl].
Qed.

(** X7: no sequence of store operations breaks the key constraints of a
    table that meets its schema, removes a row or makes an email
    disappear: ids stay unique and below the sequence, emails stay
    unique, the number of rows never goes down. *)
Theorem operations_keep_schema_and_rows (l : list (Z * op)) (d : Db) :
  schema_ok d ->
  schema_ok (run_ops l d) /\
  (List.length (rows d) <= List.length (rows (run_ops l d)))%nat /\
  incl (map email (rows d)) (map email (rows (run_ops l d))).
Proof.
  revert d. induction l as [|[now o] t IH]; intros d H; simpl.
  - split; [exact H|]. split; [lia|apply incl_refl].
  - destruct (IH (apply_op now o d) (apply_op_schema now o d H)) as (A & B & C).
    destruct (apply_op_keeps_rows now o d) as [B' C'].
    split; [exact A|]. split; [lia|].
    eapply incl_tran; eassumption.
Qed.

Lemma operations_keep_schema_and_rows_witness :
  schema_ok (run_ops Samples.flow_example empty).
Proof.
  apply (operations_keep_schema_and_rows Samples.flow_example empty).
  exact schema_ok_empty.
Defined.

Lemma count_map_failed_reset (now : Z) (l : list Row) :
  List.length (filter is_pending
                 (map (fun r => if (status r =? "failed")%string
                                then set_pending now r else r) l))
  = (List.length (filter is_pending l)
     + List.length (filter (fun r => (status r =? "failed")%string) l))%nat /\
  filter (fun r => (status r =? "failed")%string)
         (map (fun r => if (status r =? "failed")%string
                        then set_pending now r else r) l) = [].
Proof.
  induction l as [|x t [IH1 IH2]]; simpl; [split; reflexivity|].
  destruct (status x =? "failed")%string eqn:E.
  - assert (Hp : is_pending x = false).
    { unfold is_pending. apply String.eqb_eq in E. now rewrite E. }
    change (is_pending (set_pending now x)) with true.
    change (status (set_pending now x) =? "failed")%string with false.
    rewrite Hp. simpl. rewrite IH1, IH2. split; [lia|reflexivity].
  - rewrite E. destruct (is_pending x); simpl; rewrite IH1, IH2;
      split; try reflexivity; lia.
Qed.

(** X8: after [reset_all_failed] no row is failed, every row that was
    failed is pending, so the statistics show failed = 0 and pending =
    former pending + former failed with the same total; a second call
    changes nothing. *)
Theorem reset_all_failed_requeues (now : Z) (d : Db) :
  let d' := reset_all_failed now d in
  n_failed (get_stats d') = 0%nat /\
  n_pending (get_stats d')
  = (n_pending (get_stats d) + n_failed (get_stats d))%nat /\
  total (get_stats d') = total (get_stats d) /\
  (forall now', reset_all_failed now' d' = d').
Proof.
  intros d'.
  assert (Hrows : rows d'
                  = map (fun r => if (status r =? "failed")%string
                                  then set_pending now r else r) (rows d))
    by reflexivity.
  destruct (count_map_failed_reset now (rows d)) as [H1 H2].
  unfold get_stats, count; cbn [n_failed n_pending total].
  rewrite Hrows, H1, H2, length_map.
  split; [reflexivity|]. split; [reflexivity|]. split; [reflexivity|].
  intros now'. unfold reset_all_failed at 1. apply update_where_missing.
  intros r Hr. rewrite Hrows in Hr.
  destruct (status r =? "failed")%string eqn:E; [|reflexivity].
  assert (Hin : In r (filter (fun r => (status r =? "failed")%string)
                        (map (fun r => if (status r =? "failed")%string
                                       then set_pending now r else r) (rows d))))
    by (apply filter_In; now split).
  rewrite H2 in Hin. contradiction.
Qed.

End SchemaAndStats.

Section Retries.
Import Store Props Views.

Lemma set_pending_idem (now : Z) (r : Row) :
  set_pending now (set_pending now r) = set_pending now r.
Proof. reflexivity. Qed.

(** Retries asked one id after the other amount to one update of the
    rows whose id is in the list. *)
Lemma fold_reset_email_status (now : Z) (ids : list Z) :
  forall d,
    fold_left (fun acc i => reset_email_status i now acc) ids d
    = update_where (fun r => existsb (Z.eqb (id r)) ids) (set_pending now) d.
Proof.
  induction ids as [|i t IH]; intros d; simpl.
  - symmetry. now apply update_where_missing.
  - rewrite IH. unfold reset_email_status, update_where; simpl. f_equal.
    rewrite map_map. apply map_ext. intros r.
    destruct (id r =? i) eqn:E; simpl.
    + now destruct (existsb (Z.eqb (id r)) t).
    + reflexivity.
Qed.

(** The ids of the list the Failed tab shows are the ids of the failed
    rows. *)
Lemma failed_ids (d : Db) (r : Row) :
  NoDup (map id (rows d)) ->
  In r (rows d) ->
  existsb (Z.eqb (id r)) (map id (get_emails_by_status "failed" d))
  = (status r =? "failed")%string.
Proof.
  intros Hnd Hr.
  destruct (status r =? "failed")%string eqn:E.
  - apply existsb_exists. exists (id r). split; [|apply Z.eqb_refl].
    apply in_map. unfold get_emails_by_status.
    apply order_by_In, filter_In. now split.
  - destruct (existsb (Z.eqb (id r)) (map id (get_emails_by_status "failed" d)))
      eqn:Hex; [|reflexivity].
    exfalso. apply existsb_exists in Hex as (j & Hj & Ej).
    apply Z.eqb_eq in Ej. apply in_map_iff in Hj as (r' & Hid & Hr').
    unfold get_emails_by_status in Hr'.
    apply order_by_In, filter_In in Hr' as [Hr' Hf].
    assert (r' = r).
    { pose proof (find_unique_id _ _ Hnd Hr) as F1.
      pose proof (find_unique_id _ _ Hnd Hr') as F2.
      assert (Heq : id r' = id r) by congruence.
      rewrite Heq in F2. congruence. }
    subst r'. congruence.
Qed.

Lemma existsb_same_members (x : Z) (l1 l2 : list Z) :
  (forall i, In i l1 <-> In i l2) ->
  existsb (Z.eqb x) l1 = existsb (Z.eqb x) l2.
Proof.
  intros H.
  destruct (existsb (Z.eqb x) l1) eqn:E1, (existsb (Z.eqb x) l2) eqn:E2;
    try reflexivity; exfalso.
  - apply existsb_exists in E1 as (j & Hj & Ej). apply H in Hj.
    assert (existsb (Z.eqb x) l2 = true) by (apply existsb_exists; eauto).
    congruence.
  - apply existsb_exists in E2 as (j & Hj & Ej). apply H in Hj.
    assert (existsb (Z.eqb x) l1 = true) by (apply existsb_exists; eauto).
    congruence.
Qed.

(** Retries clicked one after the other, each at its own time, act on
    each row by itself. *)
Lemma fold_retry_clicks (clicks : list (Z * Z)) :
  forall d,
    rows (fold_left (fun acc c => reset_email_status (fst c) (snd c) acc) clicks d)
    = map (fun r => fold_left retry_click clicks r) (rows d) /\
    id_seq (fold_left (fun acc c => reset_email_status (fst c) (snd c) acc) clicks d)
    = id_seq d.
Proof.
  induction clicks as [|c t IH]; intros d; cbn [fold_left].
  - split; [|reflexivity]. symmetry. apply map_id.
  - destruct (IH (reset_email_status (fst c) (snd c) d)) as [A B].
    rewrite A, B. unfold reset_email_status, update_where. cbn [rows id_seq].
    split; [|reflexivity]. rewrite map_map. reflexivity.
Qed.

(** The row after the clicks: reset if some click was on it, with the
    time of one of the clicks on it, else untouched. *)
Lemma retry_clicks_row (clicks : list (Z * Z)) :
  forall r,
    id (fold_left retry_click clicks r) = id r /\
    without_updated_at (fold_left retry_click clicks r)
    = without_updated_at
        (if existsb (Z.eqb (id r)) (map fst clicks) then set_pending 0 r else r) /\
    (existsb (Z.eqb (id r)) (map fst clicks) = true ->
     exists t, In (id r, t) clicks /\
               updated_at (fold_left retry_click clicks r) = t) /\
    (existsb (Z.eqb (id r)) (map fst clicks) = false ->
     fold_left retry_click clicks r = r).
Proof.
  induction clicks as [|[i t0] t IH]; intros r; cbn [fold_left map existsb fst].
  - repeat split; try (intros H; discriminate H); auto.
  - change (retry_click r (i, t0))
      with (if id r =? i then set_pending t0 r else r).
    destruct (Z.eqb_spec (id r) i) as [E|E]; cbn [orb].
    + destruct (IH (set_pending t0 r)) as (A & B & C & D).
      cbn [id set_pending] in A, B, C, D. fold (id r) in A, B, C, D.
      split; [exact A|]. split; [|split].
      * rewrite B. now destruct (existsb (Z.eqb (id r)) (map fst t)).
      * intros _.
        destruct (existsb (Z.eqb (id r)) (map fst t)) eqn:Ex.
        -- destruct (C eq_refl) as (t1 & Hin & Hup).
           exists t1. split; [now right|exact Hup].
        -- rewrite (D eq_refl). exists t0. split; [left; now rewrite E|reflexivity].
      * intros H. discriminate H.
    + destruct (IH r) as (A & B & C & D).
      split; [exact A|]. split; [exact B|]. split.
      * intros Ex. destruct (C Ex) as (t1 & Hin & Hup).
        exists t1. split; [now right|exact Hup].
      * exact D.
Qed.

Lemma count_without_updated_at (p : Row -> bool) (l1 l2 : list Row) :
  (forall r, p (without_updated_at r) = p r) ->
  map without_updated_at l1 = map without_updated_at l2 ->
  List.length (filter p l1) = List.length (filter p l2).
Proof.
  intros Hp H.
  assert (F : forall l, List.length (filter p (map without_updated_at l))
                        = List.length (filter p l)).
  { induction l as [|x t IH]; [reflexivity|]. cbn [map filter].
    rewrite Hp. destruct (p x); cbn [List.length]; now rewrite IH. }
  now rewrite <- (F l1), <- (F l2), H.
Qed.

(** X9: on a table with unique ids, when the "Retry" buttons of the
    Failed tab are clicked for the failed rows, in any order and each
    click at its own time, the table differs from the one that a single
    "Retry All Failed" gives in the column [updated_at] only: each
    retried row carries the time of a click on it instead of the time of
    the one statement; the statistics are the same; and the two tables
    are equal when all the statements run at the same time. *)
Theorem retry_each_is_retry_all (clicks : list (Z * Z)) (now : Z) (d : Db) :
  NoDup (map id (rows d)) ->
  (forall i, In i (map fst clicks)
             <-> In i (map id (get_emails_by_status "failed" d))) ->
  let d1 := fold_left (fun acc c => reset_email_status (fst c) (snd c) acc)
                      clicks d in
  map without_updated_at (rows d1)
  = map without_updated_at (rows (reset_all_failed now d)) /\
  id_seq d1 = id_seq (reset_all_failed now d) /\
  get_stats d1 = get_stats (reset_all_failed now d) /\
  (forall r, In r (rows d) -> status r = "failed"%string ->
             exists x t, In x (rows d1) /\ id x = id r /\
                         status x = "pending"%string /\
                         In (id r, t) clicks /\ updated_at x = t) /\
  (forall r, In r (rows d) -> status r <> "failed"%string -> In r (rows d1)) /\
  ((forall c, In c clicks -> snd c = now) -> d1 = reset_all_failed now d).
Proof.
  intros Hnd Hclicks d1.
  destruct (fold_retry_clicks clicks d) as [Hrows Hseq]. fold d1 in Hrows, Hseq.
  assert (Hex : forall r, In r (rows d) ->
                          existsb (Z.eqb (id r)) (map fst clicks)
                          = (status r =? "failed")%string).
  { intros r Hr. rewrite <- (failed_ids d r Hnd Hr).
    now apply existsb_same_members. }
  assert (Hmap : map without_updated_at (rows d1)
                 = map without_updated_at (rows (reset_all_failed now d))).
  { rewrite Hrows. unfold reset_all_failed, update_where. cbn [rows].
    rewrite !map_map. apply map_ext_in. intros r Hr.
    destruct (retry_clicks_row clicks r) as (_ & B & _).
    rewrite B, (Hex r Hr). now destruct (status r =? "failed")%string. }
  split; [exact Hmap|]. split; [exact Hseq|]. split; [|split; [|split]].
  - unfold get_stats, count. f_equal.
    + rewrite <- (length_map without_updated_at (rows d1)), Hmap.
      apply length_map.
    + now apply count_without_updated_at.
    + now apply count_without_updated_at.
    + now apply count_without_updated_at.
  - intros r Hr Hst.
    destruct (retry_clicks_row clicks r) as (A & B & C & _).
    assert (Ex : existsb (Z.eqb (id r)) (map fst clicks) = true).
    { rewrite (Hex r Hr). now apply String.eqb_eq. }
    destruct (C Ex) as (t & Hin & Hup).
    exists (fold_left retry_click clicks r), t.
    split; [rewrite Hrows; now apply (in_map (fun r => fold_left retry_click clicks r))|].
    split; [exact A|]. split; [|split; [exact Hin|exact Hup]].
    rewrite Ex in B.
    change (status (fold_left retry_click clicks r))
      with (status (without_updated_at (fold_left retry_click clicks r))).
    now rewrite B.
  - intros r Hr Hst.
    destruct (retry_clicks_row clicks r) as (_ & _ & _ & D).
    assert (Ex : existsb (Z.eqb (id r)) (map fst clicks) = false).
    { rewrite (Hex r Hr). now apply String.eqb_neq. }
    rewrite Hrows. apply in_map_iff. exists r. split; [now apply D|exact Hr].
  - intros Hsame.
    assert (Hfold : forall l acc,
               (forall c, In c l -> snd c = now) ->
               fold_left (fun acc c => reset_email_status (fst c) (snd c) acc) l acc
               = fold_left (fun acc i => reset_email_status i now acc)
                           (map fst l) acc).
    { induction l as [|c t IH]; intros acc Hl; [reflexivity|].
      cbn [fold_left map]. rewrite (Hl c) by now left.
      apply IH. intros c' Hc'. apply Hl. now right. }
    unfold d1. rewrite (Hfold clicks d Hsame), fold_reset_email_status.
    unfold reset_all_failed, update_where. f_equal.
    apply map_ext_in. intros r Hr. now rewrite (Hex r Hr).
Qed.

Lemma retry_each_is_retry_all_witness :
  map without_updated_at
      (rows (fold_left (fun acc c => reset_email_status (fst c) (snd c) acc)
                       [(1, 41)] (run_ops Samples.retry_example empty)))
  = map without_updated_at
        (rows (reset_all_failed 40 (run_ops Samples.retry_example empty))).
Proof.
  apply (retry_each_is_retry_all [(1, 41)] 40
           (run_ops Samples.retry_example empty)).
  - simpl. repeat constructor. simpl. tauto.
  - intros i. vm_compute. tauto.
Defined.

Lemma flag_agrees_partition (l : list Row) :
  Forall flag_agrees l ->
  List.length l
  = (List.length (filter (fun r => sent r) l)
     + List.length (filter is_pending l)
     + List.length (filter (fun r => (status r =? "failed")%string) l))%nat.
Proof.
  induction 1 as [|x t Hx _ IH]; simpl; [reflexivity|].
  destruct Hx as [Hst Hflag]. unfold is_pending at 1.
  destruct (sent x) eqn:Es.
  - assert (E : status x = "sent") by now apply Hflag.
    rewrite E. simpl. lia.
  - destruct Hst as [E|[E|E]]; rewrite E; simpl; try lia.
    apply Hflag in E. discriminate E.
Qed.

Lemma update_where_flag (cond : Row -> bool) (set : Row -> Row) (d : Db) :
  Forall flag_agrees (rows d) ->
  (forall r, In r (rows d) -> cond r = true -> flag_agrees r -> flag_agrees (set r)) ->
  Forall flag_agrees (rows (update_where cond set d)).
Proof. apply update_where_Forall. Qed.

Lemma apply_op_flag (now : Z) (o : op) (d : Db) :
  Forall flag_agrees (rows d) -> in_flow d o ->
  Forall flag_agrees (rows (apply_op now o d)).
Proof.
  intros H Hf.
  assert (Hnew : forall r, status r = "pending" -> sent r = false -> flag_agrees r).
  { intros r E1 E2. split; [now left|]. rewrite E1, E2. split; discriminate. }
  destruct o as [c|i st err|i|]; cbn [apply_op] in *.
  - unfold upsert. destruct (existsb (has_email (c_email c)) (rows d)); simpl.
    + apply Forall_forall. intros x Hx. apply in_map_iff in Hx as (r & <- & Hr).
      rewrite Forall_forall in H.
      destruct (has_email (c_email c) r); [now apply Hnew|now apply H].
    + destruct (existsb (fun r => id r =? id_seq d) (rows d)); simpl; auto.
      apply Forall_app. split; [exact H|].
      constructor; [now apply Hnew|constructor].
  - destruct Hf as [Hp Hst]. unfold update_email_status.
    destruct Hst as [->|[-> _]]; simpl;
      apply update_where_flag; auto; intros r Hr Hid [_ Hflag].
    + split; simpl; [tauto|]. split; reflexivity.
    + apply Z.eqb_eq in Hid. specialize (Hp r Hr Hid).
      split; simpl; [tauto|]. rewrite Hflag, Hp. split; discriminate.
  - cbn [in_flow] in Hf. apply update_where_flag; auto.
  - apply update_where_flag; auto.
Qed.

(** X10: along the transitions the loop and the dashboard intend
    (outcomes recorded for pending rows, retries of failed rows,
    upserts), starting from a table whose [sent] flags agree with the
    statuses, the statistics do partition the table:
    total = sent + pending + failed. *)
Theorem stats_partition_along_flows (l : list (Z * op)) (d : Db) :
  Forall flag_agrees (rows d) ->
  flows l d ->
  Forall flag_agrees (rows (run_ops l d)) /\
  total (get_stats (run_ops l d))
  = (n_sent (get_stats (run_ops l d))
     + n_pending (get_stats (run_ops l d))
     + n_failed (get_stats (run_ops l d)))%nat.
Proof.
  intros H Hfl.
  assert (Hall : Forall flag_agrees (rows (run_ops l d))).
  { revert d H Hfl. induction l as [|[now o] t IH]; intros d H Hfl; simpl in *.
    - exact H.
    - destruct Hfl as [Ho Ht]. apply IH; [|exact Ht].
      now apply apply_op_flag. }
  split; [exact Hall|].
  unfold get_stats, count; simpl. now apply flag_agrees_partition.
Qed.

Lemma stats_partition_along_flows_witness :
  total (get_stats (run_ops Samples.flow_example empty))
  = (n_sent (get_stats (run_ops Samples.flow_example empty))
     + n_pending (get_stats (run_ops Samples.flow_example empty))
     + n_failed (get_stats (run_ops Samples.flow_example empty)))%nat.
Proof.
  apply (stats_partition_along_flows Samples.flow_example empty).
  - constructor.
  - simpl. repeat split; auto;
      try (intros r [<-|[]] _; reflexivity);
      try (right; split; [reflexivity|discriminate]).
Defined.

End Retries.

(* ================================================================= *)
(** * Further properties of the upsert and of the scripts *)

Section Upserts.
Import Store Props Views Scripts.

Lemma on_conflict_other (c : Contact) (r : Row) :
  email r <> c_email c -> on_conflict c r = r.
Proof.
  intros H. unfold on_conflict, has_email.
  apply String.eqb_neq in H. now rewrite H.
Qed.

Lemma has_email_true (e : string) (r : Row) : has_email e r = true <-> email r = e.
Proof. unfold has_email. apply String.eqb_eq. Qed.

Lemma filter_has_email_In (e : string) (l : list Row) (r : Row) :
  In r (filter (has_email e) l) <-> In r l /\ email r = e.
Proof. now rewrite filter_In, has_email_true. Qed.

Lemma upsert_other_email (c : Contact) (now : Z) (d : Db) (e : string) :
  e <> c_email c ->
  filter (has_email e) (rows (fst (upsert c now d)))
  = filter (has_email e) (rows d).
Proof.
  intros He. unfold upsert.
  destruct (existsb (has_email (c_email c)) (rows d)); simpl.
  - fold (on_conflict c). rewrite (filter_map_on_conflict c e).
    rewrite <- (map_id (filter (has_email e) (rows d))) at 2.
    apply map_ext_in. intros r Hr. apply filter_has_email_In in Hr as [_ Hr].
    apply on_conflict_other. congruence.
  - destruct (existsb (fun r => id r =? id_seq d) (rows d)); simpl; [reflexivity|].
    rewrite filter_app; simpl. unfold has_email at 2; simpl.
    assert (E : (c_email c =? e)%string = false) by (apply String.eqb_neq; congruence).
    rewrite E. apply app_nil_r.
Qed.

Lemma set_conflict_settled (c : Contact) (r : Row) :
  email r = c_email c -> settled c (set_conflict c r).
Proof. intros H. unfold settled; simpl. repeat split; auto. Qed.

Lemma settled_fixed (c : Contact) (r : Row) :
  settled c r -> set_conflict c r = r.
Proof.
  intros (H1 & H2 & H3 & H4 & H5 & H6 & H7 & H8).
  destruct r; simpl in *; subst. reflexivity.
Qed.

(** X11: an upsert always draws one value from the sequence; it leaves
    the rows of every other email as they were; for an email that is
    already there it does not raise and rewrites the row as a fresh
    pending job with the submitted name, title and company, while the
    row keeps its id, its serial number (the submitted one is ignored)
    and its timestamps; and when it raises the table has not changed. *)
Theorem upsert_keeps_identity (c : Contact) (now : Z) (d : Db) :
  id_seq (fst (upsert c now d)) = id_seq d + 1 /\
  (forall e, e <> c_email c ->
             filter (has_email e) (rows (fst (upsert c now d)))
             = filter (has_email e) (rows d)) /\
  (forall r, In r (rows d) -> email r = c_email c ->
             snd (upsert c now d) = None /\
             exists r', In r' (rows (fst (upsert c now d))) /\ settled c r' /\
                        id r' = id r /\ serial_number r' = serial_number r /\
                        created_at r' = created_at r /\
                        updated_at r' = updated_at r) /\
  (snd (upsert c now d) <> None ->
   rows (fst (upsert c now d)) = rows d /\
   ~ In (c_email c) (map email (rows d)) /\
   In (id_seq d) (map id (rows d))).
Proof.
  split; [|split; [|split]].
  - unfold upsert.
    destruct (existsb (has_email (c_email c)) (rows d)); [reflexivity|].
    now destruct (existsb (fun r => id r =? id_seq d) (rows d)).
  - intros e He. now apply upsert_other_email.
  - intros r Hr He.
    assert (E : existsb (has_email (c_email c)) (rows d) = true).
    { apply existsb_has_email. rewrite <- He. now apply in_map. }
    rewrite (upsert_conflict c now d E); simpl. split; [reflexivity|].
    exists (set_conflict c r). split.
    + apply in_map_iff. exists r. split; [|exact Hr].
      unfold on_conflict. apply has_email_true in He. now rewrite He.
    + split; [now apply set_conflict_settled|]. repeat split.
  - unfold upsert.
    destruct (existsb (has_email (c_email c)) (rows d)) eqn:E1; simpl;
      [congruence|].
    destruct (existsb (fun r => id r =? id_seq d) (rows d)) eqn:E2; simpl;
      [|congruence].
    intros _. split; [reflexivity|]. split.
    + intros Hin. apply existsb_has_email in Hin. congruence.
    + apply existsb_exists in E2 as (r & Hr & Hid). apply Z.eqb_eq in Hid.
      rewrite <- Hid. now apply in_map.
Qed.

Lemma upsert_settles (c : Contact) (now : Z) (d : Db) :
  schema_ok d ->
  exists r, filter (has_email (c_email c)) (rows (fst (upsert c now d))) = [r] /\
            settled c r.
Proof.
  intros (Hid & Hem & Hlt).
  destruct (existsb (has_email (c_email c)) (rows d)) eqn:E.
  - rewrite (upsert_conflict c now d E); simpl.
    apply existsb_has_email in E.
    destruct (unique_email_filter _ _ Hem E) as (r0 & Hr0).
    assert (H0 : email r0 = c_email c).
    { apply (filter_has_email_In (c_email c) (rows d) r0). rewrite Hr0. now left. }
    exists (set_conflict c r0). rewrite filter_map_on_conflict, Hr0; simpl.
    unfold on_conflict. apply has_email_true in H0 as H0'. rewrite H0'.
    split; [reflexivity|now apply set_conflict_settled].
  - rewrite (upsert_insert c now d E (fresh_id_unused d Hlt)); simpl.
    exists (new_row (id_seq d) c now). rewrite filter_app; simpl.
    rewrite filter_has_email_none.
    + unfold has_email; simpl. rewrite String.eqb_refl. split; [reflexivity|].
      unfold settled; simpl. repeat split.
    + intros Hin. apply existsb_has_email in Hin. congruence.
Qed.

Lemma upsert_settled_noop (c : Contact) (now : Z) (d : Db) (r : Row) :
  filter (has_email (c_email c)) (rows d) = [r] -> settled c r ->
  rows (fst (upsert c now d)) = rows d.
Proof.
  intros Hf Hs.
  assert (E : existsb (has_email (c_email c)) (rows d) = true).
  { apply existsb_exists. exists r.
    apply filter_In. rewrite Hf. now left. }
  rewrite (upsert_conflict c now d E); simpl.
  rewrite <- (map_id (rows d)) at 2. apply map_ext_in. intros x Hx.
  unfold on_conflict. destruct (has_email (c_email c) x) eqn:Ex; [|reflexivity].
  assert (Hin : In x (filter (has_email (c_email c)) (rows d)))
    by (apply filter_In; now split).
  rewrite Hf in Hin. destruct Hin as [<-|[]]. now apply settled_fixed.
Qed.

(** The upserts of a list of contacts, one after the other. *)
Lemma fold_upserts (cs : list Contact) (now : Z) :
  forall d,
    schema_ok d ->
    NoDup (map c_email cs) ->
    let d' := fold_left (fun acc c => fst (upsert c now acc)) cs d in
    schema_ok d' /\
    (forall e, ~ In e (map c_email cs) ->
               filter (has_email e) (rows d') = filter (has_email e) (rows d)) /\
    (forall c, In c cs ->
               exists r, filter (has_email (c_email c)) (rows d') = [r] /\
                         settled c r) /\
    Scripts.upsert_loop cs now d = (d', None).
Proof.
  induction cs as [|c0 t IH]; intros d Hok Hnd; simpl.
  - split; [exact Hok|]. split; [reflexivity|]. split; [|reflexivity].
    intros c Hc. destruct Hc.
  - inversion Hnd as [|? ? Hc0 Ht]; subst.
    destruct (upsert_schema_ok c0 now d Hok) as (Hok1 & Hnone & _).
    destruct (IH (fst (upsert c0 now d)) Hok1 Ht) as (A & B & C & D).
    split; [exact A|]. split; [|split].
    + intros e He. rewrite B by tauto.
      apply upsert_other_email. intros ->. tauto.
    + intros c [<-|Hc]; [|now apply C].
      rewrite (B (c_email c0) Hc0). now apply upsert_settles.
    + destruct (upsert c0 now d) as [d1 [e|]]; simpl in *; [discriminate|exact D].
Qed.

Lemma fold_upserts_noop (cs : list Contact) (now : Z) :
  forall d,
    (forall c, In c cs ->
               exists r, filter (has_email (c_email c)) (rows d) = [r] /\
                         settled c r) ->
    rows (fold_left (fun acc c => fst (upsert c now acc)) cs d) = rows d.
Proof.
  induction cs as [|c0 t IH]; intros d H; simpl; [reflexivity|].
  destruct (H c0 (or_introl eq_refl)) as (r & Hf & Hs).
  pose proof (upsert_settled_noop c0 now d r Hf Hs) as E.
  rewrite IH; [exact E|].
  intros c Hc. rewrite E. apply H. now right.
Qed.

Lemma distinct_strings_NoDup (l : list string) :
  distinct_strings l = true -> NoDup l.
Proof.
  induction l as [|x t IH]; simpl; intros H; constructor.
  - apply andb_true_iff in H as [H _]. intros Hin.
    apply negb_true_iff in H.
    assert (existsb (String.eqb x) t = true).
    { apply existsb_exists. exists x. split; [exact Hin|apply String.eqb_refl]. }
    congruence.
  - apply IH. now apply andb_true_iff in H as [_ H].
Qed.

Lemma test_contacts_distinct : NoDup (map c_email test_contacts).
Proof.
  apply distinct_strings_NoDup. vm_compute. reflexivity.
Qed.

(** X12: whatever the table, as long as it meets its schema,
    [add_test_contacts] leaves it meeting its schema with exactly one row
    for each of the ten test contacts, pending and carrying the name,
    title and company of the list; rows of other emails are untouched;
    and running it again changes no row. *)
Theorem add_test_contacts_settles (now : Z) (d : Db) :
  schema_ok d ->
  let d' := add_test_contacts now d in
  schema_ok d' /\
  (forall c, In c test_contacts ->
             exists r, filter (has_email (c_email c)) (rows d') = [r] /\
                       settled c r) /\
  (forall e, ~ In e (map c_email test_contacts) ->
             filter (has_email e) (rows d') = filter (has_email e) (rows d)) /\
  (forall now', rows (add_test_contacts now' d') = rows d').
Proof.
  intros Hok d'.
  destruct (fold_upserts test_contacts now d Hok test_contacts_distinct)
    as (A & B & C & _).
  split; [exact A|]. split; [exact C|]. split; [exact B|].
  intros now'. unfold add_test_contacts at 1. now apply fold_upserts_noop.
Qed.

Lemma add_test_contacts_settles_witness :
  rows (add_test_contacts 20 (add_test_contacts 10 Samples.one_job))
  = rows (add_test_contacts 10 Samples.one_job).
Proof.
  apply (add_test_contacts_settles 10 Samples.one_job).
  repeat split; simpl; repeat constructor; simpl; try tauto; lia.
Defined.

Lemma set_requeued_fields (r : Row) :
  email (set_requeued r) = email r /\ id (set_requeued r) = id r /\
  serial_number (set_requeued r) = serial_number r.
Proof. repeat split. Qed.

Lemma script_requeues (cs : list Contact) (now : Z) (d : Db) :
  schema_ok d ->
  NoDup (map c_email cs) ->
  match upsert_loop cs now d with
  | (d', None) => (reset_old_test_contacts d', None)
  | (d', Some e) => (d', Some e)
  end
  = (reset_old_test_contacts
       (fold_left (fun acc c => fst (upsert c now acc)) cs d), None) /\
  (forall r,
      In r (rows (reset_old_test_contacts
                    (fold_left (fun acc c => fst (upsert c now acc)) cs d))) ->
      In (email r) (old_test_emails ++ map c_email cs) ->
      status r = "pending" /\ sent r = false /\
      error_message r = None /\ sent_at r = None).
Proof.
  intros Hok Hnd.
  destruct (fold_upserts cs now d Hok Hnd) as (_ & _ & C & D).
  split; [now rewrite D|].
  intros r Hr Hem. unfold reset_old_test_contacts, update_where in Hr.
  cbn [rows] in Hr.
  apply in_map_iff in Hr as (x & <- & Hx).
  destruct (existsb (String.eqb (email x)) old_test_emails) eqn:Eold.
  - repeat split.
  - apply in_app_or in Hem as [Hem|Hem].
    + exfalso.
      assert (Ht : existsb (String.eqb (email x)) old_test_emails = true).
      { apply existsb_exists. exists (email x).
        split; [exact Hem|apply String.eqb_refl]. }
      rewrite Ht in Eold. discriminate Eold.
    + apply in_map_iff in Hem as (c & Hc & Hin).
      destruct (C c Hin) as (r0 & Hf & Hs).
      assert (Hx' : In x (filter (has_email (c_email c))
                            (rows (fold_left (fun acc c => fst (upsert c now acc))
                                             cs d)))).
      { apply filter_has_email_In. split; [exact Hx|symmetry; exact Hc]. }
      rewrite Hf in Hx'. destruct Hx' as [<-|[]].
      destruct Hs as (_ & _ & _ & _ & H5 & H6 & H7 & H8).
      split; [exact H5|]. split; [exact H6|]. split; [exact H7|exact H8].
Qed.

(** X13: on a table that meets its schema [add_tests.py] runs to its end
    without an exception, makes the same table as the "Add Test Contacts"
    button followed by the reset of the two old addresses, and leaves
    every row of a test contact or of an old address pending, unsent,
    without error message and, unlike [reset_email_status], without send
    time. *)
Theorem add_tests_requeues (now : Z) (d : Db) :
  schema_ok d ->
  add_tests now d = (reset_old_test_contacts (add_test_contacts now d), None) /\
  (forall r, In r (rows (reset_old_test_contacts (add_test_contacts now d))) ->
             In (email r) (old_test_emails ++ map c_email test_contacts) ->
             status r = "pending" /\ sent r = false /\
             error_message r = None /\ sent_at r = None).
Proof.
  intros Hok.
  exact (script_requeues test_contacts now d Hok test_contacts_distinct).
Qed.

Lemma add_tests_requeues_witness :
  add_tests 10 (run_ops Samples.retry_example empty)
  = (reset_old_test_contacts
       (add_test_contacts 10 (run_ops Samples.retry_example empty)), None).
Proof.
  apply (add_tests_requeues 10 (run_ops Samples.retry_example empty)).
  repeat split; simpl; repeat constructor; simpl; try tauto; lia.
Defined.

Lemma upsert_keeps_serial (c : Contact) (now : Z) (d : Db) (e : string) :
  In e (map email (rows d)) ->
  (forall r, In r (rows d) -> email r = e -> serial_is_zero r = false) ->
  In e (map email (rows (fst (upsert c now d)))) /\
  (forall r, In r (rows (fst (upsert c now d))) -> email r = e ->
             serial_is_zero r = false).
Proof.
  intros Hin Hall. unfold upsert.
  destruct (existsb (has_email (c_email c)) (rows d)) eqn:E1; simpl.
  - split.
    + rewrite map_map.
      rewrite (map_ext (fun x => email (if has_email (c_email c) x
                                        then set_conflict c x else x)) email);
        [exact Hin|].
      intros r. now destruct (has_email (c_email c) r).
    + intros r Hr He. apply in_map_iff in Hr as (x & <- & Hx).
      destruct (has_email (c_email c) x); [|now apply Hall].
      simpl in He. unfold serial_is_zero; simpl.
      now apply (Hall x Hx).
  - destruct (existsb (fun r => id r =? id_seq d) (rows d)); simpl;
      [now split|].
    split.
    + rewrite map_app. apply in_or_app. now left.
    + intros r Hr He. apply in_app_or in Hr as [Hr|[<-|[]]]; [now apply Hall|].
      simpl in He. exfalso.
      assert (existsb (has_email (c_email c)) (rows d) = true)
        by (apply existsb_has_email; now rewrite He).
      congruence.
Qed.

Lemma upsert_loop_keeps_serial (cs : list Contact) (now : Z) (e : string) :
  forall d,
    In e (map email (rows d)) ->
    (forall r, In r (rows d) -> email r = e -> serial_is_zero r = false) ->
    forall r, In r (rows (fst (upsert_loop cs now d))) -> email r = e ->
              serial_is_zero r = false.
Proof.
  induction cs as [|c t IH]; intros d Hin Hall; simpl; [exact Hall|].
  destruct (upsert_keeps_serial c now d e Hin Hall) as [Hin' Hall'].
  destruct (upsert c now d) as [d1 [err|]]; simpl in *; [exact Hall'|].
  now apply IH.
Qed.

(** X14: [add_tests.py] never moves a contact that is already in the
    table into the test lane: if the rows of an email have a serial
    number other than 0 (or none), the listing [WHERE serial_number = 0]
    that ends the script does not show that email, even when it is one
    of the contacts the script has just upserted. *)
Theorem add_tests_listing_misses_existing (now : Z) (d : Db) (e : string) :
  In e (map email (rows d)) ->
  (forall r, In r (rows d) -> email r = e -> serial_is_zero r = false) ->
  forall x, In x (listed_test_contacts (fst (add_tests now d))) -> email x <> e.
Proof.
  intros Hin Hall x Hx He.
  unfold listed_test_contacts in Hx. apply filter_In in Hx as [Hx Hz].
  pose proof (upsert_loop_keeps_serial test_contacts now e d Hin Hall) as Hloop.
  unfold add_tests in Hx.
  destruct (upsert_loop test_contacts now d) as [d1 [err|]]; cbn [fst] in *.
  - rewrite (Hloop x Hx He) in Hz. discriminate Hz.
  - unfold reset_old_test_contacts, update_where in Hx. cbn [rows] in Hx.
    apply in_map_iff in Hx as (y & <- & Hy).
    destruct (existsb (String.eqb (email y)) old_test_emails).
    + change (email y = e) in He. change (serial_is_zero y = true) in Hz.
      rewrite (Hloop y Hy He) in Hz. discriminate Hz.
    + rewrite (Hloop y Hy He) in Hz. discriminate Hz.
Qed.

Lemma add_tests_listing_misses_existing_witness :
  Forall (fun x => email x <> "chiragj2019+google@gmail.com")
         (listed_test_contacts
            (fst (add_tests 2
                    (fst (upsert (Samples.contact 7 "chiragj2019+google@gmail.com")
                                 1 empty))))).
Proof.
  apply Forall_forall.
  apply (add_tests_listing_misses_existing 2
           (fst (upsert (Samples.contact 7 "chiragj2019+google@gmail.com") 1 empty))
           "chiragj2019+google@gmail.com").
  - vm_compute. left. reflexivity.
  - intros r Hin _. vm_compute in Hin. destruct Hin as [<-|[]]. reflexivity.
Defined.

Lemma like_test_contacts :
  forallb (fun c => like_chiragj2019 (c_email c)) test_contacts = true.
Proof. vm_compute. reflexivity. Qed.

Lemma check_test_rows_cover (cs : list Contact) (now : Z) (d : Db) :
  schema_ok d ->
  NoDup (map c_email cs) ->
  forallb (fun c => like_chiragj2019 (c_email c)) cs = true ->
  (forall c, In c cs ->
             exists r,
               In r (check_test_rows
                       (fold_left (fun acc c => fst (upsert c now acc)) cs d)) /\
               email r = c_email c) /\
  (List.length cs
   <= List.length (check_test_rows
                     (fold_left (fun acc c => fst (upsert c now acc)) cs d)))%nat.
Proof.
  intros Hok Hnd Hlike.
  destruct (fold_upserts cs now d Hok Hnd) as (_ & _ & C & _).
  set (d' := fold_left (fun acc c => fst (upsert c now acc)) cs d) in *.
  assert (Hall : forall c, In c cs ->
                           exists r, In r (check_test_rows d') /\ email r = c_email c).
  { intros c Hc. destruct (C c Hc) as (r & Hf & Hs).
    assert (Hr : In r (rows d') /\ email r = c_email c).
    { apply filter_has_email_In. rewrite Hf. now left. }
    exists r. split; [|apply Hr].
    unfold check_test_rows. apply filter_In. split; [apply Hr|].
    destruct Hr as [_ ->].
    rewrite forallb_forall in Hlike. rewrite (Hlike c Hc). apply orb_true_r. }
  split; [exact Hall|].
  rewrite <- (length_map email (check_test_rows d')).
  rewrite <- (length_map c_email cs).
  apply NoDup_incl_length; [exact Hnd|].
  intros e He. apply in_map_iff in He as (c & <- & Hc).
  destruct (Hall c Hc) as (r & Hr & <-). now apply in_map.
Qed.

(** X15: after "Add Test Contacts" on a table that meets its schema,
    [check_test.py] finds test contacts: its first query returns a row
    for each of the ten contacts, hence at least ten rows, and the script
    does not take its "NO TEST CONTACTS FOUND" branch. *)
Theorem check_test_finds_test_contacts (now : Z) (d : Db) :
  schema_ok d ->
  check_test (add_test_contacts now d)
  = TestContacts (check_test_rows (add_test_contacts now d)) /\
  (forall c, In c test_contacts ->
             exists r, In r (check_test_rows (add_test_contacts now d)) /\
                       email r = c_email c) /\
  (10 <= List.length (check_test_rows (add_test_contacts now d)))%nat.
Proof.
  intros Hok.
  pose proof (check_test_rows_cover test_contacts now d Hok
                test_contacts_distinct like_test_contacts) as H.
  unfold add_test_contacts.
  set (found := check_test_rows
                  (fold_left (fun acc c => fst (upsert c now acc)) test_contacts d))
    in *.
  destruct H as [Hall Hlen].
  assert (Hten : List.length test_contacts = 10%nat) by reflexivity.
  rewrite Hten in Hlen.
  split; [|split; [exact Hall|exact Hlen]].
  unfold check_test. fold found.
  destruct found as [|x t]; [cbn [List.length] in Hlen; lia|reflexivity].
Qed.

Lemma check_test_finds_test_contacts_witness :
  (10 <= List.length (check_test_rows (add_test_contacts 10 Samples.one_job)))%nat.
Proof.
  apply (check_test_finds_test_contacts 10 Samples.one_job).
  repeat split; simpl; repeat constructor; simpl; try tauto; lia.
Defined.

End Upserts.

(* ================================================================= *)
(** * Further properties of the controls and of the dashboard *)

Section ControlsAndDashboard.
Import Store Views Dashboard.

(** X16: seen through the run mode of the status badge, the four
    controls are the transitions of a three-state machine whatever the
    flags hide: start takes Stopped to Running and is otherwise without
    effect, pause takes Running to Paused, resume takes Paused to
    Running, stop leads to Stopped from everywhere and clears the current
    job; a thread is created by start on a stopped worker and by nothing
    else. *)
Theorem controls_follow_mode_machine (c : CampaignWorker.command)
        (w : CampaignWorker.t) :
  CampaignWorker.mode (CampaignWorker.exec c w)
  = next_mode c (CampaignWorker.mode w) /\
  (CampaignWorker.thread (CampaignWorker.exec c w) <> CampaignWorker.thread w
   <-> c = CampaignWorker.Start /\
       CampaignWorker.mode w = CampaignWorker.Stopped) /\
  CampaignWorker.status (CampaignWorker.exec CampaignWorker.Stop w)
  = (CampaignWorker.Stopped, None) /\
  (forall cs,
      CampaignWorker.mode (CampaignWorker.exec_all cs w)
      = fold_left (fun m c' => next_mode c' m) cs (CampaignWorker.mode w)).
Proof.
  assert (Hstep : forall c' w',
             CampaignWorker.mode (CampaignWorker.exec c' w')
             = next_mode c' (CampaignWorker.mode w')).
  { intros c' [r p ce th]. destruct c', r, p; reflexivity. }
  split; [apply Hstep|]. split; [|split; [reflexivity|]].
  - destruct w as [r p ce [n|]]; destruct c, r, p;
      unfold CampaignWorker.mode; simpl;
      unfold CampaignWorker.next_thread; simpl;
      split; try tauto;
      try (intros [H1 H2]; discriminate);
      try (intros _; split; reflexivity);
      try (intros _ H; injection H; lia);
      try (intros _ H; discriminate H).
  - intros cs. revert w. induction cs as [|c' t IH]; intros w; [reflexivity|].
    unfold CampaignWorker.exec_all in *. simpl. rewrite IH. f_equal. apply Hstep.
Qed.

(** X17: the sidebar draws only controls that change the run mode:
    every button that is enabled sends the command its label names and
    the run mode after the click differs from the one before; the Pause
    button is drawn exactly when the worker is running and not paused,
    the Stop button exactly when it is not stopped, and the Start button
    is disabled exactly when the statistics count no pending job. *)
Theorem sidebar_offers_effective_controls (w : CampaignWorker.t) (stats : Stats) :
  (forall b, In b (sidebar w stats) ->
             match command_of b with
             | Some c =>
                 click b w = CampaignWorker.exec c w /\
                 CampaignWorker.mode (click b w) <> CampaignWorker.mode w
             | None =>
                 click b w = w /\ n_pending stats = 0%nat /\
                 CampaignWorker.mode w = CampaignWorker.Stopped
             end) /\
  (In PauseButton (sidebar w stats)
   <-> CampaignWorker.mode w = CampaignWorker.Running) /\
  (In StopCampaign (sidebar w stats)
   <-> CampaignWorker.mode w <> CampaignWorker.Stopped) /\
  (In (StartCampaign true) (sidebar w stats)
   <-> CampaignWorker.mode w = CampaignWorker.Stopped /\ n_pending stats = 0%nat).
Proof.
  destruct w as [r p ce th]. unfold sidebar; simpl.
  destruct (Nat.eqb_spec (n_pending stats) 0) as [E|E];
    destruct r, p; unfold CampaignWorker.mode; simpl;
    (split; [intros b Hb|]);
    repeat match goal with
           | H : _ \/ _ |- _ => destruct H
           | H : False |- _ => destruct H
           end;
    subst; simpl;
    repeat split; intros;
    repeat match goal with
           | H : _ \/ _ |- _ => destruct H
           | H : _ /\ _ |- _ => destruct H
           | H : False |- _ => destruct H
           end;
    try discriminate; try congruence; auto.
Qed.

End ControlsAndDashboard.

Section CustomSend.
Import Store Views Dashboard.

Lemma total_pages_bounds (n : nat) :
  (1 <= total_pages n)%nat /\
  (n <= total_pages n * 10)%nat /\
  ((0 < n)%nat -> ((total_pages n - 1) * 10 < n)%nat).
Proof.
  unfold total_pages, page_size.
  pose proof (Nat.div_mod_eq (n + 10 - 1) 10) as Hd.
  pose proof (Nat.mod_upper_bound (n + 10 - 1) 10 ltac:(lia)) as Hm.
  destruct (Nat.max_spec 1 ((n + 10 - 1) / 10)) as [[H1 H2]|[H1 H2]];
    rewrite H2; lia.
Qed.

Lemma shown_page_bound (page n : nat) :
  (shown_page page n < total_pages n)%nat /\
  ((page < total_pages n)%nat -> shown_page page n = page) /\
  ((total_pages n <= page)%nat -> shown_page page n = 0%nat).
Proof.
  unfold shown_page. destruct (total_pages_bounds n) as (H1 & _ & _).
  destruct (Nat.leb_spec (total_pages n) page); repeat split; lia.
Qed.

Lemma emails_page_length (page : nat) (l : list Row) :
  List.length (emails_page page l)
  = Nat.min 10 (List.length l - shown_page page (List.length l) * 10).
Proof.
  unfold emails_page, page_size. now rewrite length_firstn, length_skipn.
Qed.

(** X18: the Custom Send tab shows at most ten rows; whatever page
    number the session holds, even one left over from a longer list, the
    page shown is empty only when the filtered list is empty; and the
    pages 0 to [total_pages - 1], one after the other, are the filtered
    list, each row once and in order. *)
Theorem custom_send_pages (page : nat) (l : list Row) :
  (List.length (emails_page page l) <= page_size)%nat /\
  (emails_page page l = [] <-> l = []) /\
  List.concat (map (fun p => emails_page p l)
                   (seq 0 (total_pages (List.length l)))) = l /\
  ((total_pages (List.length l) <= page)%nat ->
   emails_page page l = emails_page 0 l).
Proof.
  destruct (total_pages_bounds (List.length l)) as (T1 & T2 & T3).
  destruct (shown_page_bound page (List.length l)) as (S1 & S2 & S3).
  split; [|split; [|split]].
  - rewrite emails_page_length. unfold page_size. lia.
  - split.
    + intros H. apply (f_equal (@List.length Row)) in H.
      rewrite emails_page_length in H.
      change (List.length (@nil Row)) with 0%nat in H.
      destruct l as [|x t]; [reflexivity|]. exfalso.
      remember (List.length (x :: t)) as n eqn:En.
      assert (Hn : (0 < n)%nat) by (rewrite En; simpl; lia).
      specialize (T3 Hn). lia.
    + intros ->. unfold emails_page. rewrite skipn_nil. apply firstn_nil.
  - rewrite (map_ext_in _ (fun k => firstn 10 (skipn (k * 10) l))).
    + rewrite concat_pages. apply firstn_all2. lia.
    + intros p Hp. apply in_seq in Hp. unfold emails_page, page_size.
      destruct (shown_page_bound p (List.length l)) as (_ & Hs & _).
      rewrite Hs by lia. reflexivity.
  - intros H. unfold emails_page. rewrite (S3 H).
    destruct (shown_page_bound 0 (List.length l)) as (_ & Hs & _).
    rewrite Hs by lia. reflexivity.
Qed.

Lemma is_test_first (x y : Row) : is_test x = true -> by_key x y = true.
Proof.
  unfold by_key, key_lt, sort_key, is_test. intros Hx.
  destruct (serial_number x) as [n|]; [|discriminate]. rewrite Hx.
  apply Z.eqb_eq in Hx. subst n. simpl.
  destruct (serial_number y) as [m|]; simpl; [|reflexivity].
  destruct (m =? 0) eqn:E; simpl; [|reflexivity].
  apply Z.eqb_eq in E. subst m. reflexivity.
Qed.

Lemma regular_after_test (x t : Row) :
  is_test x = false -> is_test t = true -> by_key x t = false.
Proof.
  unfold by_key, key_lt, sort_key. intros Hx Ht. now rewrite Hx, Ht.
Qed.

Lemma insert_by_front (le : Row -> Row -> bool) (x : Row) (l : list Row) :
  (forall y, le x y = true) -> insert_by le x l = x :: l.
Proof. intros H. destruct l as [|y t]; simpl; [reflexivity|now rewrite H]. Qed.

Lemma insert_by_after (le : Row -> Row -> bool) (x : Row) (l1 l2 : list Row) :
  (forall t, In t l1 -> le x t = false) ->
  insert_by le x (l1 ++ l2) = l1 ++ insert_by le x l2.
Proof.
  induction l1 as [|y t IH]; intros H; simpl; [reflexivity|].
  rewrite (H y (or_introl eq_refl)). f_equal. apply IH.
  intros z Hz. apply H. now right.
Qed.

Lemma order_by_key_split (l : list Row) :
  order_by by_key l
  = filter is_test l ++ order_by by_key (filter (fun e => negb (is_test e)) l).
Proof.
  induction l as [|x t IH]; [reflexivity|].
  change (order_by by_key (x :: t)) with (insert_by by_key x (order_by by_key t)).
  rewrite IH. simpl. destruct (is_test x) eqn:E; simpl.
  - apply insert_by_front. intros y. now apply is_test_first.
  - apply insert_by_after. intros z Hz. apply filter_In in Hz as [_ Hz].
    now apply regular_after_test.
Qed.

Lemma by_key_total (a b : Row) : by_key a b = true \/ by_key b a = true.
Proof.
  unfold by_key, key_lt.
  destruct (sort_key a) as [a1 a2], (sort_key b) as [b1 b2]; simpl.
  rewrite (Z.eqb_sym b1 a1). destruct (Z.eqb_spec a1 b1) as [E|E].
  - destruct a2 as [x|], b2 as [y|]; simpl; auto.
    destruct (Z.ltb_spec y x), (Z.ltb_spec x y); simpl; auto; lia.
  - destruct (Z.ltb_spec b1 a1), (Z.ltb_spec a1 b1); simpl; auto; lia.
Qed.

Lemma filter_partition_perm (f : Row -> bool) (l : list Row) :
  Permutation (filter f l ++ filter (fun e => negb (f e)) l) l.
Proof.
  induction l as [|x t IH]; simpl; [constructor|].
  destruct (f x); simpl.
  - now constructor.
  - rewrite <- Permutation_middle. now constructor.
Qed.

(** X19: the "Test Only" and "Regular Only" views split the pending list
    in two, each row in exactly one of them, rows without serial number
    among the regular ones; the "All Pending" view, when the keys can be
    compared, shows the test contacts first, in the order of the list,
    then the other rows by ascending serial number, rows with the same
    number in the order of the list. *)
Theorem custom_send_views (all_pending : list Row) :
  (exists tests regular,
      filtered_emails TestOnly all_pending = Some tests /\
      filtered_emails RegularOnly all_pending = Some regular /\
      Permutation (tests ++ regular) all_pending /\
      (forall e, In e tests -> serial_number e = Some 0) /\
      (forall e, In e all_pending -> serial_number e = None -> In e regular)) /\
  (key_clash all_pending = false ->
   exists regular,
     filtered_emails AllPending all_pending
     = Some (filter is_test all_pending ++ regular) /\
     Permutation regular (filter (fun e => negb (is_test e)) all_pending) /\
     Sorted (fun a b => forall x y, serial_number a = Some x ->
                                    serial_number b = Some y -> x <= y) regular /\
     regular = order_by by_key (filter (fun e => negb (is_test e)) all_pending)).
Proof.
  split.
  - exists (filter is_test all_pending),
           (filter (fun e => negb (is_test e)) all_pending).
    split; [reflexivity|]. split; [reflexivity|].
    split; [apply filter_partition_perm|]. split.
    + intros e He. apply filter_In in He as [_ He]. unfold is_test in He.
      destruct (serial_number e) as [n|]; [|discriminate].
      apply Z.eqb_eq in He. now subst.
    + intros e He Hn. apply filter_In. split; [exact He|].
      unfold is_test. now rewrite Hn.
  - intros Hclash.
    exists (order_by by_key (filter (fun e => negb (is_test e)) all_pending)).
    split; [|split; [apply order_by_perm|split; [|reflexivity]]].
    + unfold filtered_emails. rewrite Hclash. f_equal. apply order_by_key_split.
    + set (regs := filter (fun e => negb (is_test e)) all_pending).
      assert (Hall : Forall (fun e => is_test e = false)
                            (order_by by_key regs)).
      { apply Forall_forall. intros e He. apply order_by_In in He.
        apply filter_In in He as [_ He]. now apply negb_true_iff. }
      pose proof (order_by_sorted by_key by_key_total regs) as Hs.
      induction Hs as [|a t Hs IH Hhd]; constructor.
      * apply IH. now inversion Hall.
      * destruct Hhd as [|b t' Hab]; constructor.
        intros x y Hx Hy.
        assert (Ha : is_test a = false) by now inversion Hall.
        assert (Hb : is_test b = false).
        { inversion Hall as [|? ? _ H2]. now inversion H2. }
        unfold by_key, key_lt, sort_key in Hab. rewrite Ha, Hb, Hx, Hy in Hab.
        simpl in Hab. apply negb_true_iff, Z.ltb_ge in Hab. exact Hab.
Qed.

(** X30: when the page is not empty, the caption "Showing a-b of n |
    Test: t | Regular: r" is consistent: [1 <= a <= b <= n], the page
    holds the [b - a + 1] rows from a to b, so the [min] of the code
    never cuts, [t] counts the rows with serial number 0 and [r] the
    others, and [t + r = n]. *)
Theorem showing_is_consistent (page : nat) (l : list Row) (a b n t g : nat) :
  emails_page page l <> [] ->
  showing page l = (a, b, n, t, g) ->
  (1 <= a <= b)%nat /\ (b <= n)%nat /\
  (b + 1 - a)%nat = List.length (emails_page page l) /\
  b = (shown_page page (List.length l) * page_size
       + List.length (emails_page page l))%nat /\
  n = List.length l /\
  t = List.length (filter is_test l) /\
  g = List.length (filter (fun e => negb (is_test e)) l) /\
  (t + g)%nat = n.
Proof.
  intros Hne Hs. unfold showing in Hs.
  assert (Hlen : (0 < List.length (emails_page page l))%nat).
  { destruct (emails_page page l); [congruence|simpl; lia]. }
  pose proof (emails_page_length page l) as Hp.
  pose proof (Permutation_length (filter_partition_perm is_test l)) as Hperm.
  rewrite length_app in Hperm.
  unfold page_size in *.
  remember (List.length (emails_page page l)) as len.
  remember (List.length l) as total.
  remember (shown_page page total) as sp.
  remember (List.length (filter is_test l)) as tc.
  remember (List.length (filter (fun e => negb (is_test e)) l)) as rc.
  injection Hs as <- <- <- <- <-.
  assert (Hmin : Nat.min (sp * 10 + len) total = (sp * 10 + len)%nat) by lia.
  rewrite Hmin. repeat split; lia.
Qed.

Lemma showing_is_consistent_witness :
  (1 + 1 - 1)%nat
  = List.length (emails_page 0 [Samples.job 1 0 "test@example.org"]).
Proof.
  destruct (showing_is_consistent 0 [Samples.job 1 0 "test@example.org"]
              1 1 1 1 0)
    as (_ & _ & H & _).
  - discriminate.
  - reflexivity.
  - exact H.
Defined.

End CustomSend.

(* ================================================================= *)
(** * Further properties of the dispatch loop *)

Section Scenarios.
Import Runtime Props Views.
Local Open Scope dispatch_scope.

Variable cfg : Config.t.
Variable generate_email : string -> string -> string -> string * string.

Local Abbreviation send_and_record := (DispatchLoop.send_and_record generate_email).
Local Abbreviation manual_send := (DispatchLoop.manual_send generate_email).
Local Abbreviation attempt := (DispatchLoop.attempt cfg generate_email).
Local Abbreviation iteration := (DispatchLoop.iteration cfg generate_email).
Local Abbreviation run_loop := (DispatchLoop.run_loop cfg generate_email).

Lemma sends_app (l1 l2 : list event) : sends (l1 ++ l2) = sends l1 ++ sends l2.
Proof.
  induction l1 as [|e t IH]; simpl; [reflexivity|].
  destruct e; simpl; now rewrite IH.
Qed.

Lemma sends_slept (k : nat) (s : World) :
  sends (trace (slept k s)) = sends (trace s).
Proof.
  rewrite slept_trace, sends_app.
  assert (H : sends (repeat (EvSleep 1) k) = []).
  { induction k as [|k IH]; [reflexivity|exact IH]. }
  rewrite H. apply app_nil_r.
Qed.

Lemma sleep_sends (secs : Z) (s : World) :
  sends (trace (snd (sleep secs s))) = sends (trace s) /\
  db (snd (sleep secs s)) = db s /\
  clock (snd (sleep secs s)) = clock s + secs /\
  faults (snd (sleep secs s)) = faults s /\
  entropy (snd (sleep secs s)) = entropy s /\
  smtp (snd (sleep secs s)) = smtp s /\
  worker (snd (sleep secs s))
  = CampaignWorker.exec_all (hd [] (ctl s)) (worker s) /\
  ctl (snd (sleep secs s)) = tl (ctl s).
Proof.
  destruct s as [d w c cn f sm en ct rs rf tr].
  unfold sleep, suspend; simpl. destruct ct as [|cs rest]; simpl;
    rewrite ?sends_app; simpl; rewrite ?app_nil_r; repeat split.
Qed.

(** The paced wait hands nothing to the mail server and does not touch
    the store, whatever happens to the flags. *)
Lemma wait_loop_quiet (n : nat) :
  forall s,
    fst (DispatchLoop.wait_loop n s) = Ok tt /\
    sends (trace (snd (DispatchLoop.wait_loop n s))) = sends (trace s) /\
    db (snd (DispatchLoop.wait_loop n s)) = db s /\
    faults (snd (DispatchLoop.wait_loop n s)) = faults s.
Proof.
  induction n as [|n IH]; intros s; [repeat split|].
  cbn [DispatchLoop.wait_loop]. unfold bind, get_worker.
  destruct (CampaignWorker.halted (worker s)); [repeat split|].
  unfold sleep at 1. cbn beta iota.
  destruct (IH (snd (sleep 1 s))) as (A & B & C & D).
  destruct (sleep_sends 1 s) as (B' & C' & _ & D' & _).
  unfold sleep in *. cbn [snd] in *.
  split; [exact A|]. split; [now rewrite B|]. split; [now rewrite C|now rewrite D].
Qed.

(** A statement on a healthy store, whatever the operator's script. *)
Lemma statement_healthy {A} (q : Z -> Store.Db -> A * Store.Db) (s : World) :
  healthy s ->
  exists s',
    (Database.get_connection ;; Database.cursor_execute q) s
    = (Ok (fst (q (clock s) (db s))), s') /\
    db s' = snd (q (clock s) (db s)) /\
    conn s' = Open /\
    healthy_frame s s'.
Proof.
  intros Hf. destruct s as [d w c cn f sm en ct rs rf tr].
  unfold healthy in Hf. simpl in *. subst f.
  unfold bind, Database.get_connection, Database.cursor_execute,
    Database.next_fault; simpl.
  destruct cn; simpl; destruct (q c d) as [a d']; simpl;
    (eexists; split; [reflexivity|]); unfold healthy_frame; simpl;
    rewrite ?sends_app; simpl; rewrite ?app_nil_r; repeat split.
Qed.

Lemma send_email_healthy (to subj bdy : string) (s : World) :
  healthy s ->
  exists s',
    EmailSender.send_email to subj bdy s =
    (match smtp s with
     | Some reason :: _ =>
         Raise (GenericException ("SMTP Error: " ++ reason)%string)
     | _ => Ok true
     end, s') /\
    db s' = db s /\ send_frame to s s'.
Proof.
  intros Hf. destruct s as [d w c cn f sm en ct rs rf tr].
  unfold healthy in Hf. simpl in *. subst f.
  unfold EmailSender.send_email, EmailSender.get_resume_attachment,
    Database.get_active_resume, bind, try_except, ret, raise,
    Database.get_connection, Database.cursor_execute, Database.next_fault,
    smtp_send, suspend, send_frame; simpl.
  destruct cn, rs, sm as [|[reason|] rest], ct as [|cs ct']; simpl;
    (eexists; split; [reflexivity|]);
    rewrite ?sends_app; simpl; rewrite ?sends_app; simpl;
    rewrite ?app_nil_r; repeat split.
Qed.

Lemma healthy_frame_healthy (s s' : World) : healthy_frame s s' -> healthy s'.
Proof. intros H. apply H. Qed.

(** Sending and recording for one row in front of a healthy store. *)
Lemma send_and_record_healthy (r : Store.Row) (s : World) :
  healthy s ->
  exists s',
    send_and_record r s = (Ok tt, s') /\
    db s' = recorded r (smtp s) (clock s) (db s) /\
    send_frame (Store.email r) s s'.
Proof.
  intros H. unfold DispatchLoop.send_and_record.
  set (content := generate_email _ _ _).
  destruct (send_email_healthy (Store.email r) (fst content) (snd content) s H)
    as (s1 & E1 & Hd1 & F1 & F2 & F3 & F4 & F5 & F6 & F7).
  unfold try_except, bind. rewrite E1. unfold recorded.
  assert (Hfin : forall st err,
             exists s', Database.update_email_status (Store.id r) st err s1
                        = (Ok tt, s') /\
                        db s' = Store.update_email_status (Store.id r) st err
                                  (clock s) (db s) /\
                        send_frame (Store.email r) s s').
  { intros st err.
    destruct (statement_healthy
                (fun now d => (tt, Store.update_email_status (Store.id r) st err now d))
                s1 F1) as (s2 & E2 & Hd2 & _ & G1 & G2 & G3 & G4 & G5 & G6 & _ & _ & G9).
    exists s2. split; [exact E2|]. split.
    - rewrite Hd2. simpl. now rewrite F4, Hd1.
    - unfold send_frame. repeat split; congruence. }
  destruct (smtp s) as [|[reason|] rest]; cbv beta iota; cbn [str];
    match goal with
    | |- context [Database.update_email_status ?i ?st ?err s1] =>
        destruct (Hfin st err) as (s' & E & Hd & Hframe)
    end; rewrite E; exists s'; (split; [reflexivity|split; assumption]).
Qed.

(** One turn up to the paced wait, in front of a healthy store. *)
Lemma attempt_healthy (s : World) (r : Store.Row) (rest : list Store.Row) :
  healthy s ->
  Store.get_pending_emails 1 (db s) = r :: rest ->
  exists s4,
    attempt s = (DispatchLoop.pace cfg ;; ret DispatchLoop.Continue) s4 /\
    db s4 = recorded r (smtp s) (clock s) (db s) /\
    faults s4 = [] /\
    ctl s4 = tl (ctl s) /\
    worker s4
    = CampaignWorker.with_current None
        (CampaignWorker.exec_all (hd [] (ctl s))
           (CampaignWorker.with_current (Some (Store.email r)) (worker s))) /\
    clock s4 = clock s /\
    smtp s4 = tl (smtp s) /\
    entropy s4 = entropy s /\
    sends (trace s4) = sends (trace s) ++ [Store.email r].
Proof.
  intros H E.
  destruct (statement_healthy
              (fun _ d => (Store.get_pending_emails 1 d, d)) s H)
    as (s1 & E1 & Hd1 & _ & G1 & G2 & G3 & G4 & G5 & G6 & _ & _ & G9).
  simpl in E1, Hd1. rewrite E in E1.
  unfold DispatchLoop.attempt, Database.get_pending_emails.
  unfold bind at 1. rewrite E1.
  unfold bind at 1. unfold modify_worker at 1.
  set (s2 := with_worker _ s1).
  assert (H2 : healthy s2) by exact G1.
  destruct (send_and_record_healthy r s2 H2)
    as (s3 & E3 & Hd3 & F1 & F2 & F3 & F4 & F5 & F6 & F7).
  unfold bind at 1. rewrite E3.
  unfold bind at 1. unfold modify_worker at 1.
  eexists. split; [reflexivity|].
  subst s2. simpl in *.
  rewrite Hd3, F2, F3, F4, F5, F6, F7, Hd1, G2, G3, G4, G5, G6, G9.
  repeat split; exact F1.
Qed.

Lemma slept_faults (k : nat) (s : World) : faults (slept k s) = faults s.
Proof.
  induction k as [|k IH]; [reflexivity|].
  rewrite slept_succ. unfold sleep; simpl snd. now rewrite suspend_faults.
Qed.

Lemma firstn_In_le {A} (j k : nat) (l : list A) (x : A) :
  (j <= k)%nat -> In x (firstn j l) -> In x (firstn k l).
Proof.
  revert k l. induction j as [|j IH]; intros k l Hjk Hin; [contradiction|].
  destruct k as [|k]; [lia|]. destruct l as [|a t]; [contradiction|].
  simpl in *. destruct Hin as [E|Hin]; [now left|right].
  apply (IH k t); [lia|exact Hin].
Qed.

(** While the operator sends nothing, sleeping leaves the flags alone. *)
Lemma slept_idle (k : nat) :
  forall s,
    (forall cs, In cs (firstn k (ctl s)) -> cs = []) ->
    worker (slept k s) = worker s /\ ctl (slept k s) = skipn k (ctl s).
Proof.
  induction k as [|k IH]; intros s H; [split; reflexivity|].
  cbn [slept].
  destruct (sleep_sends 1 s) as (_ & _ & _ & _ & _ & _ & Hw & Hc).
  destruct (IH (snd (sleep 1 s))) as [Hw' Hc'].
  { intros cs Hin. apply H. rewrite Hc in Hin.
    destruct (ctl s) as [|c t]; simpl in *.
    - rewrite firstn_nil in Hin. contradiction.
    - now right. }
  split.
  - rewrite Hw', Hw. destruct (ctl s) as [|c t]; [reflexivity|].
    rewrite (H c) by now left. reflexivity.
  - rewrite Hc', Hc. destruct (ctl s) as [|c t]; [|reflexivity].
    simpl. apply skipn_nil.
Qed.

(** Each turn of a paused worker is one sleep of a second. *)
Lemma run_loop_polls (k : nat) :
  forall (m : nat) (s : World),
    (forall j, (j < k)%nat ->
               CampaignWorker.is_running (worker (slept j s)) = true /\
               CampaignWorker.is_paused (worker (slept j s)) = true) ->
    run_loop (k + m) s = run_loop m (slept k s).
Proof.
  induction k as [|k IH]; intros m s H; [reflexivity|].
  destruct (H 0%nat ltac:(lia)) as [Hr Hp]. cbn [slept] in Hr, Hp.
  cbn [Nat.add DispatchLoop.run_loop]. rewrite Hr.
  unfold DispatchLoop.iteration. rewrite Hp.
  cbn [slept]. apply IH. intros j Hj. apply (H (S j)). lia.
Qed.

(** X20: a paused worker does nothing but sleep: while the operator
    sends no command, each turn of the loop is one sleep of a second,
    with no round trip to the store, no message and no change of the
    table or of the flags; and when the operator's next command is
    Resume, the turn after the sleep during which it arrived finds the
    worker running. *)
Theorem paused_worker_only_polls (s : World) (k m : nat) :
  CampaignWorker.is_running (worker s) = true ->
  CampaignWorker.is_paused (worker s) = true ->
  (forall cs, In cs (firstn k (ctl s)) -> cs = []) ->
  run_loop (k + m) s = run_loop m (slept k s) /\
  worker (slept k s) = worker s /\
  ctl (slept k s) = skipn k (ctl s) /\
  db (slept k s) = db s /\
  faults (slept k s) = faults s /\
  trace (slept k s) = trace s ++ repeat (EvSleep 1) k /\
  sends (trace (slept k s)) = sends (trace s) /\
  clock (slept k s) = clock s + Z.of_nat k /\
  (forall rest,
      skipn k (ctl s) = [CampaignWorker.Resume] :: rest ->
      run_loop (S k + m) s = run_loop m (slept (S k) s) /\
      CampaignWorker.mode (worker (slept (S k) s)) = CampaignWorker.Running /\
      clock (slept (S k) s) = clock s + Z.of_nat k + 1).
Proof.
  intros Hr Hp Hidle.
  assert (Hw : forall j, (j <= k)%nat -> worker (slept j s) = worker s).
  { intros j Hj. apply (slept_idle j s).
    intros cs Hin. apply Hidle. now apply (firstn_In_le j k). }
  destruct (slept_idle k s Hidle) as [_ Hc].
  split; [|split; [|split; [|split; [|split; [|split; [|split; [|split]]]]]]].
  - apply run_loop_polls. intros j Hj. rewrite Hw by lia. now split.
  - apply Hw. lia.
  - exact Hc.
  - apply slept_db.
  - apply slept_faults.
  - apply slept_trace.
  - apply sends_slept.
  - apply slept_clock.
  - intros rest Hnext. split; [|split].
    + apply (run_loop_polls (S k)). intros j Hj. rewrite Hw by lia. now split.
    + rewrite slept_succ.
      destruct (sleep_sends 1 (slept k s)) as (_ & _ & _ & _ & _ & _ & Hw1 & _).
      rewrite Hw1, Hc, Hnext, Hw by lia.
      unfold CampaignWorker.mode. simpl. now rewrite Hr.
    + rewrite slept_clock. lia.
Qed.

(** The paced wait never touches the table, the store or the mail
    server; it ends normally or with the [ValueError] of the draw. *)
Lemma pace_quiet (s : World) :
  sends (trace (snd (DispatchLoop.pace cfg s))) = sends (trace s) /\
  db (snd (DispatchLoop.pace cfg s)) = db s /\
  faults (snd (DispatchLoop.pace cfg s)) = faults s /\
  (fst (DispatchLoop.pace cfg s) = Ok tt \/
   exists e, fst (DispatchLoop.pace cfg s) = Raise (ValueError e)).
Proof.
  unfold DispatchLoop.pace, bind, get_worker.
  destruct (CampaignWorker.is_running (worker s)
            && negb (CampaignWorker.is_paused (worker s))).
  - unfold randint.
    destruct (Config.MAX_DELAY cfg <? Config.MIN_DELAY cfg).
    + simpl. repeat split. right. eexists. reflexivity.
    + cbv beta iota.
      match goal with
      | |- context [DispatchLoop.wait_loop ?n ?x] =>
          destruct (wait_loop_quiet n x) as (A & B & C & D)
      end.
      rewrite B, C, D. repeat split. now left.
  - simpl. repeat split. now left.
Qed.

(** One turn of a worker that is not paused, in front of a healthy store
    and a queue that is not empty, whatever the operator does meanwhile:
    one message, to the head of the queue, and its outcome recorded. *)
Lemma turn_healthy (s : World) (r : Store.Row) (rest : list Store.Row) :
  healthy s ->
  CampaignWorker.is_paused (worker s) = false ->
  Store.get_pending_emails 1 (db s) = r :: rest ->
  fst (iteration s) = DispatchLoop.Continue /\
  db (snd (iteration s)) = recorded r (smtp s) (clock s) (db s) /\
  sends (trace (snd (iteration s))) = sends (trace s) ++ [Store.email r] /\
  faults (snd (iteration s)) = [].
Proof.
  intros H Hp E. unfold DispatchLoop.iteration. rewrite Hp.
  destruct (attempt_healthy s r rest H E)
    as (s4 & E4 & Hd4 & Hf4 & _ & _ & _ & _ & _ & Hs4).
  rewrite E4. unfold bind.
  destruct (pace_quiet s4) as (A & B & C & D).
  destruct (DispatchLoop.pace cfg s4) as [res s5]. simpl in A, B, C, D.
  destruct D as [D|[e D]]; subst res; cbv beta iota.
  - unfold ret. simpl. repeat split; congruence.
  - unfold print, sleep. simpl.
    rewrite suspend_db, suspend_faults, suspend_trace. simpl.
    rewrite !sends_app. simpl. rewrite !app_nil_r.
    repeat split; congruence.
Qed.

(** X21: a stop request that arrives while a message is being sent does
    not abort the turn: the outcome of the message is recorded, no
    delay is drawn and nothing is slept, and the next test of the loop
    ends it with the worker stopped and no current job. *)
Theorem stop_during_send_ends_after_recording
        (s : World) (r : Store.Row) (rest : list Store.Row)
        (later : list (list CampaignWorker.command)) :
  healthy s ->
  CampaignWorker.halted (worker s) = false ->
  Store.get_pending_emails 1 (db s) = r :: rest ->
  ctl s = [CampaignWorker.Stop] :: later ->
  exists s',
    iteration s = (DispatchLoop.Continue, s') /\
    db s' = recorded r (smtp s) (clock s) (db s) /\
    sends (trace s') = sends (trace s) ++ [Store.email r] /\
    clock s' = clock s /\
    entropy s' = entropy s /\
    ctl s' = later /\
    CampaignWorker.status (worker s') = (CampaignWorker.Stopped, None) /\
    forall fuel, run_loop (S (S fuel)) s = (DispatchLoop.Finished, s').
Proof.
  intros H Hrun E Hctl. apply halted_false in Hrun as [Hr Hp].
  destruct (attempt_healthy s r rest H E)
    as (s4 & E4 & Hd4 & Hf4 & Hc4 & Hw4 & Hk4 & Hm4 & He4 & Hs4).
  rewrite Hctl in Hw4, Hc4. simpl in Hw4, Hc4.
  assert (Hrun4 : CampaignWorker.is_running (worker s4) = false)
    by now rewrite Hw4.
  assert (Ei : iteration s = (DispatchLoop.Continue, s4)).
  { unfold DispatchLoop.iteration. rewrite Hp, E4.
    unfold DispatchLoop.pace, bind, get_worker. rewrite Hrun4. reflexivity. }
  exists s4. repeat (split; [assumption|]). split.
  - now rewrite Hw4.
  - intros fuel. cbn [DispatchLoop.run_loop]. rewrite Hr, Ei.
    cbv beta iota. now rewrite Hrun4.
Qed.

(** X22: a pause that arrives while a message is being sent cancels the
    paced wait of that turn altogether: no delay is drawn; the worker
    polls, and when Resume arrives during the first poll the next fetch
    comes one second after the send, whatever the configured window. *)
Theorem pause_during_send_skips_the_wait
        (s : World) (r : Store.Row) (rest : list Store.Row)
        (later : list (list CampaignWorker.command)) :
  healthy s ->
  CampaignWorker.halted (worker s) = false ->
  Store.get_pending_emails 1 (db s) = r :: rest ->
  ctl s = [CampaignWorker.Pause] :: [CampaignWorker.Resume] :: later ->
  exists s1 s2,
    iteration s = (DispatchLoop.Continue, s1) /\
    iteration s1 = (DispatchLoop.Continue, s2) /\
    CampaignWorker.mode (worker s1) = CampaignWorker.Paused /\
    CampaignWorker.mode (worker s2) = CampaignWorker.Running /\
    db s2 = recorded r (smtp s) (clock s) (db s) /\
    sends (trace s2) = sends (trace s) ++ [Store.email r] /\
    clock s2 = clock s + 1 /\
    entropy s2 = entropy s /\
    faults s2 = [] /\
    ctl s2 = later /\
    forall fuel, run_loop (S (S fuel)) s = run_loop fuel s2.
Proof.
  intros H Hrun E Hctl. apply halted_false in Hrun as [Hr Hp].
  destruct (attempt_healthy s r rest H E)
    as (s4 & E4 & Hd4 & Hf4 & Hc4 & Hw4 & Hk4 & Hm4 & He4 & Hs4).
  rewrite Hctl in Hw4, Hc4. simpl in Hw4, Hc4.
  assert (Hr4 : CampaignWorker.is_running (worker s4) = true)
    by (rewrite Hw4; exact Hr).
  assert (Hp4 : CampaignWorker.is_paused (worker s4) = true)
    by now rewrite Hw4.
  assert (Ei : iteration s = (DispatchLoop.Continue, s4)).
  { unfold DispatchLoop.iteration. rewrite Hp, E4.
    unfold DispatchLoop.pace, bind, get_worker. rewrite Hr4, Hp4. reflexivity. }
  assert (Ej : iteration s4 = (DispatchLoop.Continue, snd (sleep 1 s4))).
  { unfold DispatchLoop.iteration. now rewrite Hp4. }
  destruct (sleep_sends 1 s4) as (Ss & Sd & Sk & Sf & Se & _ & Sw & Sc).
  rewrite Hc4 in Sw, Sc. cbn [hd tl CampaignWorker.exec_all fold_left CampaignWorker.exec] in Sw, Sc.
  assert (Hr5 : CampaignWorker.is_running (worker (snd (sleep 1 s4))) = true)
    by (rewrite Sw; exact Hr4).
  exists s4, (snd (sleep 1 s4)).
  split; [exact Ei|]. split; [exact Ej|].
  split; [unfold CampaignWorker.mode; now rewrite Hr4, Hp4|].
  split; [unfold CampaignWorker.mode; rewrite Hr5, Sw; reflexivity|].
  split; [congruence|]. split; [congruence|]. split; [lia|].
  split; [congruence|]. split; [congruence|]. split; [exact Sc|].
  intros fuel. cbn [DispatchLoop.run_loop]. rewrite Hr, Ei.
  cbv beta iota. rewrite Hr4, Ej. reflexivity.
Qed.

(** X23: a pause that arrives during the paced wait ends the wait at the
    next test of the flags, and the remainder of the delay is not made
    up after Resume: with Pause during the first second of the wait and
    Resume during the first poll, the next fetch comes two seconds after
    the send although at least [MIN_DELAY] seconds were drawn. *)
Theorem pause_during_wait_forfeits_the_delay
        (s : World) (r : Store.Row) (rest : list Store.Row)
        (later : list (list CampaignWorker.command)) :
  healthy s ->
  CampaignWorker.halted (worker s) = false ->
  Store.get_pending_emails 1 (db s) = r :: rest ->
  ctl s = [] :: [CampaignWorker.Pause] :: [CampaignWorker.Resume] :: later ->
  2 <= Config.MIN_DELAY cfg <= Config.MAX_DELAY cfg ->
  exists s1 s2,
    iteration s = (DispatchLoop.Continue, s1) /\
    iteration s1 = (DispatchLoop.Continue, s2) /\
    CampaignWorker.mode (worker s1) = CampaignWorker.Paused /\
    CampaignWorker.mode (worker s2) = CampaignWorker.Running /\
    db s2 = recorded r (smtp s) (clock s) (db s) /\
    sends (trace s2) = sends (trace s) ++ [Store.email r] /\
    clock s2 = clock s + 2 /\
    entropy s2 = tl (entropy s) /\
    ctl s2 = later /\
    forall fuel, run_loop (S (S fuel)) s = run_loop fuel s2.
Proof.
  intros H Hrun E Hctl Hwin. apply halted_false in Hrun as [Hr Hp].
  destruct (attempt_healthy s r rest H E)
    as (s4 & E4 & Hd4 & Hf4 & Hc4 & Hw4 & Hk4 & Hm4 & He4 & Hs4).
  rewrite Hctl in Hw4, Hc4. simpl in Hw4, Hc4.
  assert (Hr4 : CampaignWorker.is_running (worker s4) = true)
    by (rewrite Hw4; exact Hr).
  assert (Hp4 : CampaignWorker.is_paused (worker s4) = false)
    by (rewrite Hw4; exact Hp).
  destruct (randint_in_range _ _ s4 (proj2 Hwin)) as (d & Ed & Hd).
  set (s0 := with_entropy (tl (entropy s4)) s4) in *.
  destruct (sleep_sends 1 s0) as (Ss & Sd & Sk & Sf & Se & _ & Sw & Sc).
  change (ctl s0) with (ctl s4) in Sw, Sc.
  change (worker s0) with (worker s4) in Sw.
  rewrite Hc4 in Sw, Sc. cbn [hd tl CampaignWorker.exec_all fold_left CampaignWorker.exec] in Sw, Sc.
  set (s1 := snd (sleep 1 s0)) in *.
  assert (Hr1 : CampaignWorker.is_running (worker s1) = true)
    by (rewrite Sw; exact Hr4).
  assert (Hp1 : CampaignWorker.is_paused (worker s1) = true)
    by now rewrite Sw.
  assert (Ew : DispatchLoop.wait_loop (Z.to_nat d) s0 = (Ok tt, s1)).
  { apply (wait_loop_first_halt (Z.to_nat d) s0 1%nat).
    - lia.
    - intros j Hj. assert (j = 0%nat) by lia. subst j.
      apply halted_false. now split.
    - intros _. change (slept 1 s0) with s1.
      unfold CampaignWorker.halted. now rewrite Hp1, orb_true_r. }
  assert (Ei : iteration s = (DispatchLoop.Continue, s1)).
  { unfold DispatchLoop.iteration. rewrite Hp, E4.
    unfold DispatchLoop.pace, bind, get_worker. rewrite Hr4, Hp4.
    cbn [andb negb]. rewrite Ed, Ew. reflexivity. }
  assert (Ej : iteration s1 = (DispatchLoop.Continue, snd (sleep 1 s1))).
  { unfold DispatchLoop.iteration. now rewrite Hp1. }
  destruct (sleep_sends 1 s1) as (Ts & Td & Tk & Tf & Te & _ & Tw & Tc).
  rewrite Sc in Tw, Tc. cbn [hd tl CampaignWorker.exec_all fold_left CampaignWorker.exec] in Tw, Tc.
  assert (Hr2 : CampaignWorker.is_running (worker (snd (sleep 1 s1))) = true)
    by (rewrite Tw; exact Hr1).
  exists s1, (snd (sleep 1 s1)).
  split; [exact Ei|]. split; [exact Ej|].
  split; [unfold CampaignWorker.mode; now rewrite Hr1, Hp1|].
  split; [unfold CampaignWorker.mode; rewrite Hr2, Tw; reflexivity|].
  split; [rewrite Td, Sd; exact Hd4|].
  split; [rewrite Ts, Ss; exact Hs4|].
  split; [rewrite Tk, Sk; change (clock s0) with (clock s4); lia|].
  split; [rewrite Te, Se; change (entropy s0) with (tl (entropy s4));
          now rewrite He4|].
  split; [exact Tc|].
  intros fuel. cbn [DispatchLoop.run_loop]. rewrite Hr, Ei.
  cbv beta iota. rewrite Hr1, Ej. reflexivity.
Qed.

(** X24: when [MIN_DELAY] exceeds [MAX_DELAY] the draw of the delay
    raises after the outcome of the message is recorded; the turn prints
    the error and sleeps five seconds, and it leaves the worker running
    and the store healthy, so the next turn starts five seconds after
    the message instead of [MIN_DELAY] seconds or more. *)
Theorem empty_window_paces_at_five_seconds
        (s : World) (r : Store.Row) (rest : list Store.Row) :
  calm s ->
  CampaignWorker.halted (worker s) = false ->
  Store.get_pending_emails 1 (db s) = r :: rest ->
  Config.MAX_DELAY cfg < Config.MIN_DELAY cfg ->
  exists s' before msg,
    iteration s = (DispatchLoop.Continue, s') /\
    db s' = recorded r (smtp s) (clock s) (db s) /\
    trace s'
    = before ++ [EvPrint ("Worker error: " ++ msg)%string; EvSleep 5] /\
    sends before = sends (trace s) ++ [Store.email r] /\
    clock s' = clock s + 5 /\
    entropy s' = entropy s /\
    worker s' = CampaignWorker.with_current None (worker s) /\
    calm s'.
Proof.
  intros [Hf Hc] Hrun E Hwin. apply halted_false in Hrun as [Hr Hp].
  destruct (attempt_healthy s r rest Hf E)
    as (s4 & E4 & Hd4 & Hf4 & Hc4 & Hw4 & Hk4 & Hm4 & He4 & Hs4).
  rewrite Hc in Hw4, Hc4. simpl in Hw4, Hc4.
  assert (Hr4 : CampaignWorker.is_running (worker s4) = true)
    by (rewrite Hw4; exact Hr).
  assert (Hp4 : CampaignWorker.is_paused (worker s4) = false)
    by (rewrite Hw4; exact Hp).
  assert (Ew : (Config.MAX_DELAY cfg <? Config.MIN_DELAY cfg) = true)
    by (apply Z.ltb_lt; lia).
  set (line := EvPrint "Worker error: empty range for randrange()").
  assert (Ei : iteration s
               = (DispatchLoop.Continue, snd (sleep 5 (emit line s4)))).
  { unfold DispatchLoop.iteration. rewrite Hp, E4.
    unfold DispatchLoop.pace, bind, get_worker. rewrite Hr4, Hp4.
    cbn [andb negb]. unfold randint. rewrite Ew. reflexivity. }
  destruct (sleep_sends 5 (emit line s4)) as (Ss & Sd & Sk & Sf & Se & _ & Sw & Sc).
  change (ctl (emit line s4)) with (ctl s4) in Sw, Sc.
  rewrite Hc4 in Sw, Sc. cbn [hd tl CampaignWorker.exec_all fold_left CampaignWorker.exec] in Sw, Sc.
  exists (snd (sleep 5 (emit line s4))), (trace s4),
    "empty range for randrange()"%string.
  split; [exact Ei|]. split; [rewrite Sd; exact Hd4|].
  split.
  { unfold sleep. cbn [snd]. rewrite suspend_trace. cbn [trace emit with_clock].
    now rewrite <- app_assoc. }
  split; [exact Hs4|]. split; [rewrite Sk; simpl; lia|].
  split; [rewrite Se; exact He4|]. split; [rewrite Sw; exact Hw4|].
  split; [rewrite Sf; exact Hf4|exact Sc].
Qed.

(** A turn whose attempt reaches the paced wait goes on with the next
    turn, and the wait changes neither table nor mail. *)
Lemma iteration_after_attempt (s s4 : World) :
  CampaignWorker.is_paused (worker s) = false ->
  attempt s = (DispatchLoop.pace cfg ;; ret DispatchLoop.Continue) s4 ->
  fst (iteration s) = DispatchLoop.Continue /\
  db (snd (iteration s)) = db s4 /\
  sends (trace (snd (iteration s))) = sends (trace s4) /\
  faults (snd (iteration s)) = faults s4.
Proof.
  intros Hp E4. unfold DispatchLoop.iteration. rewrite Hp, E4. unfold bind.
  destruct (pace_quiet s4) as (A & B & C & D).
  destruct (DispatchLoop.pace cfg s4) as [res s5]. simpl in A, B, C, D.
  destruct D as [D|[e D]]; subst res; cbv beta iota.
  - unfold ret. simpl. repeat split; congruence.
  - unfold print, sleep. simpl.
    rewrite suspend_db, suspend_faults, suspend_trace. simpl.
    rewrite !sends_app. simpl. rewrite !app_nil_r.
    repeat split; congruence.
Qed.

Lemma fetch_connected (n : nat) (s : World) (rest : list fault) :
  conn s = Open ->
  faults s = Healthy :: rest ->
  Database.get_pending_emails n s
  = (Ok (Store.get_pending_emails n (db s)),
     with_db (db s) (with_faults rest (emit (EvExecute true) s))).
Proof.
  intros Hc Hf.
  unfold Database.get_pending_emails, bind, Database.get_connection.
  rewrite Hc. unfold Database.cursor_execute, Database.next_fault.
  rewrite Hf. reflexivity.
Qed.

(** The lookup of the resume fails: nothing is handed to the mail
    server and the job is recorded as failed with the store's message. *)
Lemma send_and_record_lookup_failure
      (s : World) (r : Store.Row) (f : fault) (m : string) :
  conn s = Open ->
  faults s = [f] ->
  fault_msg f = Some m ->
  exists s',
    send_and_record r s = (Ok tt, s') /\
    db s' = Store.update_email_status (Store.id r) "failed" (Some m)
              (clock s) (db s) /\
    sends (trace s') = sends (trace s) /\
    smtp s' = smtp s /\
    faults s' = [] /\
    worker s' = worker s.
Proof.
  intros Hc Hf Hm. destruct s as [d w c cn fl sm en ct rs rf tr].
  cbn [conn faults clock db trace smtp worker] in *. subst cn fl.
  unfold DispatchLoop.send_and_record, EmailSender.send_email,
    EmailSender.get_resume_attachment, Database.get_active_resume,
    Database.update_email_status, try_except, bind,
    Database.get_connection, Database.cursor_execute, Database.next_fault.
  destruct f as [|x|x]; cbn [fault_msg] in Hm; inversion Hm; subst x;
    cbn -[Store.update_email_status sends];
    (eexists; split; [reflexivity|]);
    cbn -[Store.update_email_status sends];
    rewrite !sends_app; cbn [sends]; rewrite !app_nil_r; repeat split.
Qed.

(** The row of a fetched job after a failure has been recorded for it. *)
Lemma failure_recorded_on_row
      (d d' : Store.Db) (r : Store.Row) (rest : list Store.Row)
      (m : string) (now : Z) :
  Store.get_pending_emails 1 d = r :: rest ->
  d' = Store.update_email_status (Store.id r) "failed" (Some m) now d ->
  (exists x, In x (Store.rows d') /\
             Store.id x = Store.id r /\
             Store.email x = Store.email r /\
             Store.status x = "failed"%string /\
             Store.error_message x = Some m /\
             Store.sent x = Store.sent r /\
             Store.sent_at x = Store.sent_at r /\
             Store.updated_at x = now) /\
  (forall x, In x (Store.rows d') -> Store.id x = Store.id r ->
             Store.status x = "failed"%string /\
             Store.error_message x = Some m).
Proof.
  intros E Hd.
  assert (Hin : In r (Store.rows d)).
  { assert (Hr' : In r (Store.get_pending_emails 1 d)) by (rewrite E; now left).
    now apply get_pending_emails_In in Hr'. }
  assert (Hne : "failed"%string <> "sent"%string) by discriminate.
  destruct (update_email_status_columns (Store.id r) "failed" (Some m) now d)
    as [Hall Hex].
  rewrite <- Hd in Hall, Hex. split.
  - destruct (Hex r Hin eq_refl)
      as (x & Hx & Hid & Hem & _ & _ & _ & _ & _ & _ & Hkeep).
    destruct (Hall x Hx Hid) as (Hst & Hup & _ & Herr).
    destruct (Hkeep Hne) as [Hsent Hsat].
    exists x. repeat split; auto.
  - intros x Hx Hid. destruct (Hall x Hx Hid) as (Hst & _ & _ & Herr).
    split; auto.
Qed.

(** X25: when the store fails during the lookup of the resume, which
    [send_email] makes before it opens the connection to the mail
    server, no message is sent and the turn records the job as failed
    with the text of the store's error: afterwards the row of the job,
    and every row with its id, has status [failed] and that text as error
    message, with its send flag and send time as they were. *)
Theorem resume_lookup_failure_fails_the_job
        (s : World) (r : Store.Row) (rest : list Store.Row)
        (f : fault) (m : string) :
  conn s = Open ->
  faults s = [Healthy; f] ->
  fault_msg f = Some m ->
  CampaignWorker.is_paused (worker s) = false ->
  Store.get_pending_emails 1 (db s) = r :: rest ->
  fst (iteration s) = DispatchLoop.Continue /\
  db (snd (iteration s))
  = Store.update_email_status (Store.id r) "failed" (Some m) (clock s) (db s) /\
  sends (trace (snd (iteration s))) = sends (trace s) /\
  (exists x, In x (Store.rows (db (snd (iteration s)))) /\
             Store.id x = Store.id r /\
             Store.email x = Store.email r /\
             Store.status x = "failed"%string /\
             Store.error_message x = Some m /\
             Store.sent x = Store.sent r /\
             Store.sent_at x = Store.sent_at r /\
             Store.updated_at x = clock s) /\
  (forall x, In x (Store.rows (db (snd (iteration s)))) ->
             Store.id x = Store.id r ->
             Store.status x = "failed"%string /\
             Store.error_message x = Some m).
Proof.
  intros Hc Hf Hm Hp E.
  pose proof (fetch_connected 1 s [f] Hc Hf) as E1. rewrite E in E1.
  set (s1 := with_db (db s) (with_faults [f] (emit (EvExecute true) s))) in E1.
  set (s2 := with_worker
               (CampaignWorker.with_current (Some (Store.email r)) (worker s1)) s1).
  destruct (send_and_record_lookup_failure s2 r f m Hc eq_refl Hm)
    as (s3 & E3 & Hd3 & Hs3 & _ & Hf3 & _).
  assert (E4 : attempt s
               = (DispatchLoop.pace cfg ;; ret DispatchLoop.Continue)
                   (with_worker (CampaignWorker.with_current None (worker s3)) s3)).
  { unfold DispatchLoop.attempt. unfold bind at 1. rewrite E1.
    unfold bind at 1. unfold modify_worker at 1. fold s2.
    unfold bind at 1. rewrite E3. reflexivity. }
  destruct (iteration_after_attempt s _ Hp E4) as (A & B & C & _).
  assert (Hdb : db (snd (iteration s))
                = Store.update_email_status (Store.id r) "failed" (Some m)
                    (clock s) (db s)).
  { rewrite B. cbn [db with_worker]. exact Hd3. }
  split; [exact A|]. split; [exact Hdb|]. split.
  - rewrite C. cbn [trace with_worker]. rewrite Hs3.
    subst s2 s1. cbn [trace with_worker with_db with_faults emit].
    rewrite sends_app. cbn [sends]. apply app_nil_r.
  - exact (failure_recorded_on_row (db s) _ r rest m (clock s) E Hdb).
Qed.

(** The message is accepted and the store fails once while the success
    is recorded: the handler records a failure. *)
Lemma send_and_record_misrecorded
      (s : World) (r : Store.Row) (f : fault) (m : string) :
  conn s = Open ->
  faults s = [Healthy; f] ->
  fault_msg f = Some m ->
  hd None (smtp s) = None ->
  exists s',
    send_and_record r s = (Ok tt, s') /\
    db s' = Store.update_email_status (Store.id r) "failed" (Some m)
              (clock s) (db s) /\
    sends (trace s') = sends (trace s) ++ [Store.email r] /\
    faults s' = [].
Proof.
  intros Hc Hf Hm Hacc. destruct s as [d w c cn fl sm en ct rs rf tr].
  cbn [conn faults clock db trace smtp worker] in *. subst cn fl.
  unfold DispatchLoop.send_and_record, EmailSender.send_email,
    EmailSender.get_resume_attachment, Database.get_active_resume,
    Database.update_email_status, try_except, bind, ret, raise, smtp_send,
    suspend, Database.get_connection, Database.cursor_execute,
    Database.next_fault.
  destruct sm as [|[reason|] sm']; cbn [hd] in Hacc; try discriminate Hacc;
    destruct f as [|x|x]; cbn [fault_msg] in Hm; inversion Hm; subst x;
    destruct rs, ct; run_world;
    (eexists; split; [reflexivity|]); run_world;
    rewrite !sends_app; cbn [sends]; run_world; rewrite !app_nil_r;
    repeat split.
Qed.

(** The message is accepted and the store fails both while the success
    is recorded and while the handler records a failure: the exception
    of the handler leaves the block and the table is as before. *)
Lemma send_and_record_unrecorded
      (s : World) (r : Store.Row) (f1 f2 : fault) (m1 m2 : string) :
  conn s = Open ->
  faults s = [Healthy; f1; f2] ->
  fault_msg f1 = Some m1 ->
  fault_msg f2 = Some m2 ->
  hd None (smtp s) = None ->
  ctl s = [] ->
  exists s',
    send_and_record r s = (Raise (DbError m2), s') /\
    db s' = db s /\
    sends (trace s') = sends (trace s) ++ [Store.email r] /\
    faults s' = [] /\
    ctl s' = [] /\
    worker s' = worker s /\
    smtp s' = tl (smtp s).
Proof.
  intros Hc Hf Hm1 Hm2 Hacc Hctl. destruct s as [d w c cn fl sm en ct rs rf tr].
  cbn [conn faults clock db trace smtp worker ctl] in *. subst cn fl ct.
  unfold DispatchLoop.send_and_record, EmailSender.send_email,
    EmailSender.get_resume_attachment, Database.get_active_resume,
    Database.update_email_status, try_except, bind, ret, raise, smtp_send,
    suspend, Database.get_connection, Database.cursor_execute,
    Database.next_fault.
  destruct sm as [|[reason|] sm']; cbn [hd] in Hacc; try discriminate Hacc;
    destruct f1 as [|x|x]; cbn [fault_msg] in Hm1; inversion Hm1; subst x;
    destruct f2 as [|y|y]; cbn [fault_msg] in Hm2; inversion Hm2; subst y;
    destruct rs; run_world;
    (eexists; split; [reflexivity|]); run_world;
    rewrite !sends_app; cbn [sends]; run_world; rewrite !app_nil_r;
    repeat split.
Qed.

(** X26: when the mail server accepts the message and the store fails
    once while the success is recorded, the handler of the turn records
    the job as failed with the store's message: afterwards the row of
    the job, and every row with its id, has status [failed] and that
    message as error message, with its send flag and send time as they
    were, although the message was delivered. *)
Theorem delivered_message_recorded_as_failed
        (s : World) (r : Store.Row) (rest : list Store.Row)
        (f : fault) (m : string) :
  conn s = Open ->
  faults s = [Healthy; Healthy; f] ->
  fault_msg f = Some m ->
  hd None (smtp s) = None ->
  CampaignWorker.is_paused (worker s) = false ->
  Store.get_pending_emails 1 (db s) = r :: rest ->
  fst (iteration s) = DispatchLoop.Continue /\
  sends (trace (snd (iteration s))) = sends (trace s) ++ [Store.email r] /\
  db (snd (iteration s))
  = Store.update_email_status (Store.id r) "failed" (Some m) (clock s) (db s) /\
  (exists x, In x (Store.rows (db (snd (iteration s)))) /\
             Store.id x = Store.id r /\
             Store.email x = Store.email r /\
             Store.status x = "failed"%string /\
             Store.error_message x = Some m /\
             Store.sent x = Store.sent r /\
             Store.sent_at x = Store.sent_at r /\
             Store.updated_at x = clock s) /\
  (forall x, In x (Store.rows (db (snd (iteration s)))) ->
             Store.id x = Store.id r ->
             Store.status x = "failed"%string /\
             Store.error_message x = Some m).
Proof.
  intros Hc Hf Hm Hacc Hp E.
  pose proof (fetch_connected 1 s [Healthy; f] Hc Hf) as E1. rewrite E in E1.
  set (s1 := with_db (db s) (with_faults [Healthy; f] (emit (EvExecute true) s)))
    in E1.
  set (s2 := with_worker
               (CampaignWorker.with_current (Some (Store.email r)) (worker s1)) s1).
  destruct (send_and_record_misrecorded s2 r f m Hc eq_refl Hm Hacc)
    as (s3 & E3 & Hd3 & Hs3 & Hf3).
  assert (E4 : attempt s
               = (DispatchLoop.pace cfg ;; ret DispatchLoop.Continue)
                   (with_worker (CampaignWorker.with_current None (worker s3)) s3)).
  { unfold DispatchLoop.attempt. unfold bind at 1. rewrite E1.
    unfold bind at 1. unfold modify_worker at 1. fold s2.
    unfold bind at 1. rewrite E3. reflexivity. }
  destruct (iteration_after_attempt s _ Hp E4) as (A & B & C & _).
  assert (Hdb : db (snd (iteration s))
                = Store.update_email_status (Store.id r) "failed" (Some m)
                    (clock s) (db s)).
  { rewrite B. cbn [db with_worker]. exact Hd3. }
  split; [exact A|]. split; [|split; [exact Hdb|]].
  - rewrite C. cbn [trace with_worker]. rewrite Hs3.
    subst s2 s1. cbn [trace with_worker with_db with_faults emit].
    rewrite sends_app. cbn [sends]. now rewrite app_nil_r.
  - exact (failure_recorded_on_row (db s) _ r rest m (clock s) E Hdb).
Qed.

(** X27: when the mail server accepts the message and the store fails
    both while the success is recorded and in the handler, the turn ends
    with the printed error and five seconds of sleep; the job is still
    pending, the status box still shows its address, and the next turn
    sends the same message again. *)
Theorem unrecorded_delivery_is_repeated
        (s : World) (r : Store.Row) (rest : list Store.Row)
        (f1 f2 : fault) (m1 m2 : string) :
  conn s = Open ->
  faults s = [Healthy; Healthy; f1; f2] ->
  fault_msg f1 = Some m1 ->
  fault_msg f2 = Some m2 ->
  hd None (smtp s) = None ->
  ctl s = [] ->
  CampaignWorker.halted (worker s) = false ->
  Store.get_pending_emails 1 (db s) = r :: rest ->
  exists s1 before,
    iteration s = (DispatchLoop.Continue, s1) /\
    db s1 = db s /\
    trace s1 = before ++ [EvPrint ("Worker error: " ++ m2)%string; EvSleep 5] /\
    sends before = sends (trace s) ++ [Store.email r] /\
    CampaignWorker.status (worker s1)
    = (CampaignWorker.Running, Some (Store.email r)) /\
    fst (iteration s1) = DispatchLoop.Continue /\
    sends (trace (snd (iteration s1)))
    = sends (trace s) ++ [Store.email r; Store.email r].
Proof.
  intros Hc Hf Hm1 Hm2 Hacc Hctl Hrun E.
  apply halted_false in Hrun as [Hr Hp].
  pose proof (fetch_connected 1 s [Healthy; f1; f2] Hc Hf) as E1.
  rewrite E in E1.
  set (s1 := with_db (db s)
               (with_faults [Healthy; f1; f2] (emit (EvExecute true) s))) in E1.
  set (s2 := with_worker
               (CampaignWorker.with_current (Some (Store.email r)) (worker s1)) s1).
  destruct (send_and_record_unrecorded s2 r f1 f2 m1 m2
              Hc eq_refl Hm1 Hm2 Hacc Hctl)
    as (s3 & E3 & Hd3 & Hs3 & Hf3 & Hc3 & Hw3 & _).
  set (line := EvPrint ("Worker error: " ++ m2)%string).
  assert (Ei : iteration s
               = (DispatchLoop.Continue, snd (sleep 5 (emit line s3)))).
  { unfold DispatchLoop.iteration. rewrite Hp.
    unfold DispatchLoop.attempt. unfold bind at 1. rewrite E1.
    unfold bind at 1. unfold modify_worker at 1. fold s2.
    unfold bind at 1. rewrite E3. reflexivity. }
  destruct (sleep_sends 5 (emit line s3)) as (Ss & Sd & Sk & Sf & Se & _ & Sw & Sc).
  change (ctl (emit line s3)) with (ctl s3) in Sw, Sc.
  change (worker (emit line s3)) with (worker s3) in Sw.
  change (db (emit line s3)) with (db s3) in Sd.
  change (faults (emit line s3)) with (faults s3) in Sf.
  rewrite Hc3 in Sw, Sc.
  cbn [hd tl CampaignWorker.exec_all fold_left CampaignWorker.exec] in Sw, Sc.
  set (t1 := snd (sleep 5 (emit line s3))) in *.
  assert (Hd1 : db t1 = db s) by (rewrite Sd, Hd3; reflexivity).
  assert (Hw1 : worker t1
                = CampaignWorker.with_current (Some (Store.email r)) (worker s))
    by (rewrite Sw, Hw3; reflexivity).
  assert (Hs1 : sends (trace s3) = sends (trace s) ++ [Store.email r]).
  { rewrite Hs3. subst s2 s1. cbn [trace with_worker with_db with_faults emit].
    rewrite sends_app. cbn [sends]. now rewrite app_nil_r. }
  assert (Hh1 : healthy t1) by (unfold healthy; rewrite Sf; exact Hf3).
  assert (Hp1 : CampaignWorker.is_paused (worker t1) = false)
    by (rewrite Hw1; exact Hp).
  assert (E' : Store.get_pending_emails 1 (db t1) = r :: rest)
    by (rewrite Hd1; exact E).
  destruct (turn_healthy t1 r rest Hh1 Hp1 E') as (A & _ & C & _).
  exists t1, (trace s3).
  split; [exact Ei|]. split; [exact Hd1|]. split.
  { subst t1. unfold sleep. cbn [snd]. rewrite suspend_trace.
    cbn [trace emit with_clock]. now rewrite <- app_assoc. }
  split; [exact Hs1|]. split.
  { rewrite Hw1. unfold CampaignWorker.status, CampaignWorker.mode.
    cbn [CampaignWorker.with_current CampaignWorker.is_running
         CampaignWorker.is_paused CampaignWorker.current_email].
    now rewrite Hr, Hp. }
  split; [exact A|].
  rewrite C, Ss. cbn [trace emit]. rewrite sends_app. cbn [sends].
  rewrite app_nil_r, Hs1, <- app_assoc. reflexivity.
Qed.

(** The "Send" button in front of a healthy store. *)
Lemma manual_send_healthy (r : Store.Row) (s : World) :
  healthy s ->
  exists s',
    manual_send r s = (Ok tt, s') /\
    db s' = recorded r (smtp s) (clock s) (db s) /\
    sends (trace s') = sends (trace s) ++ [Store.email r] /\
    faults s' = [] /\
    smtp s' = tl (smtp s) /\
    clock s' = clock s + match smtp s with Some _ :: _ => 0 | _ => 1 end.
Proof.
  intros H. unfold DispatchLoop.manual_send.
  set (content := generate_email _ _ _).
  destruct (send_email_healthy (Store.email r) (fst content) (snd content) s H)
    as (s1 & E1 & Hd1 & F1 & F2 & F3 & F4 & F5 & F6 & F7).
  assert (Hfin : forall st err,
             exists s2, Database.update_email_status (Store.id r) st err s1
                        = (Ok tt, s2) /\
                        db s2 = Store.update_email_status (Store.id r) st err
                                  (clock s) (db s) /\
                        sends (trace s2) = sends (trace s) ++ [Store.email r] /\
                        faults s2 = [] /\
                        smtp s2 = tl (smtp s) /\
                        clock s2 = clock s).
  { intros st err.
    destruct (statement_healthy
                (fun now d => (tt, Store.update_email_status (Store.id r) st err now d))
                s1 F1) as (s2 & E2 & Hd2 & _ & G1 & G2 & G3 & G4 & G5 & G6 & _ & _ & G9).
    exists s2. split; [exact E2|]. split.
    - rewrite Hd2. simpl. now rewrite F4, Hd1.
    - repeat split; congruence. }
  unfold try_except, bind. rewrite E1. unfold recorded.
  destruct (smtp s) as [|[reason|] rest]; cbv beta iota; cbn [str].
  - destruct (Hfin "sent" None) as (s2 & E2 & A & B & C & D & E).
    rewrite E2. destruct (sleep_sends 1 s2) as (Ss & Sd & Sk & Sf & _ & Sm & _).
    unfold sleep in *. cbn [snd] in *. eexists. split; [reflexivity|].
    rewrite Sd, Ss, Sf, Sm, Sk. repeat split; try assumption. lia.
  - destruct (Hfin "failed" (Some ("SMTP Error: " ++ reason)%string))
      as (s2 & E2 & A & B & C & D & E).
    rewrite E2. exists s2. repeat split; try assumption. lia.
  - destruct (Hfin "sent" None) as (s2 & E2 & A & B & C & D & E).
    rewrite E2. destruct (sleep_sends 1 s2) as (Ss & Sd & Sk & Sf & _ & Sm & _).
    unfold sleep in *. cbn [snd] in *. eexists. split; [reflexivity|].
    rewrite Sd, Ss, Sf, Sm, Sk. repeat split; try assumption. lia.
Qed.

(** X28: the "Send" button of the Custom Send tab never raises in front
    of a healthy store; it hands exactly one message to the mail server
    and records its outcome, and it does so for whatever row it is
    given, without a look at the row's status: pressed twice for the
    same row, from a page that was not refreshed, it sends the message
    twice. *)
Theorem manual_send_does_not_check_status (r : Store.Row) (s : World) :
  healthy s ->
  exists s1 s2,
    manual_send r s = (Ok tt, s1) /\
    db s1 = recorded r (smtp s) (clock s) (db s) /\
    sends (trace s1) = sends (trace s) ++ [Store.email r] /\
    clock s1 = clock s + match smtp s with Some _ :: _ => 0 | _ => 1 end /\
    manual_send r s1 = (Ok tt, s2) /\
    sends (trace s2) = sends (trace s) ++ [Store.email r; Store.email r] /\
    db s2 = recorded r (tl (smtp s)) (clock s1) (db s1).
Proof.
  intros H.
  destruct (manual_send_healthy r s H) as (s1 & E1 & Hd1 & Hs1 & Hf1 & Hm1 & Hk1).
  destruct (manual_send_healthy r s1 Hf1) as (s2 & E2 & Hd2 & Hs2 & _).
  exists s1, s2. repeat (split; [assumption|]). split.
  - rewrite Hs2, Hs1, <- app_assoc. reflexivity.
  - rewrite Hd2, Hm1. reflexivity.
Qed.

(** X29: a missing resume does not stop the mail.  When the store has
    no active resume and there is no file at [RESUME_PATH], so that
    [get_resume_attachment] neither decodes nor opens anything,
    [send_email] hands the mail server one message, without attachment,
    and returns [True] exactly when the server accepts it. *)
Theorem mail_goes_out_without_resume (to subj bdy : string) (s : World) :
  healthy s ->
  resume_storage s = None ->
  resume_file s = None ->
  exists before ok,
    trace (snd (EmailSender.send_email to subj bdy s))
    = before ++ [EvSend {| to_email := to; subject := subj; body := bdy;
                           attachment := None |} ok] /\
    sends before = sends (trace s) /\
    (ok = true <-> fst (EmailSender.send_email to subj bdy s) = Ok true) /\
    (ok = false <-> exists reason,
        hd None (smtp s) = Some reason /\
        fst (EmailSender.send_email to subj bdy s)
        = Raise (GenericException ("SMTP Error: " ++ reason)%string)).
Proof.
  intros Hf Hrs Hrf. destruct s as [d w c cn f sm en ct rs rf tr].
  unfold healthy in Hf. cbn [faults resume_storage resume_file] in *.
  subst f rs rf.
  unfold EmailSender.send_email, EmailSender.get_resume_attachment,
    Database.get_active_resume, bind, try_except, ret, raise,
    Database.get_connection, Database.cursor_execute, Database.next_fault,
    smtp_send, suspend.
  destruct cn, sm as [|[reason|] rest], ct as [|cs ct']; run_world;
    cbn [snd fst hd]; (eexists; eexists; split; [reflexivity|]);
    rewrite ?sends_app; cbn [sends]; rewrite ?app_nil_r;
    (split; [reflexivity|]); split; split; intros X;
    try reflexivity; try discriminate X;
    try (destruct X as (x & X1 & X2); discriminate X1);
    try (eexists; split; reflexivity).
Qed.

End Scenarios.

Section ScenarioWitnesses.
Import Runtime.

Local Abbreviation the_job :=
  (hd (Samples.job 0 0 "") (Store.get_pending_emails 1 Samples.one_job)).
Local Abbreviation started := (Samples.world_of Samples.one_job).
Local Abbreviation iteration0 :=
  (DispatchLoop.iteration Samples.no_delay Samples.sample_generate).

Lemma paused_worker_only_polls_witness :
  db (Props.slept 3
        (with_worker (CampaignWorker.pause (worker started)) started))
  = db (with_worker (CampaignWorker.pause (worker started)) started) /\
  clock (Props.slept 3
           (with_worker (CampaignWorker.pause (worker started)) started))
  = 1003.
Proof.
  destruct (paused_worker_only_polls Samples.no_delay Samples.sample_generate
              (with_worker (CampaignWorker.pause (worker started)) started)
              3 0)
    as (_ & _ & _ & Hd & _ & _ & _ & Hk & _).
  - reflexivity.
  - reflexivity.
  - simpl. intros cs [].
  - split; [exact Hd|exact Hk].
Defined.

Lemma stop_during_send_ends_after_recording_witness :
  exists s',
    iteration0 (with_ctl [[CampaignWorker.Stop]] started)
    = (DispatchLoop.Continue, s') /\
    Props.sends (trace s') = ["a@example.org"] /\
    CampaignWorker.status (worker s') = (CampaignWorker.Stopped, None).
Proof.
  destruct (stop_during_send_ends_after_recording
              Samples.no_delay Samples.sample_generate
              (with_ctl [[CampaignWorker.Stop]] started) the_job [] [])
    as (s' & Ei & _ & Hs & _ & _ & _ & Hst & _).
  - reflexivity.
  - reflexivity.
  - reflexivity.
  - reflexivity.
  - exists s'. split; [exact Ei|]. split; [exact Hs|exact Hst].
Defined.

Lemma pause_during_send_skips_the_wait_witness :
  exists s1 s2,
    DispatchLoop.iteration Samples.short_delay Samples.sample_generate
      (with_ctl [[CampaignWorker.Pause]; [CampaignWorker.Resume]] started)
    = (DispatchLoop.Continue, s1) /\
    DispatchLoop.iteration Samples.short_delay Samples.sample_generate s1
    = (DispatchLoop.Continue, s2) /\
    CampaignWorker.mode (worker s2) = CampaignWorker.Running /\
    clock s2 = 1000 + 1.
Proof.
  destruct (pause_during_send_skips_the_wait
              Samples.short_delay Samples.sample_generate
              (with_ctl [[CampaignWorker.Pause]; [CampaignWorker.Resume]] started)
              the_job [] [])
    as (s1 & s2 & E1 & E2 & _ & Hm & _ & _ & Hk & _).
  - reflexivity.
  - reflexivity.
  - reflexivity.
  - reflexivity.
  - exists s1, s2. repeat split; assumption.
Defined.

Lemma pause_during_wait_forfeits_the_delay_witness :
  exists s1 s2,
    DispatchLoop.iteration Samples.short_delay Samples.sample_generate
      (with_ctl [[]; [CampaignWorker.Pause]; [CampaignWorker.Resume]] started)
    = (DispatchLoop.Continue, s1) /\
    DispatchLoop.iteration Samples.short_delay Samples.sample_generate s1
    = (DispatchLoop.Continue, s2) /\
    CampaignWorker.mode (worker s2) = CampaignWorker.Running /\
    clock s2 = 1000 + 2.
Proof.
  destruct (pause_during_wait_forfeits_the_delay
              Samples.short_delay Samples.sample_generate
              (with_ctl [[]; [CampaignWorker.Pause]; [CampaignWorker.Resume]]
                        started)
              the_job [] [])
    as (s1 & s2 & E1 & E2 & _ & Hm & _ & _ & Hk & _).
  - reflexivity.
  - reflexivity.
  - reflexivity.
  - reflexivity.
  - simpl. lia.
  - exists s1, s2. repeat split; assumption.
Defined.

Lemma empty_window_paces_at_five_seconds_witness :
  exists s',
    DispatchLoop.iteration
      {| Config.MIN_DELAY := 5; Config.MAX_DELAY := 3;
         Config.SENDER_NAME := ""; Config.SENDER_EMAIL := "";
         Config.RESUME_PATH := "" |}
      Samples.sample_generate started
    = (DispatchLoop.Continue, s') /\
    clock s' = 1000 + 5.
Proof.
  destruct (empty_window_paces_at_five_seconds
              {| Config.MIN_DELAY := 5; Config.MAX_DELAY := 3;
                 Config.SENDER_NAME := ""; Config.SENDER_EMAIL := "";
                 Config.RESUME_PATH := "" |}
              Samples.sample_generate started the_job [])
    as (s' & before & msg & Ei & _ & _ & _ & Hk & _).
  - split; reflexivity.
  - reflexivity.
  - reflexivity.
  - simpl. lia.
  - exists s'. split; assumption.
Defined.

Lemma resume_lookup_failure_fails_the_job_witness :
  Props.sends
    (trace (snd (iteration0
                   (with_faults [Healthy; Rejected "too many connections"]
                                started))))
  = [].
Proof.
  destruct (resume_lookup_failure_fails_the_job
              Samples.no_delay Samples.sample_generate
              (with_faults [Healthy; Rejected "too many connections"] started)
              the_job [] (Rejected "too many connections")
              "too many connections")
    as (_ & _ & Hs & _).
  - reflexivity.
  - reflexivity.
  - reflexivity.
  - reflexivity.
  - reflexivity.
  - exact Hs.
Defined.

Lemma delivered_message_recorded_as_failed_witness :
  Props.sends
    (trace (snd (iteration0
                   (with_faults [Healthy; Healthy; Rejected "deadlock detected"]
                                started))))
  = [] ++ ["a@example.org"] /\
  db (snd (iteration0
             (with_faults [Healthy; Healthy; Rejected "deadlock detected"]
                          started)))
  = Store.update_email_status (Store.id the_job) "failed"
      (Some "deadlock detected") 1000 Samples.one_job.
Proof.
  destruct (delivered_message_recorded_as_failed
              Samples.no_delay Samples.sample_generate
              (with_faults [Healthy; Healthy; Rejected "deadlock detected"] started)
              the_job [] (Rejected "deadlock detected") "deadlock detected")
    as (_ & Hs & Hd & _).
  - reflexivity.
  - reflexivity.
  - reflexivity.
  - reflexivity.
  - reflexivity.
  - reflexivity.
  - split; [exact Hs|exact Hd].
Defined.

Lemma unrecorded_delivery_is_repeated_witness :
  exists s1,
    iteration0
      (with_faults [Healthy; Healthy; Broken "connection lost";
                    Rejected "the database system is starting up"] started)
    = (DispatchLoop.Continue, s1) /\
    Props.sends (trace (snd (iteration0 s1)))
    = [] ++ ["a@example.org"; "a@example.org"].
Proof.
  destruct (unrecorded_delivery_is_repeated
              Samples.no_delay Samples.sample_generate
              (with_faults [Healthy; Healthy; Broken "connection lost";
                            Rejected "the database system is starting up"] started)
              the_job [] (Broken "connection lost")
              (Rejected "the database system is starting up")
              "connection lost" "the database system is starting up")
    as (s1 & before & Ei & _ & _ & _ & _ & _ & Hs).
  - reflexivity.
  - reflexivity.
  - reflexivity.
  - reflexivity.
  - reflexivity.
  - reflexivity.
  - reflexivity.
  - reflexivity.
  - exists s1. split; [exact Ei|exact Hs].
Defined.

Lemma manual_send_does_not_check_status_witness :
  exists s1 s2,
    DispatchLoop.manual_send Samples.sample_generate the_job started
    = (Ok tt, s1) /\
    DispatchLoop.manual_send Samples.sample_generate the_job s1 = (Ok tt, s2) /\
    Props.sends (trace s2) = [] ++ ["a@example.org"; "a@example.org"].
Proof.
  destruct (manual_send_does_not_check_status
              Samples.sample_generate the_job started)
    as (s1 & s2 & E1 & _ & _ & _ & E2 & Hs & _).
  - reflexivity.
  - exists s1, s2. split; [exact E1|]. split; [exact E2|exact Hs].
Defined.

Lemma mail_goes_out_without_resume_witness :
  exists before ok,
    trace (snd (EmailSender.send_email "a@example.org" "Application" "Hello"
                  started))
    = before ++ [EvSend {| to_email := "a@example.org";
                           subject := "Application"; body := "Hello";
                           attachment := None |} ok] /\
    ok = true.
Proof.
  destruct (mail_goes_out_without_resume "a@example.org" "Application" "Hello"
              started)
    as (before & ok & E & _ & Hok & _).
  - reflexivity.
  - reflexivity.
  - reflexivity.
  - exists before, ok. split; [exact E|]. apply Hok.
    vm_compute. reflexivity.
Defined.

End ScenarioWitnesses.
